(** * Lumino documentation build configuration (docs/source/conf.py)

    A shallow embedding of the Sphinx configuration module of the Lumino
    repository: the module-level computation of [version], the two staging
    routines [build_api_docs] and [build_examples], and the [setup] hook.

    The routines only orchestrate library calls ([os.path], [shutil],
    [subprocess], [json]), so the development consists of
    - a model of the file system as a tree of directories and files,
    - the library calls the module uses, with the errors they raise,
    - a state-and-exception monad that keeps a log of every effect, and
    - the module itself, written call by call as in the source.

    The file system has directories and regular files only: no symbolic
    links, no permissions, no concurrent writer.  Paths are absolute; the
    output directory is the one Sphinx passes, absolute and normalised.
    What an external process does to the file system, what [shutil.which]
    finds and what [json.loads] returns are parameters of the model. *)

From stdpp Require Import gmap strings list.

Open Scope string_scope.
Open Scope list_scope.

(** ** Paths *)

(** A path is its list of components below the file-system root.  The
    module only ever joins a path with literal relative names, so
    [os.path.join] is concatenation of component lists. *)
Abbreviation Path := (list string).

Definition pardir : string := "..".

Definition osp_join (p : Path) (names : list string) : Path := p ++ names.

(** [os.path.basename]: the last component of the path as written. *)
Definition basename (p : Path) : string := default EmptyString (last p).

(** Rendering of a path inside a log message. *)
Definition path_str (p : Path) : string :=
  foldr (fun c acc => "/" +:+ c +:+ acc) EmptyString p.

(** The location a path denotes: with no symbolic links in the model,
    [..] cancels the component before it and the parent of the root is
    the root ([os.path.normpath]). *)
Definition norm_step (stack : list string) (c : string) : list string :=
  if decide (c = pardir) then tail stack else c :: stack.

Definition norm (p : Path) : Path := rev (fold_left norm_step p []).

(** Two resolved paths are apart when they branch at some component:
    neither lies inside the other. *)
Fixpoint apart (p q : Path) : bool :=
  match p, q with
  | a :: p', b :: q' => if decide (a = b) then apart p' q' else true
  | _, _ => false
  end.

(** When [q] lies strictly below [p], the first component of the way
    from [p] to [q]. *)
Fixpoint first_below (p q : Path) : option string :=
  match p, q with
  | [], c :: _ => Some c
  | a :: p', b :: q' => if decide (a = b) then first_below p' q' else None
  | _, _ => None
  end.

(** ** The file tree *)

#[warnings="-register-all"]
Inductive node : Type :=
  | File (data : string)
  | Dir (entries : gmap string node).

Definition is_dir (o : option node) : bool :=
  match o with Some (Dir _) => true | _ => false end.

(** The node a resolved path leads to. *)
Fixpoint get (t : node) (p : Path) : option node :=
  match p with
  | [] => Some t
  | c :: p' =>
      match t with
      | Dir m => match m !! c with
                 | Some t' => get t' p'
                 | None => None
                 end
      | File _ => None
      end
  end.

(** Place [v] at [p], creating the missing directories on the way (as
    [os.makedirs] does); no result when a file is in the way. *)
Fixpoint put (t : option node) (p : Path) (v : node) : option node :=
  match p with
  | [] => Some v
  | c :: p' =>
      match t with
      | Some (File _) => None
      | Some (Dir m) =>
          match put (m !! c) p' v with
          | Some t' => Some (Dir (<[c := t']> m))
          | None => None
          end
      | None =>
          match put None p' v with
          | Some t' => Some (Dir {[c := t']})
          | None => None
          end
      end
  end.

(** Remove the entry at [p] with everything below it. *)
Fixpoint del (t : node) (p : Path) : node :=
  match p with
  | [] => t
  | c :: p' =>
      match t with
      | File _ => t
      | Dir m =>
          match p' with
          | [] => Dir (delete c m)
          | _ => match m !! c with
                 | Some t' => Dir (<[c := del t' p']> m)
                 | None => t
                 end
          end
      end
  end.

(** ** Effects *)

(** The Python exceptions the library calls of the module can raise. *)
Inductive exn : Type :=
  | FileNotFoundError
  | FileExistsError
  | NotADirectoryError
  | IsADirectoryError
  | SameFileError
  | ShutilError
  | PermissionError
  | TypeError
  | KeyError (key : string)
  | JSONDecodeError
  | CalledProcessError (returncode : Z)
  | OSError (msg : string).

(** The calls that act on the outside world or can fail. *)
Inductive op : Type :=
  | OPrint (msg : string)
  | OCheckCall (args : list (option string)) (cwd : Path)
  | ORmtree (path : Path)
  | OCopytree (src dst : Path)
  | OCopy (src dst : Path)
  | OAddCssFile (filename : string)
  | OReadText (path : Path)
  | OJsonLoads
  | OGetItem (key : string).

Inductive outcome : Type :=
  | Done
  | Failed (e : exn).

Abbreviation Log := (list (op * outcome)).

(** The world a run acts on: the file tree, the style sheets registered
    with the Sphinx application, and the calls made so far, oldest first. *)
Record World : Type := mkWorld {
  fs : node;
  css_files : list string;
  log : Log
}.

Definition record (o : op) (r : outcome) (w : World) : World :=
  {| fs := fs w; css_files := css_files w; log := log w ++ [(o, r)] |}.

Definition with_fs (t : node) (w : World) : World :=
  {| fs := t; css_files := css_files w; log := log w |}.

(** A computation either returns a value or raises, in both cases with
    the world as it left it. *)
Inductive Res (A : Type) : Type :=
  | Ok (a : A) (w : World)
  | Raise (e : exn) (w : World).
Arguments Ok {A} a w.
Arguments Raise {A} e w.

Definition M (A : Type) : Type := World → Res A.

#[global] Instance M_ret : MRet M := λ A a w, Ok a w.

#[global] Instance M_bind : MBind M := λ A B f m w,
  match m w with
  | Ok a w' => f a w'
  | Raise e w' => Raise e w'
  end.

(** A read of the file tree: no effect, no failure. *)
Definition query {A : Type} (f : node → A) : M A := λ w, Ok (f (fs w)) w.

(** A logged call on the file tree: it fails with an exception or returns
    a value and the tree it produced. *)
Definition call {A : Type} (o : op) (act : node → exn + A * node) : M A := λ w,
  match act (fs w) with
  | inl e => Raise e (record o (Failed e) w)
  | inr (a, t) => Ok a (record o Done (with_fs t w))
  end.

(** [for x in l: body x] *)
Fixpoint for_in {A : Type} (l : list A) (body : A → M unit) : M unit :=
  match l with
  | [] => mret tt
  | x :: l' => body x ;; for_in l' body
  end.

(** Run a computation that can only raise or return, without touching
    the tree. *)
Definition attempt {A : Type} (o : op) (r : exn + A) : M A :=
  call o (λ t, match r with inl e => inl e | inr a => inr (a, t) end).

Definition outcome_of {A : Type} (r : exn + A) : outcome :=
  match r with inl e => Failed e | inr _ => Done end.

(** ** The library calls *)

(** The error of a lookup that finds nothing: a file in the way of the
    path, or a missing entry. *)
Fixpoint lookup_error (t : node) (p : Path) : exn :=
  match p with
  | [] => FileNotFoundError
  | c :: p' =>
      match t with
      | File _ => NotADirectoryError
      | Dir m => match m !! c with
                 | Some t' => lookup_error t' p'
                 | None => FileNotFoundError
                 end
      end
  end.

(** The operating system resolves a path component by component: a step
    [..] needs the directory it steps out of to exist.  The result is the
    location [norm p], or the error of the step that failed. *)
Fixpoint resolve_from (t : node) (stack : list string) (p : Path) : exn + list string :=
  match p with
  | [] => inr stack
  | c :: p' =>
      if decide (c = pardir) then
        match get t (rev stack) with
        | Some (Dir _) => resolve_from t (tail stack) p'
        | Some (File _) => inl NotADirectoryError
        | None => inl (lookup_error t (rev stack))
        end
      else resolve_from t (c :: stack) p'
  end.

Definition resolve (t : node) (p : Path) : exn + Path :=
  match resolve_from t [] p with
  | inl e => inl e
  | inr stack => inr (rev stack)
  end.

(** The node a path leads to, if the path resolves and something is there. *)
Definition node_at (t : node) (p : Path) : option node :=
  match resolve t p with
  | inl _ => None
  | inr q => get t q
  end.

(** [os.path.exists] *)
Definition exists_at (t : node) (p : Path) : bool :=
  match node_at t p with Some _ => true | None => false end.

Definition osp_exists (p : Path) : M bool := query (λ t, exists_at t p).

(** [print] *)
Definition print (msg : string) : M unit := call (OPrint msg) (λ t, inr (tt, t)).

(** [shutil.rmtree]: the target must be a directory.  Removing the root
    itself is refused by the system. *)
Definition rmtree_at (p : Path) (t : node) : exn + unit * node :=
  match resolve t p with
  | inl e => inl e
  | inr q =>
      match get t q with
      | None => inl (lookup_error t q)
      | Some (File _) => inl NotADirectoryError
      | Some (Dir _) =>
          if decide (q = []) then inl PermissionError
          else inr (tt, del t q)
      end
  end.

Definition shutil_rmtree (p : Path) : M unit := call (ORmtree p) (rmtree_at p).

(** [shutil.copytree src dst] (with [dirs_exist_ok=False]): [src] must be
    a directory and [dst] must not exist; the entries of [src] are listed,
    [dst] is made together with its missing parents, and the listed
    entries are copied below it.  When [dst] lies below [src] through an
    entry that was listed, the copy descends into its own output and ends
    in an error (what such a run leaves behind is not modelled). *)
Definition copytree_at (src dst : Path) (t : node) : exn + unit * node :=
  match resolve t src with
  | inl e => inl e
  | inr s =>
      match get t s with
      | None => inl (lookup_error t s)
      | Some (File _) => inl NotADirectoryError
      | Some (Dir m) =>
          match resolve t dst with
          | inl e => inl e
          | inr d =>
              match get t d with
              | Some _ => inl FileExistsError
              | None =>
                  match put (Some t) d (Dir m) with
                  | None => inl NotADirectoryError
                  | Some t' =>
                      match first_below s d ≫= λ c, m !! c with
                      | Some _ => inl ShutilError
                      | None => inr (tt, t')
                      end
                  end
              end
          end
      end
  end.

Definition shutil_copytree (src dst : Path) : M unit :=
  call (OCopytree src dst) (copytree_at src dst).

(** [shutil.copy src dst]: when [dst] is a directory the file goes inside
    it under the base name of [src]; copying a file onto itself is an
    error; then [src] is opened for reading and the target for writing. *)
Definition copy_target (src dst : Path) (t : node) : Path :=
  if is_dir (node_at t dst) then osp_join dst [basename src] else dst.

(** [os.path.samefile], where an error counts as a difference. *)
Definition same_file (t : node) (p q : Path) : bool :=
  match resolve t p, resolve t q with
  | inr p', inr q' =>
      bool_decide (p' = q') && match get t p' with Some _ => true | None => false end
  | _, _ => false
  end.

Definition copy_at (src dst : Path) (t : node) : exn + unit * node :=
  let dst' := copy_target src dst t in
  if same_file t src dst' then inl SameFileError
  else
    match resolve t src with
    | inl e => inl e
    | inr s =>
        match get t s with
        | None => inl (lookup_error t s)
        | Some (Dir _) => inl IsADirectoryError
        | Some (File data) =>
            match resolve t dst' with
            | inl e => inl e
            | inr d =>
                if is_dir (get t d) then inl IsADirectoryError
                else if is_dir (get t (removelast d)) then
                  match put (Some t) d (File data) with
                  | None => inl NotADirectoryError
                  | Some t' => inr (tt, t')
                  end
                else inl (lookup_error t d)
            end
        end
    end.

Definition shutil_copy (src dst : Path) : M unit :=
  call (OCopy src dst) (copy_at src dst).

(** [Path.read_text] *)
Definition read_text_at (p : Path) (t : node) : exn + string * node :=
  match resolve t p with
  | inl e => inl e
  | inr q =>
      match get t q with
      | None => inl (lookup_error t q)
      | Some (Dir _) => inl IsADirectoryError
      | Some (File data) => inr (data, t)
      end
  end.

Definition read_text (p : Path) : M string := call (OReadText p) (read_text_at p).

(** [app.add_css_file] of the Sphinx application. *)
Definition add_css_file (filename : string) : M unit := λ w,
  Ok tt (record (OAddCssFile filename) Done
           {| fs := fs w; css_files := css_files w ++ [filename]; log := log w |}).

(** Values produced by [json.loads]. *)
#[warnings="-register-all"]
Inductive pyval : Type :=
  | PyNone
  | PyBool (b : bool)
  | PyInt (z : Z)
  | PyFloat (repr : string)
  | PyStr (s : string)
  | PyList (items : list pyval)
  | PyDict (items : gmap string pyval).

(** [data[key]]: only a dict can be indexed by a string. *)
Definition getitem_str (data : pyval) (key : string) : exn + pyval :=
  match data with
  | PyDict d => match d !! key with
                | Some v => inr v
                | None => inl (KeyError key)
                end
  | _ => inl TypeError
  end.

(** ** The configuration module *)

(** The Sphinx application object, as far as [setup] uses it. *)
Record App : Type := mkApp { outdir : Path }.

(** What the module binds at load time from the package manifest. *)
Record Manifest : Type := mkManifest { version : pyval; release : pyval }.

Section Conf.

(** [HERE = osp.abspath(osp.dirname(__file__))] (line 32) *)
Variable HERE : Path.

(** [shutil.which]: the executable a command name resolves to, if any,
    in the current state of the system. *)
Variable which : string → node → option string.

(** What a child process does when run with the given arguments in the
    given directory: it fails (cannot be started, or exits with a
    non-zero status) or leaves a new file tree. *)
Variable run_process : list string → Path → node → exn + node.

(** [json.loads] *)
Variable json_loads : string → exn + pyval.

(** Line 33. *)
Definition EXAMPLES : list string := ["accordionpanel"; "datagrid"; "dockpanel"].

Definition shutil_which (cmd : string) : M (option string) := query (which cmd).

(** [subprocess.check_call(args, cwd=cwd)]: a [None] among the arguments
    is a [TypeError] before any process is started. *)
Definition check_call_at (args : list (option string)) (cwd : Path) (t : node)
  : exn + unit * node :=
  match mapM id args with
  | None => inl TypeError
  | Some argv =>
      match run_process argv cwd t with
      | inl e => inl e
      | inr t' => inr (tt, t')
      end
  end.

Definition check_call (args : list (option string)) (cwd : Path) : M unit :=
  call (OCheckCall args cwd) (check_call_at args cwd).

(** *** Module level: the version (lines 77-80) *)

Definition package_json : Path := osp_join HERE [pardir; pardir; "package.json"].

Definition load_manifest : M Manifest :=
  text ← read_text package_json;
  data ← attempt OJsonLoads (json_loads text);
  v ← attempt (OGetItem "version") (getitem_str data "version");
  mret {| version := v; release := v |}.

(** *** The paths both staging routines compute (lines 104-107, 131-134) *)

Definition docs : Path := osp_join HERE [pardir].
Definition root : Path := osp_join docs [pardir].
Definition docs_api : Path := osp_join docs ["source"; "api"].
Definition api_index : Path := osp_join docs_api ["algorithm"; "index.html"].
Definition examples_dir : Path := osp_join docs ["source"; "examples"].
Definition example_index : Path :=
  osp_join examples_dir [default EmptyString (EXAMPLES !! 0%nat); "index.html"].

(** *** build_api_docs (lines 102-126) *)

Definition build_api_docs (out_dir : Path) : M unit :=
  have ← osp_exists api_index;
  (if have : bool then
     print ("already have " +:+ path_str api_index)
   else
     print "Building lumino API docs";;
     npm ← shutil_which "npm";
     check_call ([npm] ++ [Some "install"; Some "-g"; Some "yarn"]) root;;
     yarn ← shutil_which "yarn";
     check_call [yarn] root;;
     check_call ([yarn] ++ [Some "docs"]) root);;
  let dest_dir := osp_join out_dir ["api"] in
  print ("Copying " +:+ path_str docs_api +:+ " -> " +:+ path_str dest_dir);;
  stale ← osp_exists dest_dir;
  (if stale : bool then shutil_rmtree dest_dir else mret tt);;
  shutil_copytree docs_api dest_dir;;
  shutil_copy (osp_join HERE ["api_index.html"]) (osp_join dest_dir ["index.html"]).

(** *** build_examples (lines 129-162) *)

(** The body of the loop over [EXAMPLES] (lines 151-156). *)
Definition copy_example (example : string) : M unit :=
  let source := osp_join root ["examples"; "example-" +:+ example] in
  let dest_dir := osp_join docs ["source"; "examples"; example] in
  print ("Copying " +:+ path_str source +:+ " -> " +:+ path_str dest_dir);;
  stale ← osp_exists dest_dir;
  (if stale : bool then shutil_rmtree dest_dir else mret tt);;
  shutil_copytree source dest_dir.

Definition build_examples (out_dir : Path) : M unit :=
  have ← osp_exists example_index;
  (if have : bool then
     print "already have examples"
   else
     print "Building lumino examples";;
     npm ← shutil_which "npm";
     check_call ([npm] ++ [Some "install"; Some "-g"; Some "yarn"]) root;;
     yarn ← shutil_which "yarn";
     check_call [yarn] root;;
     check_call ([yarn] ++ [Some "build"]) root;;
     check_call ([yarn] ++ [Some "build:examples"]) root;;
     for_in EXAMPLES copy_example);;
  let dest_dir := osp_join out_dir ["examples"] in
  print ("Copying " +:+ path_str examples_dir +:+ " -> " +:+ path_str dest_dir);;
  stale ← osp_exists dest_dir;
  (if stale : bool then shutil_rmtree dest_dir else mret tt);;
  shutil_copytree examples_dir dest_dir.

(** *** setup (lines 286-291) *)

Definition setup (app : App) : M unit :=
  let dest := osp_join HERE ["changelog.md"] in
  shutil_copy (osp_join HERE [pardir; pardir; "CHANGELOG.md"]) dest;;
  add_css_file "css/custom.css";;
  build_api_docs (outdir app);;
  build_examples (outdir app).

End Conf.

(** ** Runs and their logs *)

(** The world a run ends in, whether it returned or raised. *)
Definition final {A : Type} (r : Res A) : World :=
  match r with Ok _ w | Raise _ w => w end.

Definition returned {A : Type} (r : Res A) : bool :=
  match r with Ok _ _ => true | Raise _ _ => false end.

(** The calls a computation makes when started in [w]. *)
Definition emitted {A : Type} (m : M A) (w : World) : Log :=
  drop (length (log w)) (log (final (m w))).

Definition ops (l : Log) : list op := l.*1.

Definition all_done (l : Log) : Prop := Forall (λ x, x.2 = Done) l.

Definition succeeded (o : op) : op * outcome := (o, Done).

(** A computation propagates failures when every run of it extends the
    log by calls that all succeeded, except that a run that raises [e]
    ends with the one call that failed, and that call failed with [e]. *)
Definition propagates {A : Type} (m : M A) : Prop :=
  ∀ w, match m w with
       | Ok _ w' => ∃ l, log w' = log w ++ l ∧ all_done l
       | Raise e w' =>
           ∃ l o, log w' = log w ++ l ++ [(o, Failed e)] ∧ all_done l
       end.

(** *** Scripts: the calls a run makes, in order *)

(** A run follows a script when the calls it makes are the first calls of
    the script, and all of the script when the run returns. *)
Definition follows {A : Type} (m : M A) (w : World) (script : list op) : Prop :=
  ops (emitted m w) `prefix_of` script ∧
  (returned (m w) = true → ops (emitted m w) = script).

(** A run obeys a family of scripts when it follows one of them. *)
Definition obeys {A : Type} (m : M A) (w : World) (K : list op → Prop) : Prop :=
  ∃ s, K s ∧ follows m w s.

(** The calls that change the staged trees. *)
Definition is_staging (o : op) : bool :=
  match o with ORmtree _ | OCopytree _ _ | OCopy _ _ => true | _ => false end.

Section Scripts.

Variable HERE : Path.

(** Installing and running the build tool, then one run per target. *)
Definition yarn_script (npm yarn : option string) (targets : list string) : list op :=
  [OCheckCall [npm; Some "install"; Some "-g"; Some "yarn"] (root HERE);
   OCheckCall [yarn] (root HERE)]
  ++ map (λ t, OCheckCall [yarn; Some t] (root HERE)) targets.

(** Replacing [dst] by a copy of [src]. *)
Definition restage_script (src dst : Path) (stale : bool) : list op :=
  OPrint ("Copying " +:+ path_str src +:+ " -> " +:+ path_str dst)
  :: (if stale then [ORmtree dst] else []) ++ [OCopytree src dst].

Definition api_script (have : bool) (npm yarn : option string) (stale : bool)
    (out_dir : Path) : list op :=
  (if have then [OPrint ("already have " +:+ path_str (api_index HERE))]
   else OPrint "Building lumino API docs" :: yarn_script npm yarn ["docs"])
  ++ restage_script (docs_api HERE) (osp_join out_dir ["api"]) stale
  ++ [OCopy (osp_join HERE ["api_index.html"])
            (osp_join (osp_join out_dir ["api"]) ["index.html"])].

Definition example_source (example : string) : Path :=
  osp_join (root HERE) ["examples"; "example-" +:+ example].

Definition example_dest (example : string) : Path :=
  osp_join (docs HERE) ["source"; "examples"; example].

Definition examples_script (have : bool) (npm yarn : option string)
    (stales : list bool) (stale : bool) (out_dir : Path) : list op :=
  (if have then [OPrint "already have examples"]
   else OPrint "Building lumino examples"
        :: yarn_script npm yarn ["build"; "build:examples"]
        ++ concat (zip_with (λ e st, restage_script (example_source e) (example_dest e) st)
                     EXAMPLES stales))
  ++ restage_script (examples_dir HERE) (osp_join out_dir ["examples"]) stale.

Definition setup_script (api examples : list op) : list op :=
  [OCopy (osp_join HERE [pardir; pardir; "CHANGELOG.md"]) (osp_join HERE ["changelog.md"]);
   OAddCssFile "css/custom.css"]
  ++ api ++ examples.

Definition is_api_script (w : World) (out_dir : Path) (s : list op) : Prop :=
  ∃ npm yarn stale,
    s = api_script (exists_at (fs w) (api_index HERE)) npm yarn stale out_dir ∧
    (exists_at (fs w) (api_index HERE) = true →
     stale = exists_at (fs w) (osp_join out_dir ["api"])).

Definition is_examples_script (w : World) (out_dir : Path) (s : list op) : Prop :=
  ∃ npm yarn st1 st2 st3 stale,
    s = examples_script (exists_at (fs w) (example_index HERE)) npm yarn
          [st1; st2; st3] stale out_dir ∧
    (exists_at (fs w) (example_index HERE) = true →
     stale = exists_at (fs w) (osp_join out_dir ["examples"])).

End Scripts.

(** ** Properties of runs *)

Section Statements.

Variable HERE : Path.
Variable which : string → node → option string.
Variable run_process : list string → Path → node → exn + node.

Local Abbreviation build_api_docs := (build_api_docs HERE which run_process).
Local Abbreviation build_examples := (build_examples HERE which run_process).
Local Abbreviation setup := (setup HERE which run_process).

(** The calls of the build chain of [build_api_docs], all succeeded. *)
Definition api_chain_done (npm yarn : option string) : Log :=
  succeeded <$> (OPrint "Building lumino API docs" :: yarn_script HERE npm yarn ["docs"]).

(** Each staging call of the run comes after the whole build chain. *)
Definition builds_before_staging (out_dir : Path) (w : World) : Prop :=
  ∃ npm yarn,
    (∀ l1 o r l2,
       emitted (build_api_docs out_dir) w = l1 ++ (o, r) :: l2 →
       is_staging o = true →
       ∃ l1', l1 = api_chain_done npm yarn ++ l1') ∧
    (returned (build_api_docs out_dir w) = true →
     ∃ l, emitted (build_api_docs out_dir) w =
          api_chain_done npm yarn ++ l ++
          [succeeded (OCopytree (docs_api HERE) (osp_join out_dir ["api"]));
           succeeded (OCopy (osp_join HERE ["api_index.html"])
                        (osp_join (osp_join out_dir ["api"]) ["index.html"]))]).

(** An example has been copied when the copy of its build output into
    the documentation sources was made and succeeded. *)
Definition example_copied (l : Log) (example : string) : Prop :=
  succeeded (OCopytree (example_source HERE example) (example_dest HERE example)) ∈ l.

(** The last call of a run: the copy of the aggregated examples tree
    into the output directory. *)
Definition examples_staged (out_dir : Path) : op * outcome :=
  succeeded (OCopytree (examples_dir HERE) (osp_join out_dir ["examples"])).

(** C3 as stated: the examples copied by a run are exactly the named ones. *)
Definition copies_exactly_examples (out_dir : Path) (w : World) : Prop :=
  ∀ e, example_copied (emitted (build_examples out_dir) w) e ↔ e ∈ EXAMPLES.

(** C4 as stated: every run that returns has copied each named example
    and then the aggregated tree. *)
Definition copies_examples_then_stages (out_dir : Path) (w : World) : Prop :=
  ∃ l, emitted (build_examples out_dir) w = l ++ [examples_staged out_dir] ∧
       ∀ e, e ∈ EXAMPLES → example_copied l e.

(** C4 as the code has it: the per-example copies are part of the build
    branch. *)
Definition stages_examples (out_dir : Path) (w : World) : Prop :=
  ∃ l, emitted (build_examples out_dir) w = l ++ [examples_staged out_dir] ∧
       (exists_at (fs w) (example_index HERE) = false →
        ∀ e, e ∈ EXAMPLES → example_copied l e) ∧
       (exists_at (fs w) (example_index HERE) = true →
        ∀ e, ¬ example_copied l e).

(** What a run of [build_examples] does when it finds the marker. *)
Definition examples_skipped (out_dir : Path) (w : World) : Prop :=
  follows (build_examples out_dir) w
    (OPrint "already have examples"
     :: restage_script (examples_dir HERE) (osp_join out_dir ["examples"])
          (exists_at (fs w) (osp_join out_dir ["examples"]))) ∧
  (∀ args cwd r, (OCheckCall args cwd, r) ∉ emitted (build_examples out_dir) w) ∧
  (∀ e r, (OCopytree (example_source HERE e) (example_dest HERE e), r)
          ∉ emitted (build_examples out_dir) w).

Definition api_page : Path := osp_join HERE ["api_index.html"].

Definition api_dest_index (out_dir : Path) : Path :=
  osp_join (osp_join out_dir ["api"]) ["index.html"].

(** The run of [build_api_docs] copied the generated tree into
    [<out_dir>/api]: its [copytree] was called and succeeded.  Every run
    that returns is such a run; so is a run that fails only in the copy
    of the index page. *)
Definition api_tree_copied (out_dir : Path) (w : World) : Prop :=
  succeeded (OCopytree (docs_api HERE) (osp_join out_dir ["api"]))
  ∈ emitted (build_api_docs out_dir) w.

(** What a run of [build_api_docs] that copied the generated tree has
    done to [<out_dir>/api], where [w'] is the world the run ends in:
    - its last calls are the removal of the destination, when that
      existed, directly followed by the copy of the generated tree and
      the copy of the index page, of which only the last one can have
      failed, and no call before them touched a tree;
    - the staging started from a tree [tb] (the tree of [w] when the
      marker was there) and removed the destination from it, and nothing
      else, so that at the time of the copy nothing was left at or below
      the destination, and the copy made it a replica of the generated
      tree; the tree of [w'] is the outcome of the copy of the index
      page into that, or that tree itself if the copy of the page failed;
    - in the end every entry below the destination is also in the
      generated tree, or is the index page laid over it. *)
Definition api_restaged (out_dir : Path) (w : World) : Prop :=
  let w' := final (build_api_docs out_dir w) in
  (∃ l stale r,
     emitted (build_api_docs out_dir) w =
       l ++ (succeeded <$>
               (if stale : bool then [ORmtree (osp_join out_dir ["api"])] else [])
               ++ [OCopytree (docs_api HERE) (osp_join out_dir ["api"])])
         ++ [(OCopy api_page (api_dest_index out_dir), r)] ∧
     Forall (λ x, is_staging x.1 = false) l ∧
     (exists_at (fs w) (api_index HERE) = true →
      stale = exists_at (fs w) (osp_join out_dir ["api"]))) ∧
  (∃ tb t0 t1,
     (exists_at (fs w) (api_index HERE) = true → tb = fs w) ∧
     t0 = (if exists_at tb (osp_join out_dir ["api"])
           then del tb (norm (osp_join out_dir ["api"])) else tb) ∧
     (∀ r, get t0 (norm (osp_join out_dir ["api"]) ++ r) = None) ∧
     (∀ q, apart (norm (osp_join out_dir ["api"])) q = true → get t0 q = get tb q) ∧
     copytree_at (docs_api HERE) (osp_join out_dir ["api"]) t0 = inr (tt, t1) ∧
     (∀ r, get t1 (norm (osp_join out_dir ["api"]) ++ r)
           = get t0 (norm (docs_api HERE) ++ r)) ∧
     fs w' = match copy_at api_page (api_dest_index out_dir) t1 with
             | inr (_, t2) => t2
             | inl _ => t1
             end) ∧
  (∀ r, r ≠ [] →
     is_Some (get (fs w') (norm (osp_join out_dir ["api"]) ++ r)) →
     is_Some (get (fs w') (norm (docs_api HERE) ++ r))
     ∨ r = ["index.html"] ∨ r = ["index.html"; "api_index.html"]).

(** C9 as stated: in the end [<out_dir>/api/index.html] is the index
    page [api_index.html]. *)
Definition api_index_is_page (out_dir : Path) (w' : World) : Prop :=
  ∃ data,
    get (fs w') (norm api_page) = Some (File data) ∧
    get (fs w') (norm (api_dest_index out_dir)) = Some (File data).

(** C9 as the code has it: [shutil.copy] puts the page inside
    [<out_dir>/api/index.html] when that is a directory. *)
Definition api_index_overlaid (out_dir : Path) (w w' : World) : Prop :=
  (∃ l, emitted (build_api_docs out_dir) w =
        l ++ [succeeded (OCopytree (docs_api HERE) (osp_join out_dir ["api"]));
              succeeded (OCopy api_page (api_dest_index out_dir))]) ∧
  ∃ data,
    get (fs w') (norm api_page) = Some (File data) ∧
    (is_dir (get (fs w') (norm (osp_join (docs_api HERE) ["index.html"]))) = false →
     get (fs w') (norm (api_dest_index out_dir)) = Some (File data)) ∧
    (is_dir (get (fs w') (norm (api_dest_index out_dir))) = true →
     get (fs w') (norm (osp_join (api_dest_index out_dir) ["api_index.html"]))
     = Some (File data)).

Definition changelog_copy : M unit :=
  shutil_copy (osp_join HERE [pardir; pardir; "CHANGELOG.md"])
    (osp_join HERE ["changelog.md"]).

(** The order of a run of [setup]: its calls are the copy of the
    changelog, the registration of the style sheet, the calls of a run of
    [build_api_docs] and the calls of a run of [build_examples], up to
    the first call that fails; and a run that returns is made of the
    four steps, each started in the world the step before it left, all
    on the output directory of the application. *)
Definition setup_in_order (app : App) (w : World) : Prop :=
  (∃ api examples,
     (∃ w2, is_api_script HERE w2 (outdir app) api) ∧
     (∃ w3, is_examples_script HERE w3 (outdir app) examples) ∧
     follows (setup app) w (setup_script HERE api examples)) ∧
  (∀ w', setup app w = Ok tt w' →
     ∃ w1 w2 w3,
       changelog_copy w = Ok tt w1 ∧
       add_css_file "css/custom.css" w1 = Ok tt w2 ∧
       build_api_docs (outdir app) w2 = Ok tt w3 ∧
       build_examples (outdir app) w3 = Ok tt w').

End Statements.

(** ** Further properties of runs *)

(** A JSON object, the only value [data['version']] can index. *)
Definition is_object (data : pyval) : bool :=
  match data with PyDict _ => true | _ => false end.

Definition is_check_call (o : op) : bool :=
  match o with OCheckCall _ _ => true | _ => false end.

(** A computation that registers no style sheet. *)
Definition keeps_css {A : Type} (m : M A) : Prop :=
  ∀ w, css_files (final (m w)) = css_files w.

(** A computation that changes nothing that branches off [D], whether it
    returns or raises. *)
Definition touches_only (D : Path) {A : Type} (m : M A) : Prop :=
  ∀ w q, apart D q = true → get (fs (final (m w))) q = get (fs w) q.

(** Every directory of [t] is a directory of [t']. *)
Definition dirs_kept (t t' : node) : Prop :=
  ∀ q, is_dir (get t q) = true → is_dir (get t' q) = true.

(** The copy of an example in the documentation sources is a replica of
    its build output. *)
Definition example_in_place (HERE : Path) (e : string) (t : node) : Prop :=
  ∀ r, get t (norm (example_dest HERE e) ++ r)
       = get t (norm (example_source HERE e) ++ r).

(** ** The routines with every step fatal *)

(** The routines once more, this time as chains of library calls in
    which every call is fatal: pure functions on the file tree that stop
    at the first call that fails and give its exception.  They are
    written from what is said of the routines, not from the source, and
    are compared with the embedding of the source below. *)

(** One more step: [act] runs in the tree the steps before it left, if
    none of them failed; its failure is the result. *)
Definition and_then (r : exn + node) (act : node → exn + unit * node) : exn + node :=
  match r with
  | inl e => inl e
  | inr t => match act t with
             | inl e => inl e
             | inr (_, t') => inr t'
             end
  end.

(** A run aborts with [e]: it raises [e] to its caller, the call that
    failed with [e] is the last call it made, and every call before it
    succeeded. *)
Definition aborts {A : Type} (m : M A) (w : World) (e : exn) : Prop :=
  ∃ w' l o, m w = Raise e w' ∧ emitted m w = l ++ [(o, Failed e)] ∧ all_done l.

(** What the reading of the manifest leaves: the exception, or the
    version. *)
Definition version_result (r : Res Manifest) : exn + pyval :=
  match r with
  | Ok mf _ => inr (version mf)
  | Raise e _ => inl e
  end.

(** What a run leaves to its caller: the exception, or the tree. *)
Definition tree_result {A : Type} (r : Res A) : exn + node :=
  match r with
  | Ok _ w => inr (fs w)
  | Raise e _ => inl e
  end.

(** [m] computes [f] on the file tree, failures included. *)
Definition refines (m : M unit) (f : node → exn + node) : Prop :=
  ∀ w, tree_result (m w) = f (fs w).

Section FailFast.

Variable HERE : Path.
Variable which : string → node → option string.
Variable run_process : list string → Path → node → exn + node.
Variable json_loads : string → exn + pyval.

(** Installing the build tool, running it, and running it on each
    target, in the repository root: a tool that is not found or a
    process that fails ends the chain. *)
Definition fail_fast_build (targets : list string) (t : node) : exn + node :=
  match and_then (inr t)
          (check_call_at run_process
             [which "npm" t; Some "install"; Some "-g"; Some "yarn"] (root HERE)) with
  | inl e => inl e
  | inr t1 =>
      let yarn := which "yarn" t1 in
      foldl (λ r target,
               and_then r (check_call_at run_process [yarn; Some target] (root HERE)))
            (and_then (inr t1) (check_call_at run_process [yarn] (root HERE)))
            targets
  end.

(** Replacing [dst] by a copy of [src]: an existing [dst] is removed
    first; a removal or a copy that fails is the result. *)
Definition fail_fast_stage (src dst : Path) (r : exn + node) : exn + node :=
  match r with
  | inl e => inl e
  | inr t =>
      and_then (if exists_at t dst then and_then (inr t) (rmtree_at dst) else inr t)
               (copytree_at src dst)
  end.

(** The tree in which the staging of the API documentation starts: the
    tree of the call when the marker is there, else what the build
    chain leaves. *)
Definition api_built_tree (t : node) : exn + node :=
  if exists_at t (api_index HERE) then inr t else fail_fast_build ["docs"] t.

Definition fail_fast_api_docs (out_dir : Path) (t : node) : exn + node :=
  and_then (fail_fast_stage (docs_api HERE) (osp_join out_dir ["api"]) (api_built_tree t))
           (copy_at (api_page HERE) (api_dest_index out_dir)).

(** The tree in which the staging of the examples starts. *)
Definition examples_built_tree (t : node) : exn + node :=
  if exists_at t (example_index HERE) then inr t
  else foldl (λ r e, fail_fast_stage (example_source HERE e) (example_dest HERE e) r)
             (fail_fast_build ["build"; "build:examples"] t) EXAMPLES.

Definition fail_fast_examples (out_dir : Path) (t : node) : exn + node :=
  fail_fast_stage (examples_dir HERE) (osp_join out_dir ["examples"])
    (examples_built_tree t).

Definition fail_fast_setup (app : App) (t : node) : exn + node :=
  match and_then (inr t)
          (copy_at (osp_join HERE [pardir; pardir; "CHANGELOG.md"])
             (osp_join HERE ["changelog.md"])) with
  | inl e => inl e
  | inr t1 =>
      match fail_fast_api_docs (outdir app) t1 with
      | inl e => inl e
      | inr t2 => fail_fast_examples (outdir app) t2
      end
  end.

(** The version: the manifest is read, parsed and indexed. *)
Definition fail_fast_manifest (t : node) : exn + pyval :=
  match read_text_at (package_json HERE) t with
  | inl e => inl e
  | inr (text, _) =>
      match json_loads text with
      | inl e => inl e
      | inr data => getitem_str data "version"
      end
  end.

(** *** What a failure does to a run *)

Local Abbreviation load_manifest := (load_manifest HERE json_loads).
Local Abbreviation build_api_docs := (build_api_docs HERE which run_process).
Local Abbreviation build_examples := (build_examples HERE which run_process).
Local Abbreviation setup := (setup HERE which run_process).
Local Abbreviation check_call_at := (check_call_at run_process).

(** No routine handles an exception: in each of them a call that fails
    is the last call of the run, and its exception is what the run
    raises. *)
Definition no_handler (out_dir : Path) (app : App) : Prop :=
  (propagates load_manifest ∧
   propagates (build_api_docs out_dir) ∧
   propagates (build_examples out_dir) ∧
   propagates (setup app)) ∧
  ∀ w o e,
    ((o, Failed e) ∈ emitted load_manifest w → aborts load_manifest w e) ∧
    ((o, Failed e) ∈ emitted (build_api_docs out_dir) w →
     aborts (build_api_docs out_dir) w e) ∧
    ((o, Failed e) ∈ emitted (build_examples out_dir) w →
     aborts (build_examples out_dir) w e) ∧
    ((o, Failed e) ∈ emitted (setup app) w → aborts (setup app) w e).

(** Every step is fatal: what a run leaves is what the chain of its
    library calls leaves when the first failure ends it. *)
Definition fails_fast (out_dir : Path) (app : App) : Prop :=
  (∀ w, version_result (load_manifest w) = fail_fast_manifest (fs w)) ∧
  refines (build_api_docs out_dir) (fail_fast_api_docs out_dir) ∧
  refines (build_examples out_dir) (fail_fast_examples out_dir) ∧
  refines (setup app) (fail_fast_setup app).

(** A manifest without the key [version]. *)
Definition missing_key_aborts : Prop :=
  ∀ w text d,
    node_at (fs w) (package_json HERE) = Some (File text) →
    json_loads text = inr (PyDict d) →
    d !! "version" = None →
    aborts load_manifest w (KeyError "version").

(** An external tool that is not found, when the marker is absent:
    [npm] in the tree of the call, [yarn] in the tree the install
    left. *)
Definition missing_tool_aborts (out_dir : Path) : Prop :=
  ∀ w,
    let install :=
      check_call_at [which "npm" (fs w); Some "install"; Some "-g"; Some "yarn"]
        (root HERE) in
    (exists_at (fs w) (api_index HERE) = false →
     (which "npm" (fs w) = None → aborts (build_api_docs out_dir) w TypeError) ∧
     (∀ t1, install (fs w) = inr (tt, t1) → which "yarn" t1 = None →
            aborts (build_api_docs out_dir) w TypeError)) ∧
    (exists_at (fs w) (example_index HERE) = false →
     (which "npm" (fs w) = None → aborts (build_examples out_dir) w TypeError) ∧
     (∀ t1, install (fs w) = inr (tt, t1) → which "yarn" t1 = None →
            aborts (build_examples out_dir) w TypeError)).

(** A process that exits with a non-zero status, when the marker is
    absent: the install, and each later command of the chain in the tree
    the commands before it left. *)
Definition failed_process_aborts (out_dir : Path) : Prop :=
  ∀ w e,
    let install :=
      check_call_at [which "npm" (fs w); Some "install"; Some "-g"; Some "yarn"]
        (root HERE) in
    (∀ npm, which "npm" (fs w) = Some npm →
       run_process [npm; "install"; "-g"; "yarn"] (root HERE) (fs w) = inl e →
       (exists_at (fs w) (api_index HERE) = false →
        aborts (build_api_docs out_dir) w e) ∧
       (exists_at (fs w) (example_index HERE) = false →
        aborts (build_examples out_dir) w e)) ∧
    (exists_at (fs w) (api_index HERE) = false →
     (install (fs w) = inl e → aborts (build_api_docs out_dir) w e) ∧
     (∀ t1, install (fs w) = inr (tt, t1) →
        let yarn := which "yarn" t1 in
        (check_call_at [yarn] (root HERE) t1 = inl e →
         aborts (build_api_docs out_dir) w e) ∧
        (∀ t2, check_call_at [yarn] (root HERE) t1 = inr (tt, t2) →
           check_call_at [yarn; Some "docs"] (root HERE) t2 = inl e →
           aborts (build_api_docs out_dir) w e))) ∧
    (exists_at (fs w) (example_index HERE) = false →
     (install (fs w) = inl e → aborts (build_examples out_dir) w e) ∧
     (∀ t1, install (fs w) = inr (tt, t1) →
        let yarn := which "yarn" t1 in
        (check_call_at [yarn] (root HERE) t1 = inl e →
         aborts (build_examples out_dir) w e) ∧
        (∀ t2, check_call_at [yarn] (root HERE) t1 = inr (tt, t2) →
           (check_call_at [yarn; Some "build"] (root HERE) t2 = inl e →
            aborts (build_examples out_dir) w e) ∧
           (∀ t3, check_call_at [yarn; Some "build"] (root HERE) t2 = inr (tt, t3) →
              check_call_at [yarn; Some "build:examples"] (root HERE) t3 = inl e →
              aborts (build_examples out_dir) w e)))).

(** The tree the removal of a destination that exists leaves for the
    copy; the tree as it is when there is nothing to remove. *)
Definition cleared (dst : Path) (t : node) : exn + unit * node :=
  if exists_at t dst then rmtree_at dst t else inr (tt, t).

(** A removal or a copy that the file system refuses. *)
Definition failed_staging_aborts (out_dir : Path) (app : App) : Prop :=
  ∀ w e,
    (∀ tb, api_built_tree (fs w) = inr tb →
       (cleared (osp_join out_dir ["api"]) tb = inl e →
        aborts (build_api_docs out_dir) w e) ∧
       (∀ t0, cleared (osp_join out_dir ["api"]) tb = inr (tt, t0) →
          (copytree_at (docs_api HERE) (osp_join out_dir ["api"]) t0 = inl e →
           aborts (build_api_docs out_dir) w e) ∧
          (∀ t1, copytree_at (docs_api HERE) (osp_join out_dir ["api"]) t0 = inr (tt, t1) →
             copy_at (api_page HERE) (api_dest_index out_dir) t1 = inl e →
             aborts (build_api_docs out_dir) w e))) ∧
    (∀ tb, examples_built_tree (fs w) = inr tb →
       (cleared (osp_join out_dir ["examples"]) tb = inl e →
        aborts (build_examples out_dir) w e) ∧
       (∀ t0, cleared (osp_join out_dir ["examples"]) tb = inr (tt, t0) →
          copytree_at (examples_dir HERE) (osp_join out_dir ["examples"]) t0 = inl e →
          aborts (build_examples out_dir) w e)) ∧
    (∀ tb, exists_at (fs w) (example_index HERE) = false →
       fail_fast_build ["build"; "build:examples"] (fs w) = inr tb →
       foldl (λ r x, fail_fast_stage (example_source HERE x) (example_dest HERE x) r)
             (inr tb) EXAMPLES = inl e →
       aborts (build_examples out_dir) w e) ∧
    (copy_at (osp_join HERE [pardir; pardir; "CHANGELOG.md"])
       (osp_join HERE ["changelog.md"]) (fs w) = inl e →
     aborts (setup app) w e).

(** A routine that raises makes [setup] raise the same exception, in
    the same world: [build_examples] is not started after a failure of
    [build_api_docs]. *)
Definition failed_routine_aborts_setup (app : App) : Prop :=
  ∀ w w1 w2 e,
    changelog_copy HERE w = Ok tt w1 →
    add_css_file "css/custom.css" w1 = Ok tt w2 →
    (∀ w3, build_api_docs (outdir app) w2 = Raise e w3 →
           setup app w = Raise e w3) ∧
    (∀ w3 w4, build_api_docs (outdir app) w2 = Ok tt w3 →
              build_examples (outdir app) w3 = Raise e w4 →
              setup app w = Raise e w4).

End FailFast.

(** ** Removal before the copy, and the decision to build *)

Section Replaced.

Variable HERE : Path.
Variable which : string → node → option string.
Variable run_process : list string → Path → node → exn + node.
Local Abbreviation build_api_docs := (build_api_docs HERE which run_process).
Local Abbreviation build_examples := (build_examples HERE which run_process).
Local Abbreviation api_page := (api_page HERE).

(** What a run of [build_api_docs] does to a destination [<out_dir>/api]
    that is there when the run looks for it, in the tree [tb] the build
    phase left (the tree of the call when the marker was there):
    - the first call of the run that touches a tree is the removal of the
      destination, made in [tb];
    - a removal that fails ends the run, with the tree as it was; there
      is no copy onto a destination that is still there;
    - a destination that is a directory is removed, and the removal
      leaves nothing at or below it and takes nothing else away;
    - the copy of the generated tree is the next call: when it fails the
      run ends with the destination gone, and when it succeeds the
      destination is a replica of the generated tree, followed by the
      copy of the index page alone;
    - in the end every entry below the destination is also in the
      generated tree, or is the index page laid over it. *)
Definition api_removed_first (out_dir : Path) (w : World) (tb : node) : Prop :=
  let dest := osp_join out_dir ["api"] in
  let src := docs_api HERE in
  let idx := api_dest_index out_dir in
  let m := build_api_docs out_dir in
  let t0 := del tb (norm dest) in
  (∃ l rest,
     emitted m w = l ++ (ORmtree dest, outcome_of (rmtree_at dest tb)) :: rest ∧
     Forall (λ x, is_staging x.1 = false) l ∧
     match rmtree_at dest tb with
     | inl e => rest = [] ∧ ∃ w', m w = Raise e w' ∧ fs w' = tb
     | inr (_, t0') =>
         t0' = t0 ∧
         match copytree_at src dest t0 with
         | inl e =>
             rest = [(OCopytree src dest, Failed e)] ∧
             ∃ w', m w = Raise e w' ∧ fs w' = t0
         | inr (_, t1) =>
             rest = [succeeded (OCopytree src dest);
                     (OCopy api_page idx, outcome_of (copy_at api_page idx t1))] ∧
             fs (final (m w)) = match copy_at api_page idx t1 with
                                | inr (_, t2) => t2
                                | inl _ => t1
                                end
         end
     end) ∧
  (is_dir (node_at tb dest) = true → rmtree_at dest tb = inr (tt, t0)) ∧
  (∀ r, get t0 (norm dest ++ r) = None) ∧
  (∀ q, apart (norm dest) q = true → get t0 q = get tb q) ∧
  (∀ t1, copytree_at src dest t0 = inr (tt, t1) →
     (∀ r, get t1 (norm dest ++ r) = get t0 (norm src ++ r)) ∧
     (∀ r, r ≠ [] →
        is_Some (get (fs (final (m w))) (norm dest ++ r)) →
        is_Some (get (fs (final (m w))) (norm src ++ r))
        ∨ r = ["index.html"] ∨ r = ["index.html"; "api_index.html"])).

(** The run of [build_examples] builds: after its message, its first
    call is the install of the build tool, with the tool [shutil.which]
    finds in the tree of the call; and a run that returns has made the
    whole build chain and the copy of each example before the staging. *)
Definition examples_build_started (out_dir : Path) (w : World) : Prop :=
  let install := [which "npm" (fs w); Some "install"; Some "-g"; Some "yarn"] in
  (∃ l, emitted (build_examples out_dir) w =
        succeeded (OPrint "Building lumino examples")
        :: (OCheckCall install (root HERE),
            outcome_of (check_call_at run_process install (root HERE) (fs w)))
        :: l) ∧
  (returned (build_examples out_dir w) = true →
   ∃ yarn st1 st2 st3 stale,
     emitted (build_examples out_dir) w =
     succeeded <$> examples_script HERE false (which "npm" (fs w)) yarn
                     [st1; st2; st3] stale out_dir).

End Replaced.

(** ** A concrete checkout *)

(** A small checkout of the repository at [/srv/lumino], with the
    configuration module in [docs/source] and the Sphinx output directory
    [docs/build/html], used to run the routines on concrete inputs. *)
Module Checkout.

Definition dir (entries : list (string * node)) : node := Dir (list_to_map entries).

Definition HERE : Path := ["srv"; "lumino"; "docs"; "source"].
Definition out_dir : Path := ["srv"; "lumino"; "docs"; "build"; "html"].
Definition app : App := {| outdir := out_dir |}.

(** Every tool is found on the search path. *)
Definition which (cmd : string) (t : node) : option string :=
  Some ("/usr/bin/" +:+ cmd).

(** No tool is installed. *)
Definition which_nothing (cmd : string) (t : node) : option string := None.

Definition api_output : node :=
  dir [("algorithm", dir [("index.html", File "<algorithm>")]);
       ("index.html", File "<typedoc index>")].

Definition example_output (name : string) : node :=
  dir [("index.html", File ("<" +:+ name +:+ ">")); ("bundle.js", File "js")].

(** The build tool: [yarn docs] writes the API documentation into the
    documentation sources, [yarn build:examples] builds every example in
    its own directory; the other runs leave the tree as it is. *)
Definition run_process (argv : list string) (cwd : Path) (t : node) : exn + node :=
  match argv with
  | [_; "docs"] =>
      match put (Some t) ["srv"; "lumino"; "docs"; "source"; "api"] api_output with
      | Some t' => inr t'
      | None => inl (CalledProcessError 1)
      end
  | [_; "build:examples"] =>
      match put (Some t) ["srv"; "lumino"; "examples"]
              (dir [("example-accordionpanel", example_output "accordionpanel");
                    ("example-datagrid", example_output "datagrid");
                    ("example-dockpanel", example_output "dockpanel")]) with
      | Some t' => inr t'
      | None => inl (CalledProcessError 1)
      end
  | _ => inr t
  end.

(** A build tool that fails whenever it is run. *)
Definition run_failing (argv : list string) (cwd : Path) (t : node) : exn + node :=
  inl (CalledProcessError 2).

(** The text of [package.json]. *)
Definition quoted (s : string) : string :=
  let q := String (Ascii.Ascii false true false false false true false false) EmptyString in
  q +:+ s +:+ q.

Definition manifest_text : string :=
  "{" +:+ quoted "name" +:+ ": " +:+ quoted "lumino" +:+ ", "
      +:+ quoted "version" +:+ ": " +:+ quoted "2.0.0" +:+ "}".

Definition json_loads (text : string) : exn + pyval :=
  if decide (text = manifest_text) then
    inr (PyDict (list_to_map [("name", PyStr "lumino"); ("version", PyStr "2.0.0")]))
  else inl JSONDecodeError.

Definition repo (docs_source : list (string * node)) (build : list (string * node)) : node :=
  dir [("srv", dir [("lumino", dir [
    ("CHANGELOG.md", File "# Changelog");
    ("package.json", File manifest_text);
    ("docs", dir [("source", dir (("api_index.html", File "<fixed index>") :: docs_source));
                  ("build", dir build)])])])].

(** Nothing built yet, nothing staged yet. *)
Definition fresh : World :=
  {| fs := repo [] []; css_files := []; log := [] |}.

(** Both markers present; the output directory holds an earlier staging
    of the API documentation with a file the sources no longer have.
    Only the first example has been copied into the sources. *)
Definition built : World :=
  {| fs := repo
       [("api", api_output);
        ("examples", dir [("accordionpanel", example_output "accordionpanel")])]
       [("html", dir [("api", dir [("index.html", File "<old index>");
                                   ("removed.html", File "<old page>")])])];
     css_files := [];
     log := [] |}.

(** As [built], but the generated API tree has a directory named
    [index.html]. *)
Definition odd : World :=
  {| fs := repo
       [("api", dir [("algorithm", dir [("index.html", File "<algorithm>")]);
                     ("index.html", dir [("readme.txt", File "odd")])])]
       [];
     css_files := [];
     log := [] |}.

(** As [built], but the index page [api_index.html] is missing. *)
Definition pageless : World :=
  {| fs := del (fs built) (HERE ++ ["api_index.html"]); css_files := []; log := [] |}.

Definition api_docs (w : World) : Res unit := build_api_docs HERE which run_process out_dir w.
Definition examples (w : World) : Res unit := build_examples HERE which run_process out_dir w.

End Checkout.

(** ** More cases of the checkout *)

Module Cases.

Import Checkout.

(** Only [npm] is installed, and installing [yarn] does not put it on
    the search path. *)
Definition which_npm (cmd : string) (t : node) : option string :=
  if decide (cmd = "npm") then Some "/usr/bin/npm" else None.

(** The build of the examples produces the first example only. *)
Definition run_partial (argv : list string) (cwd : Path) (t : node) : exn + node :=
  match argv with
  | [_; "build:examples"] =>
      match put (Some t) ["srv"; "lumino"; "examples"]
              (dir [("example-accordionpanel", example_output "accordionpanel")]) with
      | Some t' => inr t'
      | None => inl (CalledProcessError 1)
      end
  | _ => inr t
  end.

(** A build tool that runs and produces nothing. *)
Definition run_idle (argv : list string) (cwd : Path) (t : node) : exn + node := inr t.

(** A manifest without a version, and one that is an array. *)
Definition json_unversioned (text : string) : exn + pyval :=
  inr (PyDict (list_to_map [("name", PyStr "lumino")])).

Definition json_array (text : string) : exn + pyval := inr (PyList [PyStr "lumino"]).

(** As [built], but [<out_dir>/api] is a regular file. *)
Definition blocked : World :=
  {| fs := repo
       [("api", api_output);
        ("examples", dir [("accordionpanel", example_output "accordionpanel")])]
       [("html", dir [("api", File "not a directory")])];
     css_files := [];
     log := [] |}.

(** Nothing built, and an earlier staging of the API documentation in
    the output directory. *)
Definition staged : World :=
  {| fs := repo [] [("html", dir [("api", dir [("index.html", File "<old index>")])])];
     css_files := [];
     log := [] |}.

End Cases.

(** * Proofs *)

(** Split a membership in an explicit list into its cases. *)
Ltac elem_cases H :=
  repeat first
    [ apply elem_of_nil in H; destruct H
    | apply elem_of_cons in H as [H|H]
    | apply elem_of_app in H as [H|H] ].

(** Find an element in an explicit list. *)
Ltac elem_here :=
  repeat first [ apply list_elem_of_here | apply list_elem_of_further ].

(** *** Facts about paths *)

Lemma norm_app (p q : Path) :
  norm (p ++ q) = rev (fold_left norm_step q (rev (norm p))).
Proof. unfold norm. by rewrite fold_left_app, rev_involutive. Qed.

Lemma fold_norm_step_plain (q : Path) (stack : list string) :
  pardir ∉ q → fold_left norm_step q stack = rev q ++ stack.
Proof.
  revert stack. induction q as [|c q IH]; intros stack Hq; [done|].
  apply not_elem_of_cons in Hq as [Hc Hq]. simpl.
  unfold norm_step at 2. rewrite decide_False by done.
  rewrite IH by done. by rewrite <- app_assoc.
Qed.

(** Joining plain names (no [..]) commutes with resolution. *)
Lemma norm_join_plain (p q : Path) :
  pardir ∉ q → norm (p ++ q) = norm p ++ q.
Proof.
  intros Hq. rewrite norm_app, fold_norm_step_plain by done.
  by rewrite rev_app_distr, !rev_involutive.
Qed.

(** A path that resolves leads to the location [norm] computes. *)
Lemma resolve_from_norm (t : node) (p : Path) (stack stack' : list string) :
  resolve_from t stack p = inr stack' → stack' = fold_left norm_step p stack.
Proof.
  revert stack. induction p as [|c p IH]; intros stack H; simpl in *.
  - by injection H as <-.
  - unfold norm_step at 2. case_decide.
    + destruct (get t (rev stack)) as [[d|m]|]; [done| |done]. by apply IH.
    + by apply IH.
Qed.

Lemma resolve_norm (t : node) (p q : Path) : resolve t p = inr q → q = norm p.
Proof.
  unfold resolve, norm. destruct (resolve_from t [] p) as [e|stack] eqn:E; [done|].
  intros [= <-]. by rewrite (resolve_from_norm _ _ _ _ E).
Qed.

Lemma node_at_get (t : node) (p : Path) (v : node) :
  node_at t p = Some v → get t (norm p) = Some v.
Proof.
  unfold node_at. destruct (resolve t p) as [e|q] eqn:E; [done|].
  by rewrite (resolve_norm _ _ _ E).
Qed.

Lemma apart_sym (p q : Path) : apart p q = apart q p.
Proof.
  revert q. induction p as [|a p IH]; intros [|b q]; simpl; try done.
  repeat case_decide; try done; congruence.
Qed.

Lemma apart_app_l (p q r : Path) : apart p q = true → apart (p ++ r) q = true.
Proof.
  revert q. induction p as [|a p IH]; intros [|b q]; simpl; try done.
  case_decide; [apply IH | done].
Qed.

Lemma apart_app_r (p q r : Path) : apart p q = true → apart p (q ++ r) = true.
Proof. rewrite !(apart_sym p). apply apart_app_l. Qed.

(** Two paths are nested one way or the other, or they are apart. *)
Lemma path_trichotomy (p q : Path) :
  (∃ r, q = p ++ r) ∨ (∃ r, p = q ++ r) ∨ apart p q = true.
Proof.
  revert q. induction p as [|a p IH]; intros q.
  - left. by exists q.
  - destruct q as [|b q].
    + right; left. by exists (a :: p).
    + simpl. case_decide as Hab.
      * subst b. destruct (IH q) as [[r ->]|[[r ->]|H]].
        -- left. by exists r.
        -- right; left. by exists r.
        -- by right; right.
      * by right; right.
Qed.

Lemma apart_app_same (p a b : Path) : apart (p ++ a) (p ++ b) = apart a b.
Proof. induction p as [|c p IH]; simpl; [done|]. by rewrite decide_True. Qed.

Lemma first_below_app (p : Path) (c : string) (r : Path) :
  first_below p (p ++ c :: r) = Some c.
Proof. induction p as [|a p IH]; simpl; [done|]. by rewrite decide_True. Qed.

Lemma basename_snoc (p : Path) (c : string) : basename (p ++ [c]) = c.
Proof. unfold basename. by rewrite last_snoc. Qed.

Lemma norm_snoc (p : Path) (c : string) : c ≠ pardir → norm (p ++ [c]) = norm p ++ [c].
Proof.
  intros Hc. apply norm_join_plain. intros H. elem_cases H. by subst c.
Qed.

(** *** Facts about the file tree *)

Lemma get_app (t : node) (p r : Path) :
  get t (p ++ r) = get t p ≫= λ t', get t' r.
Proof.
  revert t. induction p as [|c p IH]; intros t; simpl; [done|].
  destruct t as [|m]; [done|]. destruct (m !! c); [apply IH | done].
Qed.

Lemma get_None_app (t : node) (p r : Path) : get t p = None → get t (p ++ r) = None.
Proof. intros H. by rewrite get_app, H. Qed.

Lemma get_File_app (t : node) (p r : Path) (data : string) :
  get t p = Some (File data) → r ≠ [] → get t (p ++ r) = None.
Proof. intros H Hr. rewrite get_app, H. by destruct r. Qed.

(** Reading back what [put] placed. *)
Lemma get_put_under (o : option node) (p r : Path) (v t' : node) :
  put o p v = Some t' → get t' (p ++ r) = get v r.
Proof.
  revert o t'. induction p as [|c p IH]; intros o t' H; simpl in *.
  - by simplify_eq.
  - destruct o as [[|m]|]; [done| |].
    + destruct (put (m !! c) p v) as [t1|] eqn:E; [|done]. simplify_eq. simpl.
      rewrite lookup_insert_eq. by eapply IH.
    + destruct (put None p v) as [t1|] eqn:E; [|done]. simplify_eq. simpl.
      rewrite lookup_singleton_eq. by eapply IH.
Qed.

Lemma get_put_eq (o : option node) (p : Path) (v t' : node) :
  put o p v = Some t' → get t' p = Some v.
Proof. intros H. rewrite <- (app_nil_r p). by rewrite (get_put_under _ _ _ _ _ H). Qed.

(** [put] leaves everything apart from its target as it was. *)
Lemma get_put_apart (o : option node) (p q : Path) (v t' : node) :
  put o p v = Some t' → apart p q = true →
  get t' q = o ≫= λ t, get t q.
Proof.
  revert o q t'. induction p as [|c p IH]; intros o q t' H Hpq; [done|].
  destruct q as [|b q]; [done|]. simpl in H, Hpq.
  destruct o as [[|m]|]; [done| |].
  - destruct (put (m !! c) p v) as [t1|] eqn:E; [|done]. simplify_eq. simpl.
    case_decide as Hcb.
    + subst b. rewrite lookup_insert_eq. rewrite (IH _ _ _ E Hpq).
      by destruct (m !! c).
    + by rewrite lookup_insert_ne.
  - destruct (put None p v) as [t1|] eqn:E; [|done]. simplify_eq. simpl.
    case_decide as Hcb.
    + subst b. rewrite lookup_singleton_eq. by rewrite (IH _ _ _ E Hpq).
    + by rewrite lookup_singleton_ne.
Qed.

(** After [del] nothing is left at or below the target. *)
Lemma get_del_under (t : node) (p r : Path) :
  p ≠ [] → get (del t p) (p ++ r) = None.
Proof.
  revert t. induction p as [|c p IH]; intros t Hp; [done|].
  destruct t as [d|m]; [done|]. simpl.
  destruct p as [|c' p].
  - simpl. by rewrite lookup_delete_eq.
  - destruct (m !! c) as [t1|] eqn:E.
    + simpl. rewrite lookup_insert_eq. by apply IH.
    + simpl. by rewrite E.
Qed.

(** [del] leaves everything apart from its target as it was. *)
Lemma get_del_apart (t : node) (p q : Path) :
  apart p q = true → get (del t p) q = get t q.
Proof.
  revert t q. induction p as [|c p IH]; intros t q Hpq; [done|].
  destruct q as [|b q]; [done|]. simpl in Hpq.
  destruct t as [d|m]; [done|]. simpl.
  destruct p as [|c' p].
  - case_decide; [done|]. simpl. by rewrite lookup_delete_ne.
  - destruct (m !! c) as [t1|] eqn:E; [|done]. simpl.
    case_decide as Hcb.
    + subst b. rewrite lookup_insert_eq, E. by apply IH.
    + by rewrite lookup_insert_ne.
Qed.

Lemma get_Some_app_dir (t : node) (p r : Path) :
  is_Some (get t (p ++ r)) → r ≠ [] → is_dir (get t p) = true.
Proof.
  rewrite get_app. intros [v Hv] Hr.
  destruct (get t p) as [[d|m]|]; [|done..]. by destruct r.
Qed.

(** ** Runs and their logs *)

Lemma propagates_ret {A : Type} (a : A) : propagates (mret a : M A).
Proof. intros w. exists []. split; [by rewrite app_nil_r | constructor]. Qed.

Lemma propagates_query {A : Type} (f : node → A) : propagates (query f).
Proof. intros w. exists []. split; [by rewrite app_nil_r | constructor]. Qed.

Lemma propagates_call {A : Type} (o : op) (act : node → exn + A * node) :
  propagates (call o act).
Proof.
  intros w. unfold call. destruct (act (fs w)) as [e|[a t]]; simpl.
  - exists [], o. split; [done | constructor].
  - exists [(o, Done)]. split; [done|]. by repeat constructor.
Qed.

Lemma propagates_add_css_file (f : string) : propagates (add_css_file f).
Proof.
  intros w. simpl. exists [(OAddCssFile f, Done)]. split; [done|].
  by repeat constructor.
Qed.

Lemma propagates_bind {A B : Type} (m : M A) (k : A → M B) :
  propagates m → (∀ a, propagates (k a)) → propagates (m ≫= k).
Proof.
  intros Hm Hk w. unfold mbind, M_bind. specialize (Hm w).
  destruct (m w) as [a w1|e w1].
  - destruct Hm as (l1 & E1 & D1). specialize (Hk a w1).
    destruct (k a w1) as [b w2|e w2].
    + destruct Hk as (l2 & E2 & D2). exists (l1 ++ l2).
      rewrite E2, E1, app_assoc. split; [done|]. by apply Forall_app_2.
    + destruct Hk as (l2 & o & E2 & D2). exists (l1 ++ l2), o.
      rewrite E2, E1, !app_assoc. split; [done|]. by apply Forall_app_2.
  - done.
Qed.

Lemma propagates_if {A : Type} (b : bool) (m1 m2 : M A) :
  propagates m1 → propagates m2 → propagates (if b then m1 else m2).
Proof. by destruct b. Qed.

Lemma propagates_for_in {A : Type} (l : list A) (body : A → M unit) :
  (∀ x, propagates (body x)) → propagates (for_in l body).
Proof.
  intros Hb. induction l as [|x l IH]; simpl.
  - apply propagates_ret.
  - apply propagates_bind; [apply Hb | intros _; apply IH].
Qed.

Create HintDb propagate.
#[global] Hint Resolve propagates_ret propagates_query propagates_call
  propagates_add_css_file propagates_for_in : propagate.
#[global] Hint Extern 2 (propagates (_ ≫= _)) =>
  apply propagates_bind; [|intros ?] : propagate.
#[global] Hint Extern 2 (propagates (if _ then _ else _)) =>
  apply propagates_if : propagate.

(** The log of a run that propagates failures extends the log it
    started with by the calls it emitted. *)
Lemma log_final_emitted {A : Type} (m : M A) (w : World) :
  propagates m → log (final (m w)) = log w ++ emitted m w.
Proof.
  intros Hm. unfold emitted. specialize (Hm w).
  destruct (m w) as [a w'|e w']; simpl.
  - destruct Hm as (l & -> & _). by rewrite drop_app_length.
  - destruct Hm as (l & o & -> & _). by rewrite drop_app_length.
Qed.

Lemma emitted_eq {A : Type} (m : M A) (w : World) (l : Log) :
  log (final (m w)) = log w ++ l → emitted m w = l.
Proof. intros H. unfold emitted. by rewrite H, drop_app_length. Qed.

(** Inversion of a run that returned. *)
Lemma bind_Ok_inv {A B : Type} (m : M A) (k : A → M B) (w w' : World) (b : B) :
  (m ≫= k) w = Ok b w' → ∃ a w1, m w = Ok a w1 ∧ k a w1 = Ok b w'.
Proof.
  unfold mbind, M_bind. destruct (m w) as [a w1|e w1]; [|done]. by exists a, w1.
Qed.

Lemma call_Ok_inv {A : Type} (o : op) (act : node → exn + A * node)
    (w w' : World) (a : A) :
  call o act w = Ok a w' →
  ∃ t, act (fs w) = inr (a, t) ∧ w' = record o Done (with_fs t w).
Proof.
  unfold call. destruct (act (fs w)) as [e|[a' t]]; [done|].
  intros [= -> <-]. by exists t.
Qed.

Lemma query_Ok_inv {A : Type} (f : node → A) (w w' : World) (a : A) :
  query f w = Ok a w' → a = f (fs w) ∧ w' = w.
Proof. by intros [= <- <-]. Qed.

Section ConfPropagates.

Variable HERE : Path.
Variable which : string → node → option string.
Variable run_process : list string → Path → node → exn + node.
Variable json_loads : string → exn + pyval.

Lemma propagates_load_manifest : propagates (load_manifest HERE json_loads).
Proof. unfold load_manifest, read_text, attempt. auto 20 with propagate. Qed.

Lemma propagates_build_api_docs (out_dir : Path) :
  propagates (build_api_docs HERE which run_process out_dir).
Proof.
  unfold build_api_docs, osp_exists, print, shutil_which, check_call,
    shutil_rmtree, shutil_copytree, shutil_copy.
  auto 30 with propagate.
Qed.

Lemma propagates_copy_example (example : string) :
  propagates (copy_example HERE example).
Proof.
  unfold copy_example, osp_exists, print, shutil_rmtree, shutil_copytree.
  auto 20 with propagate.
Qed.

Lemma propagates_build_examples (out_dir : Path) :
  propagates (build_examples HERE which run_process out_dir).
Proof.
  pose proof propagates_copy_example.
  unfold build_examples, osp_exists, print, shutil_which, check_call,
    shutil_rmtree, shutil_copytree.
  auto 30 with propagate.
Qed.

Lemma propagates_setup (app : App) :
  propagates (setup HERE which run_process app).
Proof.
  pose proof propagates_build_api_docs. pose proof propagates_build_examples.
  unfold setup, shutil_copy. auto 20 with propagate.
Qed.

End ConfPropagates.

(** *** Running a sequence step by step *)

Lemma run_bind {A B : Type} (m : M A) (k : A → M B) (w : World) :
  (m ≫= k) w = match m w with Ok a w1 => k a w1 | Raise e w1 => Raise e w1 end.
Proof. reflexivity. Qed.

Lemma run_bind_assoc {A B C : Type} (m : M A) (f : A → M B) (g : B → M C) (w : World) :
  ((m ≫= f) ≫= g) w = (m ≫= λ a, f a ≫= g) w.
Proof. rewrite !run_bind. by destruct (m w). Qed.

Lemma emitted_ret {A : Type} (a : A) (w : World) : emitted (mret a : M A) w = [].
Proof. unfold emitted. simpl. by rewrite drop_all. Qed.

Lemma emitted_query {A : Type} (f : node → A) (w : World) : emitted (query f) w = [].
Proof. unfold emitted. simpl. by rewrite drop_all. Qed.

Lemma emitted_call {A : Type} (o : op) (act : node → exn + A * node) (w : World) :
  emitted (call o act) w = [(o, outcome_of (act (fs w)))].
Proof.
  apply emitted_eq. unfold call. by destruct (act (fs w)) as [e|[a t]].
Qed.

Lemma emitted_bind {A B : Type} (m : M A) (k : A → M B) (w : World) :
  propagates m → (∀ a, propagates (k a)) →
  emitted (m ≫= k) w =
  emitted m w ++ match m w with
                 | Ok a w1 => emitted (k a) w1
                 | Raise _ _ => []
                 end.
Proof.
  intros Hm Hk. apply emitted_eq. rewrite run_bind.
  pose proof (log_final_emitted m w Hm) as E.
  destruct (m w) as [a w1|e w1]; simpl in *.
  - by rewrite (log_final_emitted (k a) w1 (Hk a)), E, app_assoc.
  - by rewrite app_nil_r.
Qed.

(** A run that returns made only calls that succeeded; a run that raises
    ends on the call that failed. *)
Lemma emitted_returned {A : Type} (m : M A) (w : World) :
  propagates m → returned (m w) = true → all_done (emitted m w).
Proof.
  intros Hm Hr. unfold emitted. specialize (Hm w).
  destruct (m w) as [a w'|e w']; [|done]. simpl.
  destruct Hm as (l & -> & Hl). by rewrite drop_app_length.
Qed.

Lemma emitted_raised {A : Type} (m : M A) (w w' : World) (e : exn) :
  propagates m → m w = Raise e w' →
  ∃ l o, emitted m w = l ++ [(o, Failed e)] ∧ all_done l.
Proof.
  intros Hm Hr. unfold emitted. specialize (Hm w). rewrite Hr in *. simpl.
  destruct Hm as (l & o & -> & Hl). exists l, o. by rewrite drop_app_length.
Qed.

#[global] Hint Resolve propagates_load_manifest propagates_build_api_docs
  propagates_copy_example propagates_build_examples propagates_setup : propagate.

Lemma propagates_osp_exists (p : Path) : propagates (osp_exists p).
Proof. apply propagates_query. Qed.

Lemma propagates_print (msg : string) : propagates (print msg).
Proof. apply propagates_call. Qed.

Lemma propagates_shutil_rmtree (p : Path) : propagates (shutil_rmtree p).
Proof. apply propagates_call. Qed.

Lemma propagates_shutil_copytree (src dst : Path) : propagates (shutil_copytree src dst).
Proof. apply propagates_call. Qed.

Lemma propagates_shutil_copy (src dst : Path) : propagates (shutil_copy src dst).
Proof. apply propagates_call. Qed.

Lemma propagates_shutil_which (which : string → node → option string) (cmd : string) :
  propagates (shutil_which which cmd).
Proof. apply propagates_query. Qed.

Lemma propagates_check_call (run_process : list string → Path → node → exn + node)
    (args : list (option string)) (cwd : Path) :
  propagates (check_call run_process args cwd).
Proof. apply propagates_call. Qed.

#[global] Hint Resolve propagates_osp_exists propagates_print
  propagates_shutil_rmtree propagates_shutil_copytree propagates_shutil_copy
  propagates_shutil_which propagates_check_call : propagate.

(** *** Following a script *)

Lemma follows_ret {A : Type} (a : A) (w : World) : follows (mret a : M A) w [].
Proof. unfold follows. by rewrite emitted_ret. Qed.

Lemma follows_call {A : Type} (o : op) (act : node → exn + A * node) (w : World) :
  follows (call o act) w [o].
Proof. unfold follows. by rewrite emitted_call. Qed.

Lemma follows_bind {A B : Type} (m : M A) (k : A → M B) (w : World) (s1 s2 : list op) :
  propagates m → (∀ a, propagates (k a)) →
  follows m w s1 →
  (∀ a w1, m w = Ok a w1 → follows (k a) w1 s2) →
  follows (m ≫= k) w (s1 ++ s2).
Proof.
  intros Pm Pk [H1 H1'] Hk. unfold follows.
  rewrite emitted_bind by done. rewrite run_bind.
  destruct (m w) as [a w1|e w1] eqn:E.
  - destruct (Hk a w1 eq_refl) as [H2 H2']. unfold ops in *.
    rewrite fmap_app, (H1' eq_refl). split.
    + by apply prefix_app.
    + intros Hr. by rewrite (H2' Hr).
  - rewrite app_nil_r. split; [|done]. by apply prefix_app_r.
Qed.

Lemma follows_print (msg : string) (w : World) : follows (print msg) w [OPrint msg].
Proof. apply follows_call. Qed.

Lemma follows_shutil_rmtree (p : Path) (w : World) :
  follows (shutil_rmtree p) w [ORmtree p].
Proof. apply follows_call. Qed.

Lemma follows_shutil_copytree (src dst : Path) (w : World) :
  follows (shutil_copytree src dst) w [OCopytree src dst].
Proof. apply follows_call. Qed.

Lemma follows_shutil_copy (src dst : Path) (w : World) :
  follows (shutil_copy src dst) w [OCopy src dst].
Proof. apply follows_call. Qed.

Lemma follows_check_call (run_process : list string → Path → node → exn + node)
    (args : list (option string)) (cwd : Path) (w : World) :
  follows (check_call run_process args cwd) w [OCheckCall args cwd].
Proof. apply follows_call. Qed.

Lemma follows_add_css_file (f : string) (w : World) :
  follows (add_css_file f) w [OAddCssFile f].
Proof.
  unfold follows.
  assert (emitted (add_css_file f) w = [(OAddCssFile f, Done)]) as ->; [|done].
  by apply emitted_eq.
Qed.

Lemma follows_when (b : bool) (m : M unit) (o : op) (w : World) :
  follows m w [o] → follows (if b then m else mret tt) w (if b then [o] else []).
Proof. destruct b; [done|]. intros _. apply follows_ret. Qed.

Create HintDb follow.
#[global] Hint Resolve follows_print follows_shutil_rmtree follows_shutil_copytree
  follows_shutil_copy follows_check_call follows_add_css_file follows_when
  follows_ret : follow.

Lemma obeys_exact {A : Type} (m : M A) (w : World) (s : list op) (K : list op → Prop) :
  follows m w s → K s → obeys m w K.
Proof. intros. by exists s. Qed.

Lemma obeys_seq {B : Type} (m : M unit) (k : unit → M B) (w : World) (s1 : list op)
    (K : list op → Prop) :
  propagates m → propagates (k tt) →
  follows m w s1 →
  (∀ w1, obeys (k tt) w1 (λ s2, K (s1 ++ s2))) →
  obeys (m ≫= k) w K.
Proof.
  intros Pm Pk Hm Hk. destruct (m w) as [[] w1|e w1] eqn:E.
  - destruct (Hk w1) as (s2 & HK & H2). exists (s1 ++ s2). split; [done|].
    apply follows_bind; [done | by intros [] | done |]. intros [] w1' Hw.
    rewrite E in Hw. by injection Hw as <-.
  - destruct (Hk w) as (s2 & HK & _). exists (s1 ++ s2). split; [done|].
    apply follows_bind; [done | by intros [] | done |]. intros [] w1' Hw.
    by rewrite E in Hw.
Qed.

(** [print] always returns and leaves the file tree alone. *)
Lemma obeys_print_seq {B : Type} (msg : string) (k : unit → M B) (w : World)
    (K : list op → Prop) :
  propagates (k tt) →
  (∀ w1, fs w1 = fs w → obeys (k tt) w1 (λ s2, K ([OPrint msg] ++ s2))) →
  obeys (print msg ≫= k) w K.
Proof.
  intros Pk Hk.
  destruct (Hk (record (OPrint msg) Done (with_fs (fs w) w)) eq_refl) as (s2 & HK & H2).
  exists ([OPrint msg] ++ s2). split; [done|].
  apply follows_bind; [auto with propagate | by intros [] | apply follows_print |].
  by intros [] w1 [= <-].
Qed.

Lemma obeys_exists_bind {B : Type} (p : Path) (k : bool → M B) (w : World)
    (K : list op → Prop) :
  obeys (k (exists_at (fs w) p)) w K → obeys (osp_exists p ≫= k) w K.
Proof. done. Qed.

Lemma obeys_which_bind {B : Type} (which : string → node → option string)
    (cmd : string) (k : option string → M B) (w : World) (K : list op → Prop) :
  obeys (k (which cmd (fs w))) w K → obeys (shutil_which which cmd ≫= k) w K.
Proof. done. Qed.

Lemma obeys_assoc {A B C : Type} (m : M A) (f : A → M B) (g : B → M C) (w : World)
    (K : list op → Prop) :
  obeys (m ≫= λ a, f a ≫= g) w K → obeys ((m ≫= f) ≫= g) w K.
Proof. unfold obeys, follows, emitted. by rewrite run_bind_assoc. Qed.

(** One step of a run: re-associate, answer a query, or make a call. *)
Ltac obey_step :=
  lazymatch goal with
  | |- obeys ((?m ≫= ?f) ≫= ?g) ?w ?K =>
      refine (obeys_assoc m f g w K _); cbv beta
  | |- obeys (osp_exists ?p ≫= ?k) ?w ?K =>
      refine (obeys_exists_bind p k w K _); cbv beta
  | |- obeys (shutil_which ?wh ?c ≫= ?k) ?w ?K =>
      refine (obeys_which_bind wh c k w K _); cbv beta
  | |- obeys (print ?msg ≫= ?k) ?w ?K =>
      refine (obeys_print_seq msg k w K _ _);
        [auto 30 with propagate | intros ? ?; cbv beta]
  | |- obeys (?m ≫= ?k) ?w ?K =>
      refine (obeys_seq m k w _ K _ _ _ _);
        [auto 30 with propagate | auto 30 with propagate
        | solve [eauto with follow] | intros ?; cbv beta]
  | |- obeys ?m ?w ?K =>
      refine (obeys_exact m w _ K _ _); [solve [eauto with follow]|]
  end.

(** A run that returned made exactly the calls of its script, and all of
    them succeeded. *)
Lemma follows_returned {A : Type} (m : M A) (w : World) (s : list op) :
  propagates m → follows m w s → returned (m w) = true →
  emitted m w = succeeded <$> s.
Proof.
  intros Pm [_ Hs] Hr. specialize (Hs Hr).
  pose proof (emitted_returned m w Pm Hr) as Hd. subst s. unfold ops.
  induction Hd as [|[o r] l Hx Hd IH]; [done|]. simpl in *. subst r. by f_equal.
Qed.

Lemma obeys_seq_obeys {B : Type} (m : M unit) (k : unit → M B) (w : World)
    (K1 K : list op → Prop) :
  propagates m → propagates (k tt) →
  obeys m w K1 →
  (∀ w1, obeys (k tt) w1 (λ s2, ∀ s1, K1 s1 → K (s1 ++ s2))) →
  obeys (m ≫= k) w K.
Proof.
  intros Pm Pk (s1 & HK1 & Hs1) Hk.
  apply (obeys_seq m k w s1 K Pm Pk Hs1).
  intros w1. destruct (Hk w1) as (s2 & HK & Hs2). exists s2. auto.
Qed.

(** *** Reading a log against a script *)

Lemma ops_elem_of (l : Log) (o : op) (r : outcome) : (o, r) ∈ l → o ∈ ops l.
Proof. intros H. unfold ops. apply list_elem_of_fmap. by exists (o, r). Qed.

Lemma follows_elem_of {A : Type} (m : M A) (w : World) (s : list op) (o : op) (r : outcome) :
  follows m w s → (o, r) ∈ emitted m w → o ∈ s.
Proof.
  intros [[k ->] _] H%ops_elem_of. apply elem_of_app. by left.
Qed.

(** Every call before the last one of a run succeeded. *)
Lemma emitted_before_done {A : Type} (m : M A) (w : World) (l1 l2 : Log)
    (x : op * outcome) :
  propagates m → emitted m w = l1 ++ x :: l2 → all_done l1.
Proof.
  intros Pm E. destruct (m w) as [a w'|e w'] eqn:Hr.
  - assert (all_done (emitted m w)) as Hd
      by (apply emitted_returned; [done | by rewrite Hr]).
    rewrite E in Hd. by apply Forall_app in Hd as [? _].
  - destruct (emitted_raised m w w' e Pm Hr) as (l & o & El & Hl).
    rewrite El in E. clear El.
    destruct l2 as [|y l2 _] using rev_ind.
    + apply app_inj_tail in E as [-> _]. done.
    + rewrite app_comm_cons, app_assoc in E.
      apply app_inj_tail in E as [-> _]. by apply Forall_app in Hl as [? _].
Qed.

Lemma all_done_fmap (l : Log) : all_done l → l = succeeded <$> ops l.
Proof.
  unfold ops. induction 1 as [|[o r] l Hx Hd IH]; [done|].
  simpl in *. subst r. by f_equal.
Qed.

Lemma prefix_split_at {A : Type} (P : A → bool) (l1 l2 pre post : list A) (x : A) :
  (l1 ++ x :: l2) `prefix_of` (pre ++ post) →
  P x = true → Forall (λ y, P y = false) pre →
  ∃ k, l1 = pre ++ k.
Proof.
  intros Hp Hx Hpre. revert l1 Hp.
  induction Hpre as [|p pre Hpf Hpre IH]; intros l1 Hp; [by exists l1|].
  destruct l1 as [|a l1]; simpl in Hp.
  - apply prefix_cons_inv_1 in Hp. congruence.
  - pose proof (prefix_cons_inv_1 _ _ _ _ Hp) as ->.
    apply prefix_cons_inv_2 in Hp. destruct (IH l1 Hp) as [k ->]. by exists k.
Qed.

Section ScriptsOfRoutines.

Variable HERE : Path.
Variable which : string → node → option string.
Variable run_process : list string → Path → node → exn + node.

Local Abbreviation is_api_script := (is_api_script HERE).
Local Abbreviation is_examples_script := (is_examples_script HERE).

Ltac script_eq :=
  unfold api_script, examples_script, yarn_script, restage_script;
  unfold example_source, example_dest;
  cbn [app map concat zip_with EXAMPLES];
  repeat (first [rewrite <- app_assoc | rewrite <- app_comm_cons | rewrite app_nil_r];
          cbn [app]);
  reflexivity.

Lemma build_api_docs_script (out_dir : Path) (w : World) :
  obeys (build_api_docs HERE which run_process out_dir) w (is_api_script w out_dir).
Proof.
  unfold is_api_script.
  destruct (exists_at (fs w) (api_index HERE)) eqn:Hhave;
    unfold build_api_docs; obey_step; rewrite Hhave; repeat obey_step.
  - exists None, None, (exists_at (fs w) (osp_join out_dir ["api"])).
    split; [|done].
    repeat match goal with H : fs _ = fs _ |- _ => rewrite H; clear H end.
    script_eq.
  - eexists _, _, _. split; [script_eq | done].
Qed.

Lemma build_examples_script (out_dir : Path) (w : World) :
  obeys (build_examples HERE which run_process out_dir) w (is_examples_script w out_dir).
Proof.
  unfold is_examples_script.
  destruct (exists_at (fs w) (example_index HERE)) eqn:Hhave;
    unfold build_examples; obey_step; rewrite Hhave;
    cbn [for_in EXAMPLES]; unfold copy_example; repeat obey_step.
  - exists None, None, false, false, false,
      (exists_at (fs w) (osp_join out_dir ["examples"])).
    split; [|done].
    repeat match goal with H : fs _ = fs _ |- _ => rewrite H; clear H end.
    script_eq.
  - eexists _, _, _, _, _, _. split; [script_eq | done].
Qed.

End ScriptsOfRoutines.

(** *** What the copies leave in the file tree *)

Lemma read_text_at_node_at (p : Path) (t : node) (data : string) :
  node_at t p = Some (File data) → read_text_at p t = inr (data, t).
Proof.
  unfold node_at, read_text_at. destruct (resolve t p) as [e|q]; [done|].
  by intros ->.
Qed.

Lemma print_Ok (msg : string) (w w1 : World) (a : unit) :
  print msg w = Ok a w1 → fs w1 = fs w.
Proof. by intros [= _ <-]. Qed.

Lemma rmtree_at_inv (p : Path) (t t' : node) :
  rmtree_at p t = inr (tt, t') → t' = del t (norm p).
Proof.
  unfold rmtree_at. destruct (resolve t p) as [e|q] eqn:E; [done|].
  apply resolve_norm in E as ->.
  destruct (get t (norm p)) as [[d|m]|]; [done| |done].
  case_decide; [done|]. by intros [= <-].
Qed.

Lemma copytree_at_inv (src dst : Path) (t t1 : node) :
  copytree_at src dst t = inr (tt, t1) →
  ∃ m, get t (norm src) = Some (Dir m) ∧
       get t (norm dst) = None ∧
       put (Some t) (norm dst) (Dir m) = Some t1 ∧
       (first_below (norm src) (norm dst) ≫= λ c, m !! c) = None.
Proof.
  unfold copytree_at. intros H.
  destruct (resolve t src) as [e|s] eqn:Es; [done|].
  apply resolve_norm in Es as ->.
  destruct (get t (norm src)) as [[d|m]|] eqn:Hs; [done| |done].
  destruct (resolve t dst) as [e|d] eqn:Ed; [done|].
  apply resolve_norm in Ed as ->.
  destruct (get t (norm dst)) eqn:Hd; [done|].
  destruct (put (Some t) (norm dst) (Dir m)) as [t'|] eqn:Hp; [|done].
  destruct (first_below (norm src) (norm dst) ≫= λ c, m !! c) eqn:E; [done|].
  injection H as <-. by exists m.
Qed.

(** After [copytree], the destination holds what the source held. *)
Lemma copytree_get_dst (src dst : Path) (t t1 : node) (r : Path) :
  copytree_at src dst t = inr (tt, t1) →
  get t1 (norm dst ++ r) = get t (norm src ++ r).
Proof.
  intros (m & Hs & _ & Hp & _)%copytree_at_inv.
  by rewrite (get_put_under _ _ _ _ _ Hp), (get_app t), Hs.
Qed.

(** A [copytree] that succeeded wrote apart from every entry of its source. *)
Lemma copytree_source_apart (src dst : Path) (t t1 : node) (r : Path) :
  copytree_at src dst t = inr (tt, t1) →
  r ≠ [] → is_Some (get t (norm src ++ r)) →
  apart (norm dst) (norm src ++ r) = true.
Proof.
  intros (m & Hs & Hd & Hp & Hb)%copytree_at_inv Hr Hsome.
  destruct (path_trichotomy (norm dst) (norm src)) as [[r0 E]|[[r0 E]|E]].
  - rewrite E, (get_None_app _ _ _ Hd) in Hs. done.
  - destruct r0 as [|c r0].
    { rewrite app_nil_r in E. by rewrite E, Hs in Hd. }
    rewrite E, first_below_app in Hb. simpl in Hb.
    rewrite E, apart_app_same.
    destruct r as [|c' r]; [done|]. simpl.
    case_decide as Hc; [|done]. subst c'.
    rewrite get_app, Hs in Hsome. simpl in Hsome. rewrite Hb in Hsome.
    by destruct Hsome.
  - by apply apart_app_r.
Qed.

Lemma copytree_get_src (src dst : Path) (t t1 : node) (r : Path) :
  copytree_at src dst t = inr (tt, t1) →
  r ≠ [] → is_Some (get t (norm src ++ r)) →
  get t1 (norm src ++ r) = get t (norm src ++ r).
Proof.
  intros H Hr Hsome.
  pose proof (copytree_source_apart _ _ _ _ _ H Hr Hsome) as Ha.
  destruct (copytree_at_inv _ _ _ _ H) as (m & _ & _ & Hp & _).
  by rewrite (get_put_apart _ _ _ _ _ Hp Ha).
Qed.

Lemma copy_at_inv (src dst : Path) (t t2 : node) :
  copy_at src dst t = inr (tt, t2) →
  ∃ data,
    get t (norm src) = Some (File data) ∧
    norm src ≠ norm (copy_target src dst t) ∧
    is_dir (get t (norm (copy_target src dst t))) = false ∧
    is_dir (get t (removelast (norm (copy_target src dst t)))) = true ∧
    put (Some t) (norm (copy_target src dst t)) (File data) = Some t2.
Proof.
  unfold copy_at. cbv zeta. unfold same_file. intros H.
  destruct (resolve t src) as [e|s] eqn:Es.
  { by destruct (resolve t (copy_target src dst t)). }
  pose proof (resolve_norm _ _ _ Es) as ->.
  destruct (resolve t (copy_target src dst t)) as [e|d] eqn:Ed.
  { by destruct (get t (norm src)) as [[?|?]|]. }
  pose proof (resolve_norm _ _ _ Ed) as ->.
  destruct (get t (norm src)) as [[data|m]|] eqn:Hs.
  - destruct (bool_decide (norm src = norm (copy_target src dst t))) eqn:Hsame;
      [done|]. simpl in H.
    destruct (is_dir (get t (norm (copy_target src dst t)))) eqn:Hd; [done|].
    destruct (is_dir (get t (removelast (norm (copy_target src dst t))))) eqn:Hp;
      [|done].
    destruct (put (Some t) (norm (copy_target src dst t)) (File data)) eqn:Hput;
      [|done].
    simplify_eq. exists data. repeat split; try done.
    by apply bool_decide_eq_false in Hsame.
  - by destruct (bool_decide _).
  - by destruct (bool_decide _).
Qed.

(** [copy] leaves the file it read in place. *)
Lemma copy_keeps_source (src dst : Path) (t t2 : node) (data : string) :
  copy_at src dst t = inr (tt, t2) →
  get t (norm src) = Some (File data) →
  get t2 (norm src) = Some (File data).
Proof.
  intros (data' & Hs & Hne & Hd & Hp & Hput)%copy_at_inv Hsrc.
  set (x := norm (copy_target src dst t)) in *.
  destruct (path_trichotomy x (norm src)) as [[r E]|[[r E]|E]].
  - destruct r as [|c r]; [by rewrite app_nil_r in E|].
    assert (is_dir (get t x) = true); [|congruence].
    apply (get_Some_app_dir t x (c :: r)); [|done]. by rewrite <- E, Hs.
  - destruct r as [|c r]; [by rewrite app_nil_r in E|].
    rewrite E, removelast_app in Hp by done.
    destruct (removelast (c :: r)) as [|c' r'] eqn:Er.
    + by rewrite app_nil_r, Hs in Hp.
    + by rewrite (get_File_app _ _ _ _ Hs) in Hp.
  - rewrite (get_put_apart _ _ _ _ _ Hput E). simpl. congruence.
Qed.

(** *** Staging a tree and laying a file over it *)

Lemma exists_at_is_Some (t : node) (p : Path) :
  exists_at t p = true → is_Some (get t (norm p)).
Proof.
  unfold exists_at. destruct (node_at t p) as [v|] eqn:E; [|done].
  intros _. exists v. by apply node_at_get.
Qed.

(** Where [copy] puts its file when the target is [dst/name]. *)
Lemma copy_target_cases (a dst : Path) (name : string) (t : node) :
  name ≠ pardir → basename a ≠ pardir →
  norm (copy_target a (dst ++ [name]) t) = norm dst ++ [name] ∨
  (is_dir (get t (norm dst ++ [name])) = true ∧
   norm (copy_target a (dst ++ [name]) t) = norm dst ++ [name; basename a]).
Proof.
  intros Hn Hb. unfold copy_target, osp_join.
  destruct (is_dir (node_at t (dst ++ [name]))) eqn:E; [right|left].
  - split.
    + destruct (node_at t (dst ++ [name])) as [v|] eqn:Ev; [|done].
      apply node_at_get in Ev. rewrite norm_snoc in Ev by done. by rewrite Ev.
    + rewrite norm_snoc by done. by rewrite norm_snoc, <- app_assoc by done.
  - by apply norm_snoc.
Qed.

Section Overlay.

Variables (src dst a : Path) (name : string) (t0 t1 t2 : node).
Hypothesis Hname : name ≠ pardir.
Hypothesis Hbase : basename a ≠ pardir.
Hypothesis Htree : copytree_at src dst t0 = inr (tt, t1).
Hypothesis Hcopy : copy_at a (dst ++ [name]) t1 = inr (tt, t2).

(** The file is laid at or below [dst/name], so everything apart from
    [dst] is as [copytree] left it. *)
Lemma overlay_apart (q : Path) :
  apart (norm dst) q = true → get t2 q = get t1 q.
Proof.
  intros Hq.
  destruct (copy_at_inv _ _ _ _ Hcopy) as (data & _ & _ & _ & _ & Hput).
  destruct (copy_target_cases a dst name t1 Hname Hbase) as [E|[_ E]];
    rewrite E in Hput;
    by rewrite (get_put_apart _ _ _ _ _ Hput (apart_app_l _ _ _ Hq)).
Qed.

(** The entries of the source are still there after both copies. *)
Lemma overlay_keeps_tree (r : Path) :
  r ≠ [] → is_Some (get t0 (norm src ++ r)) →
  get t2 (norm src ++ r) = get t0 (norm src ++ r).
Proof.
  intros Hr Hsome.
  rewrite overlay_apart by by eapply copytree_source_apart.
  by eapply copytree_get_src.
Qed.

(** Whatever is found below the destination afterwards is in the source
    tree as well, or is the file laid over it. *)
Lemma overlay_no_stale (r : Path) :
  r ≠ [] → is_Some (get t2 (norm dst ++ r)) →
  is_Some (get t2 (norm src ++ r)) ∨ r = [name] ∨ r = [name; basename a].
Proof.
  intros Hr Hsome.
  destruct (copy_at_inv _ _ _ _ Hcopy) as (data & _ & _ & _ & _ & Hput).
  assert (∃ xr, (xr = [name] ∨
                 xr = [name; basename a] ∧ is_dir (get t1 (norm dst ++ [name])) = true) ∧
                put (Some t1) (norm dst ++ xr) (File data) = Some t2)
    as (xr & Hxr & Hput').
  { destruct (copy_target_cases a dst name t1 Hname Hbase) as [E|[Hd E]];
      rewrite E in Hput; eexists; (split; [|exact Hput]); auto. }
  clear Hput.
  destruct (path_trichotomy xr r) as [[r' ->]|[[r' E]|E]].
  - destruct r' as [|c r'].
    + rewrite app_nil_r. destruct Hxr as [->|[-> _]]; auto.
    + rewrite app_assoc, (get_put_under _ _ _ _ _ Hput') in Hsome.
      by destruct Hsome.
  - destruct Hxr as [->|[-> Hd]].
    + destruct r as [|c [|c' r]]; [done| |done].
      injection E as <- _. auto.
    + destruct r as [|c [|c' [|c'' r]]]; [done| | |done].
      * injection E as <- _. left.
        assert (is_Some (get t0 (norm src ++ [name]))) as Hs.
        { rewrite <- (copytree_get_dst _ _ _ _ _ Htree).
          by destruct (get t1 (norm dst ++ [name])). }
        by rewrite overlay_keeps_tree.
      * injection E as <- <- _. auto.
  - left.
    rewrite (get_put_apart _ _ _ _ _ Hput') in Hsome by by rewrite apart_app_same.
    simpl in Hsome. rewrite (copytree_get_dst _ _ _ _ _ Htree) in Hsome.
    by rewrite overlay_keeps_tree.
Qed.

(** The file that was read is still in place, and it is at [dst/name]
    unless the source tree has a directory of that name. *)
Lemma overlay_result :
  ∃ data,
    get t2 (norm a) = Some (File data) ∧
    (is_dir (get t2 (norm src ++ [name])) = false →
     get t2 (norm dst ++ [name]) = Some (File data)) ∧
    (is_dir (get t2 (norm dst ++ [name])) = true →
     get t2 (norm dst ++ [name; basename a]) = Some (File data)).
Proof.
  destruct (copy_at_inv _ _ _ _ Hcopy) as (data & Ha & _ & _ & _ & Hput).
  exists data. split; [by eapply copy_keeps_source|].
  destruct (copy_target_cases a dst name t1 Hname Hbase) as [E|[Hd E]];
    rewrite E in Hput; pose proof (get_put_eq _ _ _ _ Hput) as Hget.
  - split; [done|]. by rewrite Hget.
  - split; [|done]. intros Hsrc.
    assert (is_Some (get t0 (norm src ++ [name]))) as Hs.
    { rewrite <- (copytree_get_dst _ _ _ _ _ Htree).
      by destruct (get t1 (norm dst ++ [name])). }
    rewrite overlay_keeps_tree in Hsrc by done.
    rewrite <- (copytree_get_dst _ _ _ _ _ Htree) in Hsrc. congruence.
Qed.

End Overlay.

(** *** Staging a tree: removal, then copy *)

(** A call followed by a continuation, and the calls the two make. *)
Lemma run_call_bind {A B : Type} (o : op) (act : node → exn + A * node)
    (k : A → M B) (w : World) :
  (call o act ≫= k) w =
  match act (fs w) with
  | inl e => Raise e (record o (Failed e) w)
  | inr (a, t) => k a (record o Done (with_fs t w))
  end.
Proof. rewrite run_bind. unfold call. by destruct (act (fs w)) as [e|[a t]]. Qed.

Lemma emitted_call_bind {A B : Type} (o : op) (act : node → exn + A * node)
    (k : A → M B) (w : World) :
  (∀ a, propagates (k a)) →
  emitted (call o act ≫= k) w =
  (o, outcome_of (act (fs w))) ::
  match act (fs w) with
  | inl e => []
  | inr (a, t) => emitted (k a) (record o Done (with_fs t w))
  end.
Proof.
  intros Pk. rewrite emitted_bind by auto with propagate.
  rewrite emitted_call. unfold call. by destruct (act (fs w)) as [e|[a t]].
Qed.

Lemma emitted_query_bind {A B : Type} (f : node → A) (k : A → M B) (w : World) :
  (∀ a, propagates (k a)) →
  emitted (query f ≫= k) w = emitted (k (f (fs w))) w.
Proof. intros Pk. rewrite emitted_bind by auto with propagate. by rewrite emitted_query. Qed.

(** A run that logged a [copytree] that succeeded went on with what
    follows the [copytree], in the tree it left. *)
Lemma copytree_then_inv (k : M unit) (src dst : Path) (w : World) :
  propagates k →
  succeeded (OCopytree src dst) ∈ emitted (shutil_copytree src dst;; k) w →
  ∃ t1, copytree_at src dst (fs w) = inr (tt, t1) ∧
        (shutil_copytree src dst;; k) w
          = k (record (OCopytree src dst) Done (with_fs t1 w)) ∧
        emitted (shutil_copytree src dst;; k) w
          = succeeded (OCopytree src dst)
              :: emitted k (record (OCopytree src dst) Done (with_fs t1 w)).
Proof.
  intros Pk. unfold shutil_copytree.
  rewrite emitted_call_bind, run_call_bind by done.
  destruct (copytree_at src dst (fs w)) as [e|[[] t1]]; cbn [outcome_of].
  - intros [=]%list_elem_of_singleton.
  - intros _. by exists t1.
Qed.

Lemma emitted_exists_bind {B : Type} (p : Path) (k : bool → M B) (w : World) :
  (∀ a, propagates (k a)) →
  emitted (osp_exists p ≫= k) w = emitted (k (exists_at (fs w) p)) w.
Proof. apply emitted_query_bind. Qed.

Lemma run_exists_bind {B : Type} (p : Path) (k : bool → M B) (w : World) :
  (osp_exists p ≫= k) w = k (exists_at (fs w) p) w.
Proof. reflexivity. Qed.

(** The staging pattern of both routines: a message, the removal of the
    destination if it exists, the copy of the tree, and whatever comes
    after.  When the copy succeeded, every step before it returned; [wb]
    is the world the part before the staging left. *)
Lemma restage_inv (build k : M unit) (msg : string) (src dst : Path) (w : World) :
  propagates build → propagates k →
  (∀ w0, Forall (λ x, is_staging x.1 = false) (emitted build w0)) →
  let m := (build;;
            print msg;;
            stale ← osp_exists dst;
            (if stale : bool then shutil_rmtree dst else mret tt);;
            shutil_copytree src dst;;
            k) in
  succeeded (OCopytree src dst) ∈ emitted m w →
  ∃ wb t1 w6,
    build w = Ok tt wb ∧
    copytree_at src dst
      (if exists_at (fs wb) dst then del (fs wb) (norm dst) else fs wb) = inr (tt, t1) ∧
    fs w6 = t1 ∧
    m w = k w6 ∧
    emitted m w =
      emitted build w ++ [succeeded (OPrint msg)]
      ++ (if exists_at (fs wb) dst then [succeeded (ORmtree dst)] else [])
      ++ [succeeded (OCopytree src dst)] ++ emitted k w6.
Proof.
  intros Pb Pk Hb m Hin. subst m.
  assert (∀ (x : op * outcome) l,
            Forall (λ x, is_staging x.1 = false) l → x ∈ l → is_staging x.1 = false)
    as Hns.
  { intros x l Hl Hx. by eapply Forall_forall in Hl. }
  assert (∀ (stale : bool), propagates (shutil_copytree src dst;; k)) as Ptail.
  { intros _. auto with propagate. }
  assert (∀ (stale : bool), propagates ((if stale then shutil_rmtree dst else mret tt);;
            shutil_copytree src dst;; k)) as Pstale.
  { intros. auto 10 with propagate. }
  rewrite emitted_bind in Hin |- * by auto 30 with propagate.
  rewrite run_bind.
  destruct (build w) as [[] wb|e wb] eqn:Ebuild.
  2:{ rewrite app_nil_r in Hin. by apply (Hns _ _ (Hb w)) in Hin. }
  apply elem_of_app in Hin as [Hin|Hin]; [by apply (Hns _ _ (Hb w)) in Hin|].
  exists wb.
  unfold print, osp_exists in Hin |- *.
  rewrite emitted_call_bind in Hin |- * by (intros; auto 30 with propagate).
  rewrite run_call_bind.
  apply elem_of_cons in Hin as [Hin|Hin]; [done|].
  rewrite emitted_query_bind in Hin |- * by (intros; auto 30 with propagate).
  rewrite run_bind. cbn [query fs record with_fs] in Hin |- *.
  set (w2 := record (OPrint msg) Done (with_fs (fs wb) wb)) in *.
  destruct (exists_at (fs wb) dst).
  - unfold shutil_rmtree in Hin |- *.
    rewrite emitted_call_bind in Hin |- * by (intros; auto 30 with propagate).
    rewrite run_call_bind. cbn [fs record with_fs w2] in Hin |- *.
    destruct (rmtree_at dst (fs wb)) as [e|[[] t0]] eqn:Erm; cbn [outcome_of] in Hin |- *.
    { by apply list_elem_of_singleton in Hin. }
    apply rmtree_at_inv in Erm as ->.
    apply elem_of_cons in Hin as [Hin|Hin]; [done|].
    apply copytree_then_inv in Hin as (t1 & Hcp & -> & ->); [|done].
    eexists t1, _. split_and!; [done|exact Hcp| |reflexivity|reflexivity]; done.
  - rewrite emitted_bind in Hin |- * by (intros; auto 30 with propagate).
    rewrite emitted_ret in Hin |- *. rewrite run_bind. cbn [mret M_ret app] in Hin |- *.
    apply copytree_then_inv in Hin as (t1 & Hcp & -> & ->); [|done].
    eexists t1, _. split_and!; [done|exact Hcp| |reflexivity|reflexivity]; done.
Qed.

(** A run whose script has no staging call makes none. *)
Lemma obeys_nonstaging {A : Type} (m : M A) (w : World) :
  obeys m w (Forall (λ o, is_staging o = false)) →
  Forall (λ x, is_staging x.1 = false) (emitted m w).
Proof.
  intros (s & Hs & [[k ->] _]). apply Forall_app in Hs as [Hs _].
  unfold ops in Hs. by apply Forall_fmap in Hs.
Qed.

(** After [copytree], every entry below the destination is in the source
    tree too. *)
Lemma copytree_no_stale (src dst : Path) (t0 t1 : node) (r : Path) :
  copytree_at src dst t0 = inr (tt, t1) →
  r ≠ [] → is_Some (get t1 (norm dst ++ r)) → is_Some (get t1 (norm src ++ r)).
Proof.
  intros H Hr Hsome. rewrite (copytree_get_dst _ _ _ _ _ H) in Hsome.
  by rewrite (copytree_get_src _ _ _ _ _ H).
Qed.

(** ** The build and staging routines *)

Section Routines.

Variable HERE : Path.
Variable which : string → node → option string.
Variable run_process : list string → Path → node → exn + node.

Local Abbreviation build_api_docs := (build_api_docs HERE which run_process).
Local Abbreviation build_examples := (build_examples HERE which run_process).
Local Abbreviation builds_before_staging := (builds_before_staging HERE which run_process).
Local Abbreviation api_chain_done := (api_chain_done HERE).
Local Abbreviation example_copied := (example_copied HERE).
Local Abbreviation examples_staged := (examples_staged HERE).
Local Abbreviation copies_exactly_examples := (copies_exactly_examples HERE which run_process).
Local Abbreviation stages_examples := (stages_examples HERE which run_process).
Local Abbreviation examples_skipped := (examples_skipped HERE which run_process).
Local Abbreviation api_page := (api_page HERE).
Local Abbreviation api_tree_copied := (api_tree_copied HERE which run_process).
Local Abbreviation api_restaged := (api_restaged HERE which run_process).
Local Abbreviation api_index_overlaid := (api_index_overlaid HERE which run_process).

(** C1: when the marker file [source/api/algorithm/index.html] exists at
    the time of the call, a run of [build_api_docs] makes no
    [check_call] at all, whatever the output directory and whether the
    run returns or raises: no external process is started. *)
Theorem api_marker_no_process (out_dir : Path) (w : World) :
  exists_at (fs w) (api_index HERE) = true →
  ∀ args cwd r, (OCheckCall args cwd, r) ∉ emitted (build_api_docs out_dir) w.
Proof.
  intros Hhave args cwd r Hin.
  destruct (build_api_docs_script HERE which run_process out_dir w)
    as (s & (npm & yarn & stale & -> & _) & Hs).
  pose proof (follows_elem_of _ _ _ _ _ Hs Hin) as Ho.
  rewrite Hhave in Ho. unfold api_script, restage_script in Ho.
  destruct stale; elem_cases Ho; discriminate.
Qed.

(** C2: when the marker file is absent at the time of the call, every
    call of [build_api_docs] that stages the output directory (the
    removal of the old tree, the copy of the generated tree, the copy of
    the index page) comes after the build chain, run in the repository
    root and with every step succeeded: installing the build tool with
    the package manager, running the build tool, and running its [docs]
    target.  A run that returns has made all of these calls. *)
Theorem api_build_before_staging (out_dir : Path) (w : World) :
  exists_at (fs w) (api_index HERE) = false →
  builds_before_staging out_dir w.
Proof.
  intros Hhave.
  destruct (build_api_docs_script HERE which run_process out_dir w)
    as (s & (npm & yarn & stale & -> & _) & Hs).
  rewrite Hhave in Hs. exists npm, yarn. split.
  - intros l1 o r l2 E Ho.
    pose proof (emitted_before_done _ _ _ _ _
                  (propagates_build_api_docs HERE which run_process out_dir) E) as Hd.
    destruct Hs as [Hp _]. rewrite E in Hp. unfold ops in Hp.
    rewrite fmap_app, fmap_cons in Hp. simpl in Hp.
    unfold api_script in Hp.
    apply (prefix_split_at is_staging) in Hp as [k Hk]; [|done|by repeat constructor].
    exists (succeeded <$> k). rewrite (all_done_fmap l1 Hd). unfold ops, api_chain_done.
    by rewrite Hk, fmap_app.
  - intros Hr.
    rewrite (follows_returned _ _ _
               (propagates_build_api_docs HERE which run_process out_dir) Hs Hr).
    exists (succeeded <$> (OPrint ("Copying " +:+ path_str (docs_api HERE) +:+ " -> "
                                    +:+ path_str (osp_join out_dir ["api"]))
                          :: if stale then [ORmtree (osp_join out_dir ["api"])] else [])).
    unfold api_chain_done, api_script, restage_script. by destruct stale.
Qed.

Lemma example_source_ne (e : string) : example_source HERE e ≠ examples_dir HERE.
Proof.
  unfold example_source, examples_dir, root, osp_join.
  rewrite <- app_assoc. intros H%app_inv_head. discriminate.
Qed.

Lemma example_dest_inj (e1 e2 : string) :
  example_dest HERE e1 = example_dest HERE e2 → e1 = e2.
Proof. unfold example_dest, osp_join. intros H%app_inv_head. congruence. Qed.

(** Whenever the marker of the first listed example exists the run
    makes, in this order, two prints, the removal of an existing
    [<out_dir>/examples] and the copy of the aggregated tree, and nothing
    else: no [check_call], and no copy of any example from the repository
    into the documentation sources, whatever the state of the other
    examples. *)
Lemma examples_skipped_when_marker (out_dir : Path) (w : World) :
  exists_at (fs w) (osp_join (examples_dir HERE) ["accordionpanel"; "index.html"]) = true →
  examples_skipped out_dir w.
Proof.
  intros Hhave.
  change (exists_at (fs w) (example_index HERE) = true) in Hhave.
  destruct (build_examples_script HERE which run_process out_dir w)
    as (s & (npm & yarn & st1 & st2 & st3 & stale & -> & Hst) & Hs).
  rewrite (Hst Hhave), Hhave in Hs. unfold examples_script in Hs. simpl in Hs.
  split; [done|]. split.
  - intros args cwd r Hin.
    pose proof (follows_elem_of _ _ _ _ _ Hs Hin) as Ho.
    unfold restage_script in Ho.
    destruct (exists_at (fs w) (osp_join out_dir ["examples"]));
      elem_cases Ho; discriminate.
  - intros e r Hin.
    pose proof (follows_elem_of _ _ _ _ _ Hs Hin) as Ho.
    unfold restage_script in Ho.
    destruct (exists_at (fs w) (osp_join out_dir ["examples"]));
      elem_cases Ho; try discriminate;
      injection Ho as Ho _; by apply example_source_ne in Ho.
Qed.

Lemma build_examples_returned (out_dir : Path) (w : World) :
  returned (build_examples out_dir w) = true →
  ∃ npm yarn st1 st2 st3 stale,
    emitted (build_examples out_dir) w =
    succeeded <$> examples_script HERE (exists_at (fs w) (example_index HERE))
                    npm yarn [st1; st2; st3] stale out_dir.
Proof.
  intros Hr.
  destruct (build_examples_script HERE which run_process out_dir w)
    as (s & (npm & yarn & st1 & st2 & st3 & stale & -> & _) & Hs).
  exists npm, yarn, st1, st2, st3, stale.
  by apply follows_returned; [apply propagates_build_examples|..].
Qed.

(** C3, amended: a run of [build_examples] that finds the marker absent
    and returns has copied from the per-example directories of the
    repository into the documentation sources exactly the examples
    accordionpanel, datagrid and dockpanel, and no others. *)
Theorem examples_copied_when_built (out_dir : Path) (w : World) :
  exists_at (fs w) (example_index HERE) = false →
  returned (build_examples out_dir w) = true →
  copies_exactly_examples out_dir w.
Proof.
  intros Hhave Hr e.
  destruct (build_examples_returned out_dir w Hr)
    as (npm & yarn & st1 & st2 & st3 & stale & ->).
  rewrite Hhave. unfold example_copied, examples_script, yarn_script, restage_script.
  cbn [app map concat zip_with EXAMPLES fmap list_fmap]. split.
  - intros H.
    destruct st1, st2, st3, stale; cbn [app fmap list_fmap] in H;
      elem_cases H; try discriminate;
      injection H as Hsrc Hdst;
      first [ by apply example_source_ne in Hsrc
            | apply example_dest_inj in Hdst; subst e; elem_here ].
  - intros H. unfold EXAMPLES in H.
    elem_cases H; subst e;
      destruct st1, st2, st3, stale; cbn [app fmap list_fmap]; elem_here.
Qed.

(** C4, amended: in every run of [build_examples] that returns, the last
    call is the copy of the aggregated examples tree into
    [<out_dir>/examples].  When the marker is absent, so that the build
    chain runs, the build output of each named example has been copied
    from the repository into the documentation sources before that;
    when the marker is present none has. *)
Theorem examples_staged_last (out_dir : Path) (w : World) :
  returned (build_examples out_dir w) = true →
  stages_examples out_dir w.
Proof.
  intros Hr.
  destruct (build_examples_returned out_dir w Hr)
    as (npm & yarn & st1 & st2 & st3 & stale & E).
  unfold stages_examples. rewrite E. clear E.
  unfold example_copied, examples_script, yarn_script, restage_script, examples_staged.
  destruct (exists_at (fs w) (example_index HERE)).
  - eexists (succeeded <$> (_ :: _ :: (if stale then [_] else []))).
    split; [by destruct stale|]. split; [done|].
    intros _ e H. destruct stale; cbn [fmap list_fmap] in H;
      elem_cases H; discriminate.
  - eexists (succeeded <$>
               (OPrint "Building lumino examples"
                :: yarn_script HERE npm yarn ["build"; "build:examples"]
                ++ concat (zip_with
                     (λ e st, restage_script (example_source HERE e) (example_dest HERE e) st)
                     EXAMPLES [st1; st2; st3])
                ++ OPrint _ :: (if stale then [_] else []))).
    split.
    { unfold yarn_script, restage_script.
      destruct st1, st2, st3, stale; reflexivity. }
    split; [|done].
    intros _ e H. unfold EXAMPLES in H. unfold yarn_script, restage_script.
    elem_cases H; subst e;
      destruct st1, st2, st3, stale;
      cbn [app map concat zip_with EXAMPLES fmap list_fmap]; elem_here.
Qed.

(** A run of [build_api_docs] that returned ended with the removal of
    the destination, if it was there, a [copytree] and a [copy], all of
    which succeeded; [tb] is the tree the staging started from. *)
Lemma build_api_docs_Ok_inv (out_dir : Path) (w w' : World) :
  build_api_docs out_dir w = Ok tt w' →
  ∃ tb t0 t1,
    (exists_at (fs w) (api_index HERE) = true → tb = fs w) ∧
    t0 = (if exists_at tb (osp_join out_dir ["api"])
          then del tb (norm (osp_join out_dir ["api"])) else tb) ∧
    copytree_at (docs_api HERE) (osp_join out_dir ["api"]) t0 = inr (tt, t1) ∧
    copy_at (osp_join HERE ["api_index.html"])
      (osp_join (osp_join out_dir ["api"]) ["index.html"]) t1 = inr (tt, fs w').
Proof.
  unfold build_api_docs. intros H.
  apply bind_Ok_inv in H as (have & w1 & [-> ->]%query_Ok_inv & H).
  apply bind_Ok_inv in H as ([] & w2 & Hbuild & H).
  apply bind_Ok_inv in H as ([] & w3 & Hprint%print_Ok & H).
  apply bind_Ok_inv in H as (stale & w4 & [-> ->]%query_Ok_inv & H).
  apply bind_Ok_inv in H as ([] & w5 & Hrm & H).
  apply bind_Ok_inv in H as ([] & w6 & Htree & H).
  apply call_Ok_inv in Htree as (t1 & Htree & ->).
  apply call_Ok_inv in H as (t2 & Hcopy & ->).
  exists (fs w3), (fs w5), t1. split; [|split; [|done]].
  - intros Hhave. rewrite Hhave in Hbuild. apply print_Ok in Hbuild. congruence.
  - destruct (exists_at (fs w3) (osp_join out_dir ["api"])).
    + apply call_Ok_inv in Hrm as (t & Hrm & ->). simpl.
      by apply rmtree_at_inv in Hrm.
    + by injection Hrm as <-.
Qed.

Lemma build_api_docs_returned (out_dir : Path) (w : World) :
  returned (build_api_docs out_dir w) = true →
  ∃ npm yarn stale,
    emitted (build_api_docs out_dir) w =
      (succeeded <$> api_script HERE (exists_at (fs w) (api_index HERE))
                       npm yarn stale out_dir) ∧
    (exists_at (fs w) (api_index HERE) = true →
     stale = exists_at (fs w) (osp_join out_dir ["api"])).
Proof.
  intros Hr.
  destruct (build_api_docs_script HERE which run_process out_dir w)
    as (s & (npm & yarn & stale & -> & Hst) & Hs).
  exists npm, yarn, stale. split; [|done].
  by apply follows_returned; [apply propagates_build_api_docs|..].
Qed.

Lemma api_page_basename : basename api_page = "api_index.html".
Proof. apply basename_snoc. Qed.

Lemma build_api_docs_log_tail (out_dir : Path) (w : World) :
  returned (build_api_docs out_dir w) = true →
  ∃ l stale,
    emitted (build_api_docs out_dir) w =
      l ++ (succeeded <$>
              (if stale : bool then [ORmtree (osp_join out_dir ["api"])] else [])
              ++ [OCopytree (docs_api HERE) (osp_join out_dir ["api"]);
                  OCopy api_page (api_dest_index out_dir)]) ∧
    Forall (λ x, is_staging x.1 = false) l ∧
    (exists_at (fs w) (api_index HERE) = true →
     stale = exists_at (fs w) (osp_join out_dir ["api"])).
Proof.
  intros Hr.
  destruct (build_api_docs_returned out_dir w Hr) as (npm & yarn & stale & E & Hst).
  rewrite E. unfold api_script, restage_script, yarn_script.
  exists (succeeded <$>
            ((if exists_at (fs w) (api_index HERE)
              then [OPrint ("already have " +:+ path_str (api_index HERE))]
              else OPrint "Building lumino API docs"
                   :: yarn_script HERE npm yarn ["docs"])
             ++ [OPrint ("Copying " +:+ path_str (docs_api HERE) +:+ " -> "
                         +:+ path_str (osp_join out_dir ["api"]))])), stale.
  split; [|split; [|done]].
  - unfold yarn_script. by destruct (exists_at (fs w) (api_index HERE)), stale.
  - destruct (exists_at (fs w) (api_index HERE)); by repeat constructor.
Qed.

(** The build phase of [build_api_docs] (lines 109-119) makes no staging
    call. *)
Lemma api_build_nonstaging (b : bool) (msg : string) (w0 : World) :
  Forall (λ x, is_staging x.1 = false)
    (emitted
       (if b then print msg
        else
          print "Building lumino API docs";;
          npm ← shutil_which which "npm";
          check_call run_process ([npm] ++ [Some "install"; Some "-g"; Some "yarn"]) (root HERE);;
          yarn ← shutil_which which "yarn";
          check_call run_process [yarn] (root HERE);;
          check_call run_process ([yarn] ++ [Some "docs"]) (root HERE)) w0).
Proof.
  apply obeys_nonstaging. destruct b; repeat obey_step; by repeat constructor.
Qed.

(** A run of [build_api_docs] that copied the generated tree: the build
    phase returned, in a tree [tb]; the destination was removed from it
    if it was there; the copy succeeded; and the run ended with the copy
    of the index page. *)
Lemma build_api_docs_copied_inv (out_dir : Path) (w : World) :
  api_tree_copied out_dir w →
  ∃ l tb t1 w6,
    Forall (λ x, is_staging x.1 = false) l ∧
    (exists_at (fs w) (api_index HERE) = true → tb = fs w) ∧
    copytree_at (docs_api HERE) (osp_join out_dir ["api"])
      (if exists_at tb (osp_join out_dir ["api"])
       then del tb (norm (osp_join out_dir ["api"])) else tb) = inr (tt, t1) ∧
    fs w6 = t1 ∧
    build_api_docs out_dir w
      = shutil_copy api_page (api_dest_index out_dir) w6 ∧
    emitted (build_api_docs out_dir) w =
      l ++ (if exists_at tb (osp_join out_dir ["api"])
            then [succeeded (ORmtree (osp_join out_dir ["api"]))] else [])
        ++ [succeeded (OCopytree (docs_api HERE) (osp_join out_dir ["api"]))]
        ++ emitted (shutil_copy api_page (api_dest_index out_dir)) w6.
Proof.
  unfold api_tree_copied, build_api_docs. intros Hin.
  rewrite emitted_exists_bind in Hin |- * by (intros; auto 40 with propagate).
  rewrite run_exists_bind.
  apply restage_inv in Hin as (wb & t1 & w6 & Hb & Hcp & Hfs & Hrun & Hem);
    [|auto 40 with propagate..|intros; apply api_build_nonstaging].
  eexists _, (fs wb), t1, w6.
  split_and!; [| |exact Hcp|exact Hfs|exact Hrun
              |rewrite Hem, (app_assoc (emitted _ w)); reflexivity].
  - apply Forall_app. split; [apply api_build_nonstaging|by repeat constructor].
  - intros Hhave. rewrite Hhave in Hb. by apply print_Ok in Hb.
Qed.

(** In every run of [build_api_docs] that copies the generated tree,
    which every run that returns does, the copy starts from a destination
    that does not exist and makes it a replica of the generated tree, so
    that in the end, whether or not the copy of the index page
    succeeded, each entry below [<out_dir>/api] is in the generated tree
    too, or is the index page copied in by the last step. *)
Lemma api_copied_restaged (out_dir : Path) (w : World) :
  api_tree_copied out_dir w → api_restaged out_dir w.
Proof.
  intros Hin.
  destruct (build_api_docs_copied_inv out_dir w Hin)
    as (l & tb & t1 & w6 & Hl & Htb & Htree & Hfs & Hrun & Hem).
  unfold api_restaged. cbv zeta. rewrite Hrun, Hem. clear Hrun Hem Hin.
  unfold shutil_copy at 1. rewrite emitted_call. unfold shutil_copy, call.
  rewrite Hfs.
  destruct (copytree_at_inv _ _ _ _ Htree) as (m & _ & Hd & _ & _).
  split; [|split].
  - eexists l, (exists_at tb (osp_join out_dir ["api"])), _.
    split; [|split; [done|]].
    + rewrite fmap_app. by destruct (exists_at tb (osp_join out_dir ["api"])).
    + intros Hhave. by rewrite (Htb Hhave).
  - eexists tb, _, t1. split; [done|]. split; [reflexivity|].
    split; [intros r; by apply get_None_app|].
    split.
    { intros q Hq.
      destruct (exists_at tb (osp_join out_dir ["api"])); [by apply get_del_apart|done]. }
    split; [done|].
    split; [intros r; by apply copytree_get_dst|].
    by destruct (copy_at _ _ t1) as [e|[[] t2]].
  - intros r Hr0.
    destruct (copy_at api_page (api_dest_index out_dir) t1) as [e|[[] t2]] eqn:Hcopy;
      cbn [final fs record with_fs].
    + rewrite Hfs. intros Hex. left. by eapply copytree_no_stale.
    + intros Hex.
      destruct (overlay_no_stale _ _ _ "index.html" _ _ _ ltac:(done)
                  ltac:(by rewrite api_page_basename) Htree Hcopy r Hr0 Hex)
        as [H|[H|H]]; [by left|by right; left|].
      right; right. by rewrite api_page_basename in H.
Qed.

(** C9, amended: in every run of [build_api_docs] that returns, the copy
    of the index page [api_index.html] to [<out_dir>/api/index.html] is
    the last call and directly follows the copy of the generated tree.
    In the end [<out_dir>/api/index.html] is that page, whatever file of
    that name the generated tree has, provided the generated tree has no
    directory named [index.html]; where [<out_dir>/api/index.html] ends
    up a directory, the page is inside it as [api_index.html]. *)
Theorem api_index_page_last (out_dir : Path) (w w' : World) :
  build_api_docs out_dir w = Ok tt w' →
  api_index_overlaid out_dir w w'.
Proof.
  intros Hrun.
  assert (returned (build_api_docs out_dir w) = true) as Hr by by rewrite Hrun.
  destruct (build_api_docs_log_tail out_dir w Hr) as (l & stale & E & _).
  destruct (build_api_docs_Ok_inv out_dir w w' Hrun)
    as (_ & t0 & t1 & _ & _ & Htree & Hcopy).
  split.
  - rewrite E.
    exists (l ++ (succeeded <$> if stale then [ORmtree (osp_join out_dir ["api"])] else [])).
    by rewrite fmap_app, app_assoc.
  - destruct (overlay_result _ _ _ "index.html" _ _ _ ltac:(done)
                ltac:(by rewrite api_page_basename) Htree Hcopy)
      as (data & Hpage & Hfile & Hdir).
    exists data. rewrite api_page_basename in Hdir.
    unfold api_dest_index, osp_join in *.
    rewrite !norm_snoc by done. rewrite !norm_snoc in Hfile, Hdir by done.
    rewrite <- !app_assoc in Hfile, Hdir. rewrite <- !app_assoc.
    split; [done|]. split; [done|].
    intros H. rewrite <- (Hdir H). f_equal. by rewrite <- app_assoc.
Qed.

End Routines.

(** ** The module as a whole *)

Section Module.

Variable HERE : Path.
Variable which : string → node → option string.
Variable run_process : list string → Path → node → exn + node.
Variable json_loads : string → exn + pyval.

Local Abbreviation build_api_docs := (build_api_docs HERE which run_process).
Local Abbreviation build_examples := (build_examples HERE which run_process).
Local Abbreviation setup := (setup HERE which run_process).
Local Abbreviation load_manifest := (load_manifest HERE json_loads).
Local Abbreviation setup_in_order := (setup_in_order HERE which run_process).

(** C6: the module-level [version] (and [release]) is the value stored
    under the key [version] of the JSON object read from the manifest
    [package.json] two directories above the module. *)
Theorem manifest_version (w : World) (text : string) (d : gmap string pyval)
    (v : pyval) :
  node_at (fs w) (package_json HERE) = Some (File text) →
  json_loads text = inr (PyDict d) →
  d !! "version" = Some v →
  ∃ w', load_manifest w = Ok {| version := v; release := v |} w' ∧ fs w' = fs w.
Proof.
  intros Hfile Hjson Hkey. eexists.
  unfold load_manifest, read_text, attempt, call, mbind, M_bind.
  rewrite (read_text_at_node_at _ _ _ Hfile).
  simpl. rewrite Hjson. simpl. rewrite Hkey. simpl. done.
Qed.

(** C8: every run of [setup] copies the changelog into the documentation
    sources, then registers the style sheet [css/custom.css], then runs
    [build_api_docs] on the output directory of the application, then
    runs [build_examples] on the same directory, in this order. *)
Theorem setup_order (app : App) (w : World) : setup_in_order app w.
Proof.
  split.
  - assert (obeys (setup app) w
              (λ s, ∃ api examples,
                 (∃ w2, is_api_script HERE w2 (outdir app) api) ∧
                 (∃ w3, is_examples_script HERE w3 (outdir app) examples) ∧
                 s = setup_script HERE api examples)) as (s & (api & ex & ? & ? & ->) & Hs).
    { unfold setup. do 2 obey_step.
      lazymatch goal with
      | |- obeys _ ?w0 _ =>
          refine (obeys_seq_obeys _ _ w0 (is_api_script HERE w0 (outdir app)) _ _ _ _ _)
      end.
      - apply propagates_build_api_docs.
      - apply propagates_build_examples.
      - apply build_api_docs_script.
      - intros w2.
        destruct (build_examples_script HERE which run_process (outdir app) w2)
          as (s2 & Hex & Hs2).
        exists s2. split; [|done]. intros s1 Hapi. exists s1, s2. eauto. }
    by exists api, ex.
  - intros w' H. unfold setup in H.
    apply bind_Ok_inv in H as ([] & w1 & H1 & H).
    apply bind_Ok_inv in H as ([] & w2 & H2 & H).
    apply bind_Ok_inv in H as ([] & w3 & H3 & H).
    by exists w1, w2, w3.
Qed.

End Module.

(** ** Edge cases, invariants and repeated runs *)

Lemma with_fs_same (w : World) : with_fs (fs w) w = w.
Proof. by destruct w. Qed.

Section Manifest.
Variable HERE : Path.
Variable json_loads : string → exn + pyval.
Local Abbreviation load_manifest := (load_manifest HERE json_loads).

(** A run of the manifest reading that returned. *)
Lemma load_manifest_Ok_inv (w w' : World) (mf : Manifest) :
  load_manifest w = Ok mf w' →
  ∃ text d v,
    node_at (fs w) (package_json HERE) = Some (File text) ∧
    json_loads text = inr (PyDict d) ∧
    d !! "version" = Some v ∧
    mf = {| version := v; release := v |}.
Proof.
  unfold load_manifest, read_text, attempt. intros H.
  apply bind_Ok_inv in H as (text & w1 & H1 & H).
  apply bind_Ok_inv in H as (data & w2 & H2 & H).
  apply bind_Ok_inv in H as (v & w3 & H3 & H).
  injection H as <- <-.
  apply call_Ok_inv in H1 as (t1 & H1 & ->).
  apply call_Ok_inv in H2 as (t2 & H2 & ->).
  apply call_Ok_inv in H3 as (t3 & H3 & ->).
  exists text.
  destruct (json_loads text) as [e|data'] eqn:Hj; [done|]. injection H2 as -> <-.
  destruct data as [| | | | | |d]; try done. simpl in H3.
  destruct (d !! "version") as [v'|] eqn:Hv; [|done]. injection H3 as -> <-.
  exists d, v. split; [|done].
  unfold read_text_at in H1. unfold node_at.
  destruct (resolve (fs w) (package_json HERE)) as [e|q]; [done|].
  destruct (get (fs w) q) as [[data|m]|]; try done. by injection H1 as -> _.
Qed.

(** X1: the manifest reading returns only if [package.json] is a
    regular file whose text parses to a JSON object with the key
    [version]; [version] and [release] are then both the value under
    that key. *)
Theorem manifest_returns_only_if (w : World) :
  returned (load_manifest w) = true →
  ∃ text d v,
    node_at (fs w) (package_json HERE) = Some (File text) ∧
    json_loads text = inr (PyDict d) ∧
    d !! "version" = Some v ∧
    ∃ w', load_manifest w = Ok {| version := v; release := v |} w'.
Proof.
  destruct (load_manifest w) as [mf w'|e w'] eqn:E; [|done]. intros _.
  destruct (load_manifest_Ok_inv _ _ _ E) as (text & d & v & H1 & H2 & H3 & ->).
  exists text, d, v. eauto.
Qed.

(** X2: when the manifest parses to an object without the key
    [version], the module fails to load with [KeyError('version')], after
    reading and parsing the file, and the file tree is untouched. *)
Theorem manifest_missing_key (w : World) (text : string) (d : gmap string pyval) :
  node_at (fs w) (package_json HERE) = Some (File text) →
  json_loads text = inr (PyDict d) →
  d !! "version" = None →
  ∃ w', load_manifest w = Raise (KeyError "version") w' ∧
        fs w' = fs w ∧
        log w' = log w ++ [succeeded (OReadText (package_json HERE));
                           succeeded OJsonLoads;
                           (OGetItem "version", Failed (KeyError "version"))].
Proof.
  intros Hfile Hjson Hkey. eexists.
  unfold load_manifest, read_text, attempt, call, mbind, M_bind.
  rewrite (read_text_at_node_at _ _ _ Hfile).
  simpl. rewrite Hjson. simpl. rewrite Hkey. simpl.
  split; [done|]. split; [done|]. cbn [log record with_fs]. by rewrite <- !app_assoc.
Qed.

(** X3: when the manifest parses to a JSON value that is not an object
    (an array, a string, a number, [null]), indexing it with ['version']
    raises [TypeError]. *)
Theorem manifest_not_an_object (w : World) (text : string) (data : pyval) :
  node_at (fs w) (package_json HERE) = Some (File text) →
  json_loads text = inr data →
  is_object data = false →
  ∃ w', load_manifest w = Raise TypeError w' ∧ fs w' = fs w.
Proof.
  intros Hfile Hjson Hobj. eexists.
  unfold load_manifest, read_text, attempt, call, mbind, M_bind.
  rewrite (read_text_at_node_at _ _ _ Hfile).
  simpl. rewrite Hjson. simpl. by destruct data.
Qed.

(** X4: reading the manifest never changes the file tree or the
    registered style sheets, whether it returns or raises. *)
Theorem manifest_reads_only (w : World) :
  fs (final (load_manifest w)) = fs w ∧
  css_files (final (load_manifest w)) = css_files w.
Proof.
  unfold load_manifest, read_text, attempt, call, mbind, M_bind.
  unfold read_text_at.
  destruct (resolve (fs w) (package_json HERE)) as [e|q]; [done|].
  destruct (get (fs w) q) as [[text|m]|]; try done. simpl.
  destruct (json_loads text) as [e|data]; [done|]. simpl.
  by destruct (getitem_str data "version").
Qed.
End Manifest.

Lemma emitted_assoc {A B C : Type} (m : M A) (f : A → M B) (g : B → M C) (w : World) :
  emitted ((m ≫= f) ≫= g) w = emitted (m ≫= λ a, f a ≫= g) w.
Proof. unfold emitted. by rewrite run_bind_assoc. Qed.

Lemma emitted_which_bind {B : Type} (which : string → node → option string)
    (cmd : string) (k : option string → M B) (w : World) :
  (∀ a, propagates (k a)) →
  emitted (shutil_which which cmd ≫= k) w = emitted (k (which cmd (fs w))) w.
Proof. apply emitted_query_bind. Qed.

Lemma emitted_print_bind {B : Type} (msg : string) (k : unit → M B) (w : World) :
  (∀ a, propagates (k a)) →
  emitted (print msg ≫= k) w
  = succeeded (OPrint msg) :: emitted (k tt) (record (OPrint msg) Done w).
Proof.
  intros Pk. unfold print. rewrite emitted_call_bind by done.
  by rewrite with_fs_same.
Qed.

Lemma emitted_check_call_bind {B : Type}
    (run_process : list string → Path → node → exn + node)
    (args : list (option string)) (cwd : Path) (k : unit → M B) (w : World) :
  (∀ a, propagates (k a)) →
  emitted (check_call run_process args cwd ≫= k) w =
  (OCheckCall args cwd, outcome_of (check_call_at run_process args cwd (fs w))) ::
  match check_call_at run_process args cwd (fs w) with
  | inl e => []
  | inr (a, t) => emitted (k a) (record (OCheckCall args cwd) Done (with_fs t w))
  end.
Proof. apply emitted_call_bind. Qed.

Section Tools.
Variable HERE : Path.
Variable which : string → node → option string.
Variable run_process : list string → Path → node → exn + node.
Local Abbreviation build_api_docs := (build_api_docs HERE which run_process).
Local Abbreviation build_examples := (build_examples HERE which run_process).
Local Abbreviation check_call := (check_call run_process).

Ltac run_world := cbn [fs css_files log record with_fs final]; rewrite <- ?app_assoc; cbn [app].

(** X5: when the marker is absent and [npm] is not on the search path,
    [shutil.which] gives [None] and [build_api_docs] raises [TypeError]
    from the first [check_call]: no process is started, nothing is
    removed or copied, and the file tree is untouched. *)
Theorem api_npm_missing (out_dir : Path) (w : World) :
  exists_at (fs w) (api_index HERE) = false →
  which "npm" (fs w) = None →
  ∃ w', build_api_docs out_dir w = Raise TypeError w' ∧
        fs w' = fs w ∧
        log w' = log w ++
          [succeeded (OPrint "Building lumino API docs");
           (OCheckCall [None; Some "install"; Some "-g"; Some "yarn"] (root HERE),
            Failed TypeError)].
Proof.
  intros Hhave Hnpm. eexists.
  unfold build_api_docs. rewrite run_exists_bind, Hhave.
  unfold print, shutil_which, check_call, call, query, mbind, M_bind.
  cbn [fs record with_fs]. rewrite Hnpm. cbn [mapM id mbind option_bind].
  split; [done|]. split; [done|]. by run_world.
Qed.

(** X6: [yarn] is looked up only after [npm install -g yarn] has run:
    the second [check_call] of a building run gets what [shutil.which]
    finds in the tree the install left, not in the tree the run started
    with. *)
Theorem api_yarn_found_after_install (out_dir : Path) (w : World) (npm : string)
    (t1 : node) :
  exists_at (fs w) (api_index HERE) = false →
  which "npm" (fs w) = Some npm →
  run_process [npm; "install"; "-g"; "yarn"] (root HERE) (fs w) = inr t1 →
  ∃ l,
    emitted (build_api_docs out_dir) w =
      [succeeded (OPrint "Building lumino API docs");
       succeeded (OCheckCall [Some npm; Some "install"; Some "-g"; Some "yarn"] (root HERE));
       (OCheckCall [which "yarn" t1] (root HERE),
        outcome_of (check_call_at run_process [which "yarn" t1] (root HERE) t1))] ++ l.
Proof.
  intros Hhave Hnpm Hrun.
  unfold build_api_docs.
  rewrite emitted_exists_bind by (intros; auto 40 with propagate).
  rewrite Hhave.
  rewrite emitted_assoc.
  rewrite emitted_print_bind by (intros; auto 40 with propagate).
  rewrite emitted_assoc.
  rewrite emitted_which_bind by (intros; auto 40 with propagate).
  cbn [fs record]. rewrite Hnpm.
  rewrite emitted_assoc.
  rewrite emitted_check_call_bind by (intros; auto 40 with propagate).
  unfold check_call_at at 1 2. cbn [fs record mapM id mbind option_bind mret option_ret app].
  rewrite Hrun. cbn [outcome_of].
  rewrite !emitted_assoc.
  rewrite emitted_which_bind by (intros; auto 40 with propagate).
  rewrite emitted_assoc.
  rewrite emitted_check_call_bind by (intros; auto 40 with propagate).
  cbn [fs record with_fs]. by eexists.
Qed.

Lemma failed_is_last {A : Type} (m : M A) (w : World) (o : op) (e : exn) :
  propagates m → (o, Failed e) ∈ emitted m w →
  ∃ l w', m w = Raise e w' ∧ emitted m w = l ++ [(o, Failed e)] ∧ all_done l.
Proof.
  intros Pm Hin. destruct (m w) as [a w'|e' w'] eqn:Hr.
  - assert (all_done (emitted m w)) as Hd
      by (apply emitted_returned; [done | by rewrite Hr]).
    unfold all_done in Hd. rewrite Forall_forall in Hd. by apply Hd in Hin.
  - destruct (emitted_raised m w w' e' Pm Hr) as (l & o' & El & Hl).
    rewrite El in Hin. apply elem_of_app in Hin as [Hin|Hin].
    + unfold all_done in Hl. rewrite Forall_forall in Hl. by apply Hl in Hin.
    + apply list_elem_of_singleton in Hin. injection Hin as <- <-.
      by exists l, w'.
Qed.

Lemma prefix_snoc_app {A : Type} (l pre post : list A) (x : A) :
  (l ++ [x]) `prefix_of` (pre ++ post) → x ∉ post → (l ++ [x]) `prefix_of` pre.
Proof.
  revert l. induction pre as [|p pre IH]; intros l Hp Hx; simpl in *.
  - destruct Hp as [k Hk]. exfalso. apply Hx. rewrite Hk.
    apply elem_of_app. left. apply elem_of_app. right. by apply list_elem_of_singleton.
  - destruct l as [|a l]; simpl in *.
    + pose proof (prefix_cons_inv_1 _ _ _ _ Hp) as ->. apply prefix_cons, prefix_nil.
    + pose proof (prefix_cons_inv_1 _ _ _ _ Hp) as ->.
      apply prefix_cons, IH; [|done]. by apply prefix_cons_inv_2 in Hp.
Qed.

(** When a [check_call] fails in a run whose script is [pre ++ post],
    with no [check_call] in [post] and no staging call in [pre], the run
    made no staging call. *)
Lemma failed_check_call_in_pre {A : Type} (m : M A) (w : World) (pre post : list op)
    (args : list (option string)) (cwd : Path) (e : exn) :
  propagates m → follows m w (pre ++ post) →
  Forall (λ o, is_staging o = false) pre →
  Forall (λ o, is_check_call o = false) post →
  (OCheckCall args cwd, Failed e) ∈ emitted m w →
  (∃ w', m w = Raise e w') ∧
  Forall (λ x, is_staging x.1 = false) (emitted m w).
Proof.
  intros Pm [Hpre _] Hp Hq Hin.
  destruct (failed_is_last m w _ _ Pm Hin) as (l & w' & Hr & El & Hl).
  split; [by exists w'|].
  rewrite El in Hpre |- *. unfold ops in Hpre. rewrite fmap_app in Hpre. simpl in Hpre.
  apply prefix_snoc_app in Hpre.
  - destruct Hpre as [k ->]. apply Forall_app in Hp as [Hp _].
    apply Forall_app in Hp as [Hp1 Hp2]. apply Forall_app. split.
    + by apply Forall_fmap in Hp1.
    + by repeat constructor.
  - intros Hx. rewrite Forall_forall in Hq. by apply Hq in Hx.
Qed.

(** X7: when a build command fails in [build_api_docs], the run raises
    the error of that command and has made no staging call: nothing was
    removed from and nothing copied to the output directory. *)
Theorem api_failed_build_stages_nothing (out_dir : Path) (w : World)
    (args : list (option string)) (cwd : Path) (e : exn) :
  (OCheckCall args cwd, Failed e) ∈ emitted (build_api_docs out_dir) w →
  (∃ w', build_api_docs out_dir w = Raise e w') ∧
  Forall (λ x, is_staging x.1 = false) (emitted (build_api_docs out_dir) w).
Proof.
  destruct (build_api_docs_script HERE which run_process out_dir w)
    as (s & (npm & yarn & stale & -> & _) & Hs).
  unfold api_script in Hs.
  apply (failed_check_call_in_pre _ _ _ _ args cwd e
           (propagates_build_api_docs HERE which run_process out_dir) Hs).
  - unfold yarn_script.
    destruct (exists_at (fs w) (api_index HERE)); by repeat constructor.
  - unfold restage_script. destruct stale; by repeat constructor.
Qed.

(** X8: the same for [build_examples]: when a build command fails, no
    example has been copied into the documentation sources and nothing
    has been removed from or copied to the output directory. *)
Theorem examples_failed_build_stages_nothing (out_dir : Path) (w : World)
    (args : list (option string)) (cwd : Path) (e : exn) :
  (OCheckCall args cwd, Failed e) ∈ emitted (build_examples out_dir) w →
  (∃ w', build_examples out_dir w = Raise e w') ∧
  Forall (λ x, is_staging x.1 = false) (emitted (build_examples out_dir) w).
Proof.
  destruct (build_examples_script HERE which run_process out_dir w)
    as (s & (npm & yarn & st1 & st2 & st3 & stale & -> & _) & Hs).
  intros Hin.
  assert (examples_script HERE (exists_at (fs w) (example_index HERE)) npm yarn
            [st1; st2; st3] stale out_dir
          = (if exists_at (fs w) (example_index HERE)
             then [OPrint "already have examples"]
             else OPrint "Building lumino examples"
                  :: yarn_script HERE npm yarn ["build"; "build:examples"])
            ++ ((if exists_at (fs w) (example_index HERE) then []
                 else concat (zip_with
                        (λ e st, restage_script (example_source HERE e) (example_dest HERE e) st)
                        EXAMPLES [st1; st2; st3]))
                ++ restage_script (examples_dir HERE) (osp_join out_dir ["examples"]) stale))
    as E.
  { unfold examples_script. destruct (exists_at (fs w) (example_index HERE)); [done|].
    by rewrite app_comm_cons, <- !app_assoc. }
  rewrite E in Hs.
  apply (failed_check_call_in_pre _ _ _ _ args cwd e
           (propagates_build_examples HERE which run_process out_dir) Hs); [| |done].
  - unfold yarn_script.
    destruct (exists_at (fs w) (example_index HERE)); by repeat constructor.
  - unfold restage_script, EXAMPLES.
    destruct (exists_at (fs w) (example_index HERE)), st1, st2, st3, stale;
      by repeat constructor.
Qed.

(** X9: when [<out_dir>/api] exists but is a regular file,
    [osp.exists] is true and [shutil.rmtree] refuses the file:
    [build_api_docs] raises [NotADirectoryError] before any copy, and
    the file is left as it is. *)
Theorem api_dest_is_file (out_dir : Path) (w : World) (data : string) :
  exists_at (fs w) (api_index HERE) = true →
  node_at (fs w) (osp_join out_dir ["api"]) = Some (File data) →
  ∃ w', build_api_docs out_dir w = Raise NotADirectoryError w' ∧
        fs w' = fs w ∧
        log w' = log w ++
          [succeeded (OPrint ("already have " +:+ path_str (api_index HERE)));
           succeeded (OPrint ("Copying " +:+ path_str (docs_api HERE) +:+ " -> "
                              +:+ path_str (osp_join out_dir ["api"])));
           (ORmtree (osp_join out_dir ["api"]), Failed NotADirectoryError)].
Proof.
  intros Hhave Hfile. eexists.
  assert (exists_at (fs w) (osp_join out_dir ["api"]) = true) as Hstale
    by (unfold exists_at; by rewrite Hfile).
  assert (rmtree_at (osp_join out_dir ["api"]) (fs w) = inl NotADirectoryError) as Hrm.
  { unfold rmtree_at. unfold node_at in Hfile.
    destruct (resolve (fs w) (osp_join out_dir ["api"])) as [e|q]; [done|].
    by rewrite Hfile. }
  unfold build_api_docs. rewrite run_exists_bind, Hhave.
  unfold print, shutil_rmtree, osp_exists, call, query, mbind, M_bind.
  cbn [fs record with_fs]. rewrite Hstale. cbn [fs record with_fs]. rewrite Hrm.
  split; [done|]. split; [done|]. by run_world.
Qed.
End Tools.

Lemma keeps_css_ret {A : Type} (a : A) : keeps_css (mret a : M A).
Proof. done. Qed.

Lemma keeps_css_query {A : Type} (f : node → A) : keeps_css (query f).
Proof. done. Qed.

Lemma keeps_css_call {A : Type} (o : op) (act : node → exn + A * node) :
  keeps_css (call o act).
Proof. intros w. unfold call. by destruct (act (fs w)) as [e|[a t]]. Qed.

Lemma keeps_css_bind {A B : Type} (m : M A) (k : A → M B) :
  keeps_css m → (∀ a, keeps_css (k a)) → keeps_css (m ≫= k).
Proof.
  intros Hm Hk w. rewrite run_bind. specialize (Hm w).
  destruct (m w) as [a w1|e w1]; [|done]. simpl in Hm. by rewrite Hk.
Qed.

Lemma keeps_css_if {A : Type} (b : bool) (m1 m2 : M A) :
  keeps_css m1 → keeps_css m2 → keeps_css (if b then m1 else m2).
Proof. by destruct b. Qed.

Lemma keeps_css_for_in {A : Type} (l : list A) (body : A → M unit) :
  (∀ x, keeps_css (body x)) → keeps_css (for_in l body).
Proof.
  intros Hb. induction l as [|x l IH]; [done|].
  simpl. apply keeps_css_bind; [done|]. by intros [].
Qed.

Create HintDb css.
#[global] Hint Resolve keeps_css_ret keeps_css_query keeps_css_call keeps_css_for_in : css.
#[global] Hint Extern 2 (keeps_css (_ ≫= _)) => apply keeps_css_bind; [|intros ?] : css.
#[global] Hint Extern 2 (keeps_css (if _ then _ else _)) => apply keeps_css_if : css.

Section Registration.
Variable HERE : Path.
Variable which : string → node → option string.
Variable run_process : list string → Path → node → exn + node.
Local Abbreviation build_api_docs := (build_api_docs HERE which run_process).
Local Abbreviation build_examples := (build_examples HERE which run_process).
Local Abbreviation setup := (setup HERE which run_process).

Lemma keeps_css_build_api_docs (out_dir : Path) : keeps_css (build_api_docs out_dir).
Proof.
  unfold build_api_docs, osp_exists, print, shutil_which, check_call,
    shutil_rmtree, shutil_copytree, shutil_copy.
  auto 30 with css.
Qed.

Lemma keeps_css_build_examples (out_dir : Path) : keeps_css (build_examples out_dir).
Proof.
  unfold build_examples, copy_example, osp_exists, print, shutil_which, check_call,
    shutil_rmtree, shutil_copytree.
  auto 40 with css.
Qed.

(** X20: [setup] registers the style sheet [css/custom.css] exactly
    once, after the changelog has been copied, and nothing else is ever
    registered: the style sheets at the end of any run, returning or
    raising, are the ones at the start plus [css/custom.css] if the copy
    of the changelog succeeded, and the ones at the start otherwise. *)
Theorem setup_registers_stylesheet (app : App) (w : World) :
  css_files (final (setup app w)) =
  if returned (changelog_copy HERE w) then css_files w ++ ["css/custom.css"]
  else css_files w.
Proof.
  unfold setup, changelog_copy. rewrite run_bind.
  pose proof (keeps_css_call (OCopy (osp_join HERE [pardir; pardir; "CHANGELOG.md"])
                                (osp_join HERE ["changelog.md"]))
                (copy_at (osp_join HERE [pardir; pardir; "CHANGELOG.md"])
                   (osp_join HERE ["changelog.md"])) w) as Hc.
  fold (shutil_copy (osp_join HERE [pardir; pardir; "CHANGELOG.md"])
          (osp_join HERE ["changelog.md"])) in Hc.
  destruct (shutil_copy _ _ w) as [[] w1|e w1]; simpl in Hc |- *; [|done].
  rewrite run_bind. cbn [add_css_file].
  rewrite (keeps_css_bind (build_api_docs (outdir app)) (λ _, build_examples (outdir app))
             (keeps_css_build_api_docs _) (λ _, keeps_css_build_examples _)).
  cbn [css_files record]. by rewrite Hc.
Qed.
End Registration.

Lemma touches_only_ret (D : Path) {A : Type} (a : A) : touches_only D (mret a : M A).
Proof. done. Qed.

Lemma touches_only_query (D : Path) {A : Type} (f : node → A) : touches_only D (query f).
Proof. done. Qed.

Lemma touches_only_bind (D : Path) {A B : Type} (m : M A) (k : A → M B) :
  touches_only D m → (∀ a, touches_only D (k a)) → touches_only D (m ≫= k).
Proof.
  intros Hm Hk w q Hq. rewrite run_bind. specialize (Hm w q Hq).
  destruct (m w) as [a w1|e w1]; [|done]. simpl in Hm. by rewrite Hk.
Qed.

Lemma touches_only_if (D : Path) {A : Type} (b : bool) (m1 m2 : M A) :
  touches_only D m1 → touches_only D m2 → touches_only D (if b then m1 else m2).
Proof. by destruct b. Qed.

Lemma touches_only_print (D : Path) (msg : string) : touches_only D (print msg).
Proof. done. Qed.

Lemma touches_only_osp_exists (D p : Path) : touches_only D (osp_exists p).
Proof. done. Qed.

Lemma touches_only_call (D : Path) {A : Type} (o : op) (act : node → exn + A * node) :
  (∀ t a t' q, act t = inr (a, t') → apart D q = true → get t' q = get t q) →
  touches_only D (call o act).
Proof.
  intros Hact w q Hq. unfold call.
  destruct (act (fs w)) as [e|[a t]] eqn:E; [done|]. simpl. by eapply Hact.
Qed.

Lemma touches_only_rmtree (D p r : Path) :
  norm p = D ++ r → touches_only D (shutil_rmtree p).
Proof.
  intros Hp. apply touches_only_call. intros t [] t' q ->%rmtree_at_inv Hq.
  apply get_del_apart. rewrite Hp. by apply apart_app_l.
Qed.

Lemma touches_only_copytree (D src dst r : Path) :
  norm dst = D ++ r → touches_only D (shutil_copytree src dst).
Proof.
  intros Hp. apply touches_only_call.
  intros t [] t' q (m & _ & _ & Hput & _)%copytree_at_inv Hq.
  rewrite (get_put_apart _ _ _ _ _ Hput); [done|]. rewrite Hp. by apply apart_app_l.
Qed.

Lemma touches_only_copy (src dst : Path) (name : string) :
  name ≠ pardir → basename src ≠ pardir →
  touches_only (norm dst) (shutil_copy src (dst ++ [name])).
Proof.
  intros Hn Hb. apply touches_only_call.
  intros t [] t' q (data & _ & _ & _ & _ & Hput)%copy_at_inv Hq.
  destruct (copy_target_cases src dst name t Hn Hb) as [E|[_ E]];
    rewrite E in Hput;
    by rewrite (get_put_apart _ _ _ _ _ Hput (apart_app_l _ _ _ Hq)).
Qed.

Lemma touches_only_rmtree_self (p : Path) : touches_only (norm p) (shutil_rmtree p).
Proof. apply (touches_only_rmtree _ _ []). by rewrite app_nil_r. Qed.

Lemma touches_only_copytree_self (src dst : Path) :
  touches_only (norm dst) (shutil_copytree src dst).
Proof. apply (touches_only_copytree _ _ _ []). by rewrite app_nil_r. Qed.

Create HintDb frame.
#[global] Hint Resolve touches_only_ret touches_only_print touches_only_osp_exists
  touches_only_rmtree_self touches_only_copytree_self : frame.
#[global] Hint Extern 2 (touches_only _ (_ ≫= _)) =>
  apply touches_only_bind; [|intros ?] : frame.
#[global] Hint Extern 2 (touches_only _ (if _ then _ else _)) =>
  apply touches_only_if : frame.

Ltac frame_run :=
  lazymatch goal with
  | |- get (fs (final (?m ?w))) ?q = get (fs ?w) ?q =>
      lazymatch goal with
      | Hq : apart ?D q = true |- _ =>
          refine ((_ : touches_only D m) w q Hq)
      end
  end.

Section Frames.
Variable HERE : Path.
Variable which : string → node → option string.
Variable run_process : list string → Path → node → exn + node.
Local Abbreviation build_api_docs := (build_api_docs HERE which run_process).
Local Abbreviation build_examples := (build_examples HERE which run_process).

(** X11: when the marker is present, a run of [build_api_docs], returning
    or raising, changes nothing outside [<out_dir>/api]: every entry
    that branches off that path is as it was. *)
Theorem api_skip_touches_only_dest (out_dir : Path) (w : World) (q : Path) :
  exists_at (fs w) (api_index HERE) = true →
  apart (norm (osp_join out_dir ["api"])) q = true →
  get (fs (final (build_api_docs out_dir w))) q = get (fs w) q.
Proof.
  intros Hhave Hq. unfold build_api_docs. rewrite run_exists_bind, Hhave.
  frame_run.
  pose proof (touches_only_copy (osp_join HERE ["api_index.html"])
                (osp_join out_dir ["api"]) "index.html" ltac:(done)
                ltac:(by rewrite basename_snoc)).
  auto 20 with frame.
Qed.

(** X12: when the marker is present, a run of [build_examples], returning
    or raising, changes nothing outside [<out_dir>/examples]. *)
Theorem examples_skip_touches_only_dest (out_dir : Path) (w : World) (q : Path) :
  exists_at (fs w) (example_index HERE) = true →
  apart (norm (osp_join out_dir ["examples"])) q = true →
  get (fs (final (build_examples out_dir w))) q = get (fs w) q.
Proof.
  intros Hhave Hq. unfold build_examples. rewrite run_exists_bind, Hhave.
  frame_run. auto 20 with frame.
Qed.
End Frames.

(** *** More facts about the file tree *)

Lemma del_dir (m : gmap string node) (p : Path) : ∃ m', del (Dir m) p = Dir m'.
Proof.
  destruct p as [|c [|c' p]]; simpl; eauto.
  destruct (m !! c); eauto.
Qed.

(** [del] below [p] keeps the entry at [p], less what was removed. *)
Lemma get_del_above (t : node) (p r : Path) :
  r ≠ [] → get (del t (p ++ r)) p = (λ n, del n r) <$> get t p.
Proof.
  intros Hr. revert t. induction p as [|c p IH]; intros t; [done|].
  destruct t as [d|m]; [done|]. simpl.
  destruct (p ++ r) as [|c' pr] eqn:E.
  { by destruct p, r. }
  destruct (m !! c) as [t1|] eqn:Hc.
  - cbn [get]. rewrite lookup_insert_eq. apply IH.
  - cbn [get]. by rewrite Hc.
Qed.

Lemma is_dir_del_above (t : node) (p r : Path) :
  r ≠ [] → is_dir (get (del t (p ++ r)) p) = is_dir (get t p).
Proof.
  intros Hr. rewrite get_del_above by done.
  destruct (get t p) as [[d|m]|]; simpl; [by destruct r as [|? [|? ?]]| |done].
  by destruct (del_dir m r) as [m' ->].
Qed.

(** [put] below [p] leaves a directory at [p]. *)
Lemma is_dir_put_above (o : option node) (p r : Path) (v t' : node) :
  put o (p ++ r) v = Some t' → r ≠ [] → is_dir (get t' p) = true.
Proof.
  revert o t'. induction p as [|c p IH]; intros o t' H Hr.
  - destruct r as [|c r]; [done|]. simpl in *.
    destruct o as [[|m]|]; [done| |].
    + by destruct (put (m !! c) r v); simplify_eq.
    + by destruct (put None r v); simplify_eq.
  - simpl in *. destruct o as [[|m]|]; [done| |].
    + destruct (put (m !! c) (p ++ r) v) as [t1|] eqn:E; [|done]. simplify_eq.
      simpl. rewrite lookup_insert_eq. by eapply IH.
    + destruct (put None (p ++ r) v) as [t1|] eqn:E; [|done]. simplify_eq.
      simpl. rewrite lookup_singleton_eq. by eapply IH.
Qed.

Lemma dirs_kept_put (t t' : node) (p : Path) (v : node) :
  put (Some t) p v = Some t' → is_dir (get t p) = false → dirs_kept t t'.
Proof.
  intros Hput Hp q Hq.
  destruct (path_trichotomy p q) as [[r ->]|[[r ->]|E]].
  - destruct r as [|c r]; [rewrite app_nil_r in Hq; congruence|].
    assert (is_dir (get t p) = true); [|congruence].
    apply (get_Some_app_dir t p (c :: r)); [|done].
    by destruct (get t (p ++ c :: r)).
  - destruct r as [|c r]; [rewrite app_nil_r in Hp; congruence|].
    by eapply is_dir_put_above.
  - by rewrite (get_put_apart _ _ _ _ _ Hput E).
Qed.

Lemma resolve_from_kept (t t' : node) (p : Path) (stack stack' : list string) :
  dirs_kept t t' →
  resolve_from t stack p = inr stack' → resolve_from t' stack p = inr stack'.
Proof.
  intros Hk. revert stack. induction p as [|c p IH]; intros stack H; simpl in *; [done|].
  case_decide; [|by apply IH].
  destruct (get t (rev stack)) as [[d|m]|] eqn:E; [done| |done].
  assert (is_dir (get t' (rev stack)) = true) as Hd by (apply Hk; by rewrite E).
  destruct (get t' (rev stack)) as [[d'|m']|]; [done| |done]. by apply IH.
Qed.

Lemma resolve_kept (t t' : node) (p q : Path) :
  dirs_kept t t' → resolve t p = inr q → resolve t' p = inr q.
Proof.
  intros Hk. unfold resolve.
  destruct (resolve_from t [] p) as [e|st] eqn:E; [done|].
  by rewrite (resolve_from_kept _ _ _ _ _ Hk E).
Qed.

Lemma resolve_from_app (t : node) (p q : Path) (stack : list string) :
  resolve_from t stack (p ++ q) =
  match resolve_from t stack p with
  | inl e => inl e
  | inr stack' => resolve_from t stack' q
  end.
Proof.
  revert stack. induction p as [|c p IH]; intros stack; simpl; [done|].
  case_decide; [|apply IH].
  destruct (get t (rev stack)) as [[d|m]|]; [done|apply IH|done].
Qed.

(** A plain name after a path that resolves always resolves. *)
Lemma resolve_snoc (t : node) (p q : Path) (c : string) :
  c ≠ pardir → resolve t p = inr q → resolve t (p ++ [c]) = inr (q ++ [c]).
Proof.
  intros Hc. unfold resolve. rewrite resolve_from_app.
  destruct (resolve_from t [] p) as [e|st]; [done|]. intros [= <-].
  simpl. by rewrite decide_False.
Qed.

Lemma copytree_at_resolve (src dst : Path) (t t1 : node) :
  copytree_at src dst t = inr (tt, t1) →
  resolve t src = inr (norm src) ∧ resolve t dst = inr (norm dst).
Proof.
  unfold copytree_at. intros H.
  destruct (resolve t src) as [e|s] eqn:Es; [done|].
  pose proof (resolve_norm _ _ _ Es) as ->.
  destruct (get t (norm src)) as [[d|m]|]; [done| |done].
  destruct (resolve t dst) as [e|d] eqn:Ed; [done|].
  by pose proof (resolve_norm _ _ _ Ed) as ->.
Qed.

(** [copytree] keeps every directory. *)
Lemma copytree_dirs_kept (src dst : Path) (t t1 : node) :
  copytree_at src dst t = inr (tt, t1) → dirs_kept t t1.
Proof.
  intros (m & _ & Hd & Hput & _)%copytree_at_inv.
  apply (dirs_kept_put _ _ _ _ Hput). by rewrite Hd.
Qed.

(** [copy] keeps every directory. *)
Lemma copy_dirs_kept (src dst : Path) (t t2 : node) :
  copy_at src dst t = inr (tt, t2) → dirs_kept t t2.
Proof.
  intros (data & _ & _ & Hd & _ & Hput)%copy_at_inv.
  by apply (dirs_kept_put _ _ _ _ Hput).
Qed.

(** Removing the destination and copying the source tree there leaves an
    entry of the source tree in place, unless the destination is that
    entry or lies on the way to it. *)
Lemma restage_keeps_entry (src dst : Path) (tw t0 t1 : node) (b : bool) (r : Path) :
  t0 = (if b then del tw (norm dst) else tw) →
  copytree_at src dst t0 = inr (tt, t1) →
  is_Some (get tw (norm src ++ r)) →
  r ≠ [] →
  (∀ r1 r2, r1 ≠ [] → r = r1 ++ r2 → norm dst ≠ norm src ++ r1) →
  get t0 (norm src ++ r) = get tw (norm src ++ r).
Proof.
  intros -> Htree Hsome Hr Hway. destruct b; [|done].
  destruct (copytree_at_inv _ _ _ _ Htree) as (m & Hs & Hd & _ & Hb).
  set (S := norm src) in *. set (D := norm dst) in *.
  destruct (path_trichotomy D (S ++ r)) as [[r' E]|[[r' E]|E]].
  - apply app_eq_inv in E as [(k & E1 & E2)|(k & E1 & E2)].
    + assert (get (del tw D) S = None) by (rewrite E1; by apply get_None_app).
      congruence.
    + destruct k as [|c k].
      * rewrite app_nil_r in E1. congruence.
      * by destruct (Hway (c :: k) r' ltac:(done) E2).
  - destruct r' as [|c' r'].
    { rewrite app_nil_r in E. by destruct (Hway r [] Hr ltac:(by rewrite app_nil_r)). }
    destruct r as [|c r]; [done|].
    assert (D = (S ++ [c]) ++ (r ++ c' :: r')) as E'
      by (by rewrite E, <- !app_assoc).
    assert (is_Some (get (del tw D) (S ++ [c]))) as Hc.
    { rewrite E', get_del_above by by destruct r.
      apply fmap_is_Some. rewrite get_app in Hsome |- *.
      destruct (get tw S) as [tS|]; [|by destruct Hsome]. simpl in *.
      destruct tS as [|mS]; [by destruct Hsome|].
      destruct (mS !! c); [done|by destruct Hsome]. }
    rewrite E, <- app_assoc in Hb. simpl in Hb. rewrite first_below_app in Hb.
    simpl in Hb.
    rewrite get_app, Hs in Hc. simpl in Hc. rewrite Hb in Hc. by destruct Hc.
  - by apply get_del_apart.
Qed.

Section Replicas.
Variable HERE : Path.
Variable which : string → node → option string.
Variable run_process : list string → Path → node → exn + node.
Local Abbreviation build_api_docs := (build_api_docs HERE which run_process).
Local Abbreviation build_examples := (build_examples HERE which run_process).

(** A run of [build_examples] that returned ended with the removal of
    the destination, if it was there, and the copy of the examples tree;
    [tb] is the tree the staging started from. *)
Lemma build_examples_Ok_inv (out_dir : Path) (w w' : World) :
  build_examples out_dir w = Ok tt w' →
  ∃ tb t0,
    (exists_at (fs w) (example_index HERE) = true → tb = fs w) ∧
    t0 = (if exists_at tb (osp_join out_dir ["examples"])
          then del tb (norm (osp_join out_dir ["examples"])) else tb) ∧
    copytree_at (examples_dir HERE) (osp_join out_dir ["examples"]) t0
      = inr (tt, fs w').
Proof.
  unfold build_examples. intros H.
  apply bind_Ok_inv in H as (have & w1 & [-> ->]%query_Ok_inv & H).
  apply bind_Ok_inv in H as ([] & w2 & Hbuild & H).
  apply bind_Ok_inv in H as ([] & w3 & Hprint%print_Ok & H).
  apply bind_Ok_inv in H as (stale & w4 & [-> ->]%query_Ok_inv & H).
  apply bind_Ok_inv in H as ([] & w5 & Hrm & H).
  apply call_Ok_inv in H as (t1 & Htree & ->).
  exists (fs w3), (fs w5). split; [|split; [|done]].
  - intros Hhave. rewrite Hhave in Hbuild. apply print_Ok in Hbuild. congruence.
  - destruct (exists_at (fs w3) (osp_join out_dir ["examples"])).
    + apply call_Ok_inv in Hrm as (t & Hrm & ->). simpl.
      by apply rmtree_at_inv in Hrm.
    + by injection Hrm as <-.
Qed.

(** X17: after a run of [build_examples] that returns, every entry below
    [<out_dir>/examples] is the same entry of the examples directory of
    the documentation sources: nothing of an earlier staging is left.
    When the output is apart from that directory, the two trees are
    equal. *)
Theorem examples_dest_replica (out_dir : Path) (w w' : World) :
  build_examples out_dir w = Ok tt w' →
  (∀ r v, r ≠ [] →
     get (fs w') (norm (osp_join out_dir ["examples"]) ++ r) = Some v →
     get (fs w') (norm (examples_dir HERE) ++ r) = Some v) ∧
  (apart (norm (osp_join out_dir ["examples"])) (norm (examples_dir HERE)) = true →
   ∀ r, get (fs w') (norm (osp_join out_dir ["examples"]) ++ r)
        = get (fs w') (norm (examples_dir HERE) ++ r)).
Proof.
  intros (tb & t0 & _ & _ & Htree)%build_examples_Ok_inv. split.
  - intros r v Hr Hv. rewrite (copytree_get_dst _ _ _ _ _ Htree) in Hv.
    by rewrite (copytree_get_src _ _ _ _ _ Htree), Hv by (by rewrite ?Hv).
  - intros Ha r. rewrite (copytree_get_dst _ _ _ _ _ Htree).
    destruct (copytree_at_inv _ _ _ _ Htree) as (m & _ & _ & Hput & _).
    by rewrite (get_put_apart _ _ _ _ _ Hput (apart_app_r _ _ _ Ha)).
Qed.

Lemma dest_ne_entry (p q : Path) (name : string) (r : Path) :
  name ≠ pardir → name ∉ r →
  ∀ r1 r2, r1 ≠ [] → r = r1 ++ r2 → norm (p ++ [name]) ≠ q ++ r1.
Proof.
  intros Hn Hr r1 r2 H1 -> E. rewrite norm_snoc in E by done.
  destruct r1 as [|c r1 _] using rev_ind; [done|].
  rewrite app_assoc in E. apply app_inj_tail in E as [_ <-].
  apply Hr. apply elem_of_app. left. apply elem_of_app. right.
  by apply list_elem_of_singleton.
Qed.

Lemma examples_marker_kept (out_dir : Path) (w w' : World) :
  exists_at (fs w) (example_index HERE) = true →
  build_examples out_dir w = Ok tt w' →
  exists_at (fs w') (example_index HERE) = true.
Proof.
  intros Hhave (tb & t0 & Htb & Ht0 & Htree)%build_examples_Ok_inv.
  rewrite (Htb Hhave) in Ht0. clear Htb tb.
  set (r := ["accordionpanel"; "index.html"]).
  assert (example_index HERE = examples_dir HERE ++ r) as Ei by done.
  assert (norm (example_index HERE) = norm (examples_dir HERE) ++ r) as En.
  { rewrite Ei. apply norm_join_plain. intros H. elem_cases H; discriminate. }
  pose proof (exists_at_is_Some _ _ Hhave) as Hsome. rewrite En in Hsome.
  assert (get t0 (norm (examples_dir HERE) ++ r) = get (fs w) (norm (examples_dir HERE) ++ r))
    as E0.
  { apply (restage_keeps_entry _ _ _ _ _ _ _ Ht0 Htree Hsome); [done|].
    apply dest_ne_entry; [done|]. intros H. elem_cases H; discriminate. }
  destruct (copytree_at_resolve _ _ _ _ Htree) as [Hres _].
  apply (resolve_kept _ _ _ _ (copytree_dirs_kept _ _ _ _ Htree)) in Hres.
  assert (resolve (fs w') (example_index HERE) = inr (norm (example_index HERE))) as Hri.
  { rewrite En, Ei. unfold r.
    rewrite (app_assoc _ ["accordionpanel"] ["index.html"]).
    rewrite (app_assoc _ ["accordionpanel"] ["index.html"]).
    by do 2 (apply resolve_snoc; [done|]). }
  unfold exists_at, node_at. rewrite Hri, En.
  rewrite (copytree_get_src _ _ _ _ _ Htree) by (by rewrite ?E0).
  rewrite E0. by destruct Hsome as [v ->].
Qed.
Lemma api_marker_kept (out_dir : Path) (w w' : World) :
  exists_at (fs w) (api_index HERE) = true →
  build_api_docs out_dir w = Ok tt w' →
  exists_at (fs w') (api_index HERE) = true.
Proof.
  intros Hhave Hrun.
  destruct (build_api_docs_Ok_inv HERE which run_process out_dir w w' Hrun)
    as (tb & t0 & t1 & Htb & Ht0 & Htree & Hcopy).
  rewrite (Htb Hhave) in Ht0. clear Htb tb.
  set (r := ["algorithm"; "index.html"]).
  assert (api_index HERE = docs_api HERE ++ r) as Ei by done.
  assert (norm (api_index HERE) = norm (docs_api HERE) ++ r) as En.
  { rewrite Ei. apply norm_join_plain. intros H. elem_cases H; discriminate. }
  pose proof (exists_at_is_Some _ _ Hhave) as Hsome. rewrite En in Hsome.
  assert (get t0 (norm (docs_api HERE) ++ r) = get (fs w) (norm (docs_api HERE) ++ r))
    as E0.
  { apply (restage_keeps_entry _ _ _ _ _ _ _ Ht0 Htree Hsome); [done|].
    apply dest_ne_entry; [done|]. intros H. elem_cases H; discriminate. }
  destruct (copytree_at_resolve _ _ _ _ Htree) as [Hres _].
  apply (resolve_kept _ _ _ _ (copytree_dirs_kept _ _ _ _ Htree)) in Hres.
  apply (resolve_kept _ _ _ _ (copy_dirs_kept _ _ _ _ Hcopy)) in Hres.
  assert (resolve (fs w') (api_index HERE) = inr (norm (api_index HERE))) as Hri.
  { rewrite En, Ei. unfold r.
    rewrite (app_assoc _ ["algorithm"] ["index.html"]).
    rewrite (app_assoc _ ["algorithm"] ["index.html"]).
    by do 2 (apply resolve_snoc; [done|]). }
  unfold exists_at, node_at. rewrite Hri, En.
  rewrite (overlay_keeps_tree _ _ _ "index.html" _ _ _ ltac:(done)
             ltac:(by rewrite api_page_basename) Htree Hcopy) by (by rewrite ?E0).
  rewrite E0. by destruct Hsome as [v ->].
Qed.
(** X13: the skip is stable.  When a run of [build_api_docs] finds the
    marker and returns, the marker is still there afterwards, whatever
    the output directory: the next run skips the build as well. *)
Theorem api_skip_stable (out_dir : Path) (w w' : World) :
  exists_at (fs w) (api_index HERE) = true →
  build_api_docs out_dir w = Ok tt w' →
  exists_at (fs w') (api_index HERE) = true.
Proof. apply api_marker_kept. Qed.

(** X14: the same for [build_examples]: a run that finds the marker of
    the first example and returns leaves the marker in place. *)
Theorem examples_skip_stable (out_dir : Path) (w w' : World) :
  exists_at (fs w) (example_index HERE) = true →
  build_examples out_dir w = Ok tt w' →
  exists_at (fs w') (example_index HERE) = true.
Proof. apply examples_marker_kept. Qed.

End Replicas.

(** Removing [p] forgets what was placed below [p]. *)
Lemma del_put_under (t t2 : node) (p r : Path) (v : node) :
  p ≠ [] → put (Some t) (p ++ r) v = Some t2 → is_Some (get t p) →
  del t2 p = del t p.
Proof.
  revert t t2. induction p as [|c p IH]; intros t t2 Hp Hput Hsome; [done|].
  destruct t as [d|m]; [done|]. simpl in Hput, Hsome.
  destruct (m !! c) as [tc|] eqn:Hc; [|by destruct Hsome].
  destruct (put (Some tc) (p ++ r) v) as [t'|] eqn:E; [|done]. simplify_eq.
  destruct p as [|c2 p].
  - simpl. by rewrite delete_insert_eq.
  - cbn [del]. rewrite lookup_insert_eq, Hc, insert_insert_eq.
    do 2 f_equal. by apply IH.
Qed.

Lemma put_cons_dir (m : gmap string node) (c : string) (p : Path) (v : node) :
  put (Some (Dir m)) (c :: p) v =
  match put (m !! c) p v with
  | Some t' => Some (Dir (<[c := t']> m))
  | None => None
  end.
Proof. done. Qed.

Lemma put_cons_none (c : string) (p : Path) (v : node) :
  put None (c :: p) v =
  match put None p v with
  | Some t' => Some (Dir {[c := t']})
  | None => None
  end.
Proof. done. Qed.

Lemma del_cons_cons (m : gmap string node) (c c2 : string) (p : Path) :
  del (Dir m) (c :: c2 :: p) =
  match m !! c with
  | Some t' => Dir (<[c := del t' (c2 :: p)]> m)
  | None => Dir m
  end.
Proof. done. Qed.

(** Placing [v] at [p] again, after removing it, gives the same tree. *)
Lemma put_del_put (o : option node) (t1 : node) (p : Path) (v : node) :
  p ≠ [] → put o p v = Some t1 → (o ≫= λ t, get t p) = None →
  put (Some (del t1 p)) p v = Some t1.
Proof.
  revert o t1. induction p as [|c p IH]; intros o t1 Hp Hput Hnone; [done|].
  destruct p as [|c2 p].
  - simpl in *. destruct o as [[d|m]|]; [done| |]; simplify_eq; simpl.
    + by rewrite insert_delete_eq, insert_insert_eq.
    + by rewrite insert_delete_eq, insert_singleton_eq.
  - destruct o as [[d|m]|]; [done| |].
    + rewrite put_cons_dir in Hput.
      destruct (put (m !! c) (c2 :: p) v) as [t'|] eqn:E; [|done]. simplify_eq.
      rewrite del_cons_cons, lookup_insert_eq, insert_insert_eq.
      rewrite put_cons_dir, lookup_insert_eq.
      rewrite (IH (m !! c) t' ltac:(done) E); [by rewrite insert_insert_eq|].
      simpl in Hnone. by destruct (m !! c).
    + rewrite put_cons_none in Hput.
      destruct (put None (c2 :: p) v) as [t'|] eqn:E; [|done]. simplify_eq.
      rewrite del_cons_cons, lookup_singleton_eq, insert_singleton_eq.
      rewrite put_cons_dir, lookup_singleton_eq.
      rewrite (IH None t' ltac:(done) E); [by rewrite insert_singleton_eq|done].
Qed.

(** Removing what [put] placed at a fresh location keeps every directory
    that was there before. *)
Lemma dirs_kept_put_del (t0 t1 : node) (p : Path) (v : node) :
  p ≠ [] → put (Some t0) p v = Some t1 → get t0 p = None →
  dirs_kept t0 (del t1 p).
Proof.
  intros Hp Hput Hnone q Hq.
  destruct (path_trichotomy p q) as [[r ->]|[[r ->]|E]].
  - by rewrite (get_None_app _ _ _ Hnone) in Hq.
  - destruct r as [|c r].
    { rewrite app_nil_r in Hnone. by rewrite Hnone in Hq. }
    rewrite is_dir_del_above by done. by eapply is_dir_put_above.
  - rewrite (get_del_apart _ _ _ E). by rewrite (get_put_apart _ _ _ _ _ Hput E).
Qed.

(** Staging again: after [copytree src dst] from a tree where [dst] was
    absent, removing [dst] and copying once more gives the same tree,
    when [dst] is apart from [src]. *)
Lemma copytree_again (src dst : Path) (t0 t1 : node) :
  copytree_at src dst t0 = inr (tt, t1) →
  norm dst ≠ [] →
  apart (norm dst) (norm src) = true →
  copytree_at src dst (del t1 (norm dst)) = inr (tt, t1).
Proof.
  intros Htree Hne Ha.
  destruct (copytree_at_inv _ _ _ _ Htree) as (m & Hs & Hd & Hput & Hb).
  destruct (copytree_at_resolve _ _ _ _ Htree) as [Hrs Hrd].
  pose proof (dirs_kept_put_del _ _ _ _ Hne Hput Hd) as Hk.
  unfold copytree_at.
  rewrite (resolve_kept _ _ _ _ Hk Hrs), (resolve_kept _ _ _ _ Hk Hrd).
  rewrite (get_del_apart _ _ _ Ha), (get_put_apart _ _ _ _ _ Hput Ha). simpl.
  rewrite Hs.
  pose proof (get_del_under t1 (norm dst) [] Hne) as Hgone.
  rewrite app_nil_r in Hgone. rewrite Hgone.
  rewrite (put_del_put (Some t0) t1 _ _ Hne Hput Hd). by rewrite Hb.
Qed.

Section Again.
Variable HERE : Path.
Variable which : string → node → option string.
Variable run_process : list string → Path → node → exn + node.
Local Abbreviation build_api_docs := (build_api_docs HERE which run_process).
Local Abbreviation build_examples := (build_examples HERE which run_process).

(** X16: staging the examples again changes nothing.  After a run of
    [build_examples] that found the marker and returned, with the output
    apart from the examples directory of the sources, a second run
    returns as well and leaves the file tree exactly as the first one
    did. *)
Theorem examples_restage_idempotent (out_dir : Path) (w w' : World) :
  exists_at (fs w) (example_index HERE) = true →
  apart (norm (osp_join out_dir ["examples"])) (norm (examples_dir HERE)) = true →
  build_examples out_dir w = Ok tt w' →
  ∃ w'', build_examples out_dir w' = Ok tt w'' ∧ fs w'' = fs w'.
Proof.
  intros Hhave Ha Hrun.
  pose proof (examples_marker_kept HERE which run_process out_dir w w' Hhave Hrun) as Hhave'.
  destruct (build_examples_Ok_inv HERE which run_process out_dir w w' Hrun)
    as (tb & t0 & _ & _ & Htree).
  set (dst := osp_join out_dir ["examples"]) in *.
  assert (norm dst ≠ []) as Hne.
  { unfold dst, osp_join. rewrite norm_snoc by done. by destruct (norm out_dir). }
  destruct (copytree_at_inv _ _ _ _ Htree) as (m & _ & _ & Hput & _).
  destruct (copytree_at_resolve _ _ _ _ Htree) as [_ Hrd].
  apply (resolve_kept _ _ _ _ (copytree_dirs_kept _ _ _ _ Htree)) in Hrd.
  pose proof (get_put_eq _ _ _ _ Hput) as Hd1.
  assert (exists_at (fs w') dst = true) as Hstale.
  { unfold exists_at, node_at. by rewrite Hrd, Hd1. }
  assert (rmtree_at dst (fs w') = inr (tt, del (fs w') (norm dst))) as Hrm.
  { unfold rmtree_at. rewrite Hrd, Hd1. by rewrite decide_False. }
  pose proof (copytree_again _ _ _ _ Htree Hne Ha) as Hagain.
  eexists. unfold build_examples. rewrite run_exists_bind, Hhave'.
  unfold print, shutil_rmtree, shutil_copytree, osp_exists, call, query, mbind, M_bind.
  cbn [fs record with_fs]. fold dst. rewrite Hstale. cbn [fs record with_fs].
  rewrite Hrm. cbn [fs record with_fs]. rewrite Hagain. done.
Qed.
(** X15: staging the API documentation again changes nothing.  After a
    run of [build_api_docs] that found the marker and returned, with the
    output apart from the generated tree, a second run returns as well
    and leaves the file tree exactly as the first one did. *)
Theorem api_restage_idempotent (out_dir : Path) (w w' : World) :
  exists_at (fs w) (api_index HERE) = true →
  apart (norm (osp_join out_dir ["api"])) (norm (docs_api HERE)) = true →
  build_api_docs out_dir w = Ok tt w' →
  ∃ w'', build_api_docs out_dir w' = Ok tt w'' ∧ fs w'' = fs w'.
Proof.
  intros Hhave Ha Hrun.
  pose proof (api_marker_kept HERE which run_process out_dir w w' Hhave Hrun) as Hhave'.
  destruct (build_api_docs_Ok_inv HERE which run_process out_dir w w' Hrun)
    as (tb & t0 & t1 & _ & _ & Htree & Hcopy).
  set (dst := osp_join out_dir ["api"]) in *.
  assert (norm dst ≠ []) as Hne.
  { unfold dst, osp_join. rewrite norm_snoc by done. by destruct (norm out_dir). }
  destruct (copytree_at_inv _ _ _ _ Htree) as (m & _ & _ & Hput & _).
  destruct (copytree_at_resolve _ _ _ _ Htree) as [_ Hrd].
  apply (resolve_kept _ _ _ _ (copytree_dirs_kept _ _ _ _ Htree)) in Hrd.
  apply (resolve_kept _ _ _ _ (copy_dirs_kept _ _ _ _ Hcopy)) in Hrd.
  pose proof (get_put_eq _ _ _ _ Hput) as Hd1.
  assert (is_dir (get (fs w') (norm dst)) = true) as Hd2.
  { apply (copy_dirs_kept _ _ _ _ Hcopy). by rewrite Hd1. }
  assert (exists_at (fs w') dst = true) as Hstale.
  { unfold exists_at, node_at. rewrite Hrd. by destruct (get (fs w') (norm dst)). }
  assert (del (fs w') (norm dst) = del t1 (norm dst)) as Hdel.
  { destruct (copy_at_inv _ _ _ _ Hcopy) as (data & _ & _ & _ & _ & Hput2).
    destruct (copy_target_cases (HERE ++ ["api_index.html"]) dst "index.html" t1
                ltac:(done) ltac:(by rewrite basename_snoc)) as [E|[_ E]];
      unfold osp_join in Hput2; rewrite E in Hput2;
      apply (del_put_under _ _ _ _ _ Hne Hput2); by rewrite Hd1. }
  assert (rmtree_at dst (fs w') = inr (tt, del t1 (norm dst))) as Hrm.
  { unfold rmtree_at. rewrite Hrd, <- Hdel.
    destruct (get (fs w') (norm dst)) as [[d|m']|]; [done| |done].
    by rewrite decide_False. }
  pose proof (copytree_again _ _ _ _ Htree Hne Ha) as Hagain.
  eexists. unfold build_api_docs. rewrite run_exists_bind, Hhave'.
  unfold print, shutil_rmtree, shutil_copytree, shutil_copy, osp_exists, call, query,
    mbind, M_bind.
  cbn [fs record with_fs]. fold dst. rewrite Hstale. cbn [fs record with_fs].
  rewrite Hrm. cbn [fs record with_fs]. rewrite Hagain. cbn [fs record with_fs].
  rewrite Hcopy. done.
Qed.
End Again.

(** *** Where the examples are read and written *)

Lemma rev_tail_rev {A : Type} (l : list A) : rev (tail (rev l)) = removelast l.
Proof.
  destruct l as [|x l _] using rev_ind; [done|].
  by rewrite rev_unit, removelast_last; simpl; rewrite rev_involutive.
Qed.

Lemma norm_snoc_pardir (p : Path) : norm (p ++ [pardir]) = removelast (norm p).
Proof.
  rewrite norm_app. simpl. unfold norm_step. rewrite decide_True by done.
  apply rev_tail_rev.
Qed.

(** A sibling of the last component of [P] is apart from everything below
    [P/source], unless that sibling is itself named [source]. *)
Lemma apart_beside_source (P : Path) (c x : string) (rest : Path) :
  c ≠ "source" → x ≠ "source" →
  apart (P ++ "source" :: rest) (removelast P ++ [c; x]) = true.
Proof.
  intros Hc Hx. destruct P as [|a P _] using rev_ind.
  - simpl. by rewrite decide_False.
  - rewrite removelast_last, <- app_assoc, apart_app_same. simpl.
    case_decide; [|done]. by rewrite decide_False.
Qed.

Section ExamplePaths.
Variable HERE : Path.

Lemma norm_docs : norm (docs HERE) = removelast (norm HERE).
Proof. apply norm_snoc_pardir. Qed.

Lemma norm_example_dest (e : string) :
  e ≠ pardir →
  norm (example_dest HERE e) = norm (docs HERE) ++ ["source"; "examples"; e].
Proof.
  intros He. apply norm_join_plain. intros H. elem_cases H; [discriminate..|by subst e].
Qed.

Lemma norm_examples_dir :
  norm (examples_dir HERE) = norm (docs HERE) ++ ["source"; "examples"].
Proof. apply norm_join_plain. intros H. elem_cases H; discriminate. Qed.

Lemma norm_example_source (e : string) :
  norm (example_source HERE e)
  = removelast (norm (docs HERE)) ++ ["examples"; "example-" +:+ e].
Proof.
  unfold example_source, osp_join. rewrite norm_join_plain.
  - f_equal. apply norm_snoc_pardir.
  - intros H. elem_cases H; discriminate.
Qed.

(** The build output of an example is apart from the place of every
    example in the documentation sources. *)
Lemma example_dest_apart_source (e e' : string) (r : Path) :
  e' ≠ pardir →
  apart (norm (example_dest HERE e')) (norm (example_source HERE e) ++ r) = true.
Proof.
  intros He'. rewrite norm_example_dest, norm_example_source by done.
  apply apart_app_r, apart_beside_source; discriminate.
Qed.

Lemma example_dest_apart_dest (e e' : string) (r : Path) :
  e ≠ pardir → e' ≠ pardir → e ≠ e' →
  apart (norm (example_dest HERE e')) (norm (example_dest HERE e) ++ r) = true.
Proof.
  intros He He' Hne. rewrite !norm_example_dest by done.
  apply apart_app_r. rewrite apart_app_same. simpl. by rewrite decide_False by congruence.
Qed.

End ExamplePaths.

Section ExamplesBuilt.
Variable HERE : Path.
Variable which : string → node → option string.
Variable run_process : list string → Path → node → exn + node.
Local Abbreviation build_examples := (build_examples HERE which run_process).
Local Abbreviation example_dest := (example_dest HERE).
Local Abbreviation example_source := (example_source HERE).
Local Abbreviation copy_example := (copy_example HERE).
Local Abbreviation example_in_place := (example_in_place HERE).

Lemma copy_example_Ok_inv (e : string) (w w' : World) :
  copy_example e w = Ok tt w' →
  ∃ t0, t0 = (if exists_at (fs w) (example_dest e)
              then del (fs w) (norm (example_dest e)) else fs w) ∧
        copytree_at (example_source e) (example_dest e) t0 = inr (tt, fs w').
Proof.
  unfold copy_example. intros H.
  apply bind_Ok_inv in H as ([] & w1 & Hprint%print_Ok & H).
  apply bind_Ok_inv in H as (stale & w2 & [-> ->]%query_Ok_inv & H).
  apply bind_Ok_inv in H as ([] & w3 & Hrm & H).
  apply call_Ok_inv in H as (t1 & Htree & ->).
  exists (fs w3). split; [|done]. rewrite <- Hprint.
  fold (docs HERE) (root HERE).
  change (osp_join (docs HERE) ["source"; "examples"; e]) with (example_dest e) in *.
  destruct (exists_at (fs w1) (example_dest e)).
  - apply call_Ok_inv in Hrm as (t & Hrm & ->). simpl. by apply rmtree_at_inv in Hrm.
  - by injection Hrm as <-.
Qed.

Lemma copy_example_in_place (e : string) (w w' : World) :
  e ≠ pardir → copy_example e w = Ok tt w' → example_in_place e (fs w').
Proof.
  intros He (t0 & _ & Htree)%copy_example_Ok_inv r.
  rewrite (copytree_get_dst _ _ _ _ _ Htree).
  destruct (copytree_at_inv _ _ _ _ Htree) as (m & _ & _ & Hput & _).
  by rewrite (get_put_apart _ _ _ _ _ Hput (example_dest_apart_source HERE e e r He)).
Qed.

Lemma touches_only_copy_example (e : string) :
  touches_only (norm (example_dest e)) (copy_example e).
Proof. unfold copy_example. auto 20 with frame. Qed.

Lemma example_in_place_kept (e e' : string) (w : World) :
  e ≠ pardir → e' ≠ pardir → e ≠ e' →
  example_in_place e (fs w) → example_in_place e (fs (final (copy_example e' w))).
Proof.
  intros He He' Hne Hin r.
  rewrite !(touches_only_copy_example e' w)
    by (by apply example_dest_apart_dest || by apply example_dest_apart_source).
  apply Hin.
Qed.

(** A run of [build_examples] that built and returned: the three copies
    into the documentation sources returned one after the other, and the
    run ended with the staging of the examples tree, started in the tree
    the last copy left. *)
Lemma build_examples_built_inv (out_dir : Path) (w w' : World) :
  exists_at (fs w) (example_index HERE) = false →
  build_examples out_dir w = Ok tt w' →
  ∃ wa w1 w2 w3 t0,
    copy_example "accordionpanel" wa = Ok tt w1 ∧
    copy_example "datagrid" w1 = Ok tt w2 ∧
    copy_example "dockpanel" w2 = Ok tt w3 ∧
    t0 = (if exists_at (fs w3) (osp_join out_dir ["examples"])
          then del (fs w3) (norm (osp_join out_dir ["examples"])) else fs w3) ∧
    copytree_at (examples_dir HERE) (osp_join out_dir ["examples"]) t0
      = inr (tt, fs w').
Proof.
  unfold build_examples. intros Hhave H.
  apply bind_Ok_inv in H as (have & w0 & [-> ->]%query_Ok_inv & H).
  rewrite Hhave in H.
  apply bind_Ok_inv in H as ([] & wb & Hbuild & H).
  apply bind_Ok_inv in Hbuild as ([] & ? & _ & Hbuild).
  apply bind_Ok_inv in Hbuild as (npm & ? & _ & Hbuild).
  apply bind_Ok_inv in Hbuild as ([] & ? & _ & Hbuild).
  apply bind_Ok_inv in Hbuild as (yarn & ? & _ & Hbuild).
  apply bind_Ok_inv in Hbuild as ([] & ? & _ & Hbuild).
  apply bind_Ok_inv in Hbuild as ([] & ? & _ & Hbuild).
  apply bind_Ok_inv in Hbuild as ([] & wa & _ & Hloop).
  cbn [for_in EXAMPLES] in Hloop.
  apply bind_Ok_inv in Hloop as ([] & w1 & H1 & Hloop).
  apply bind_Ok_inv in Hloop as ([] & w2 & H2 & Hloop).
  apply bind_Ok_inv in Hloop as ([] & w3 & H3 & Hloop).
  injection Hloop as <-.
  apply bind_Ok_inv in H as ([] & w4 & Hprint%print_Ok & H).
  apply bind_Ok_inv in H as (stale & w5 & [-> ->]%query_Ok_inv & H).
  apply bind_Ok_inv in H as ([] & w6 & Hrm & H).
  apply call_Ok_inv in H as (t1 & Htree & ->).
  exists wa, w1, w2, w3, (fs w6). split; [done|]. split; [done|]. split; [done|].
  split; [|done]. rewrite <- Hprint.
  destruct (exists_at (fs w4) (osp_join out_dir ["examples"])).
  - apply call_Ok_inv in Hrm as (t & Hrm & ->). simpl. by apply rmtree_at_inv in Hrm.
  - by injection Hrm as <-.
Qed.

(** X18: after a run of [build_examples] that built and returned, with
    the output apart from the examples of the sources and of the
    repository, every named example is in place: its directory in the
    documentation sources and its directory below [<out_dir>/examples]
    both hold exactly what its build output
    [<root>/examples/example-<name>] holds. *)
Theorem examples_built_in_place (out_dir : Path) (w w' : World) (e : string) (r : Path) :
  exists_at (fs w) (example_index HERE) = false →
  build_examples out_dir w = Ok tt w' →
  apart (norm (osp_join out_dir ["examples"])) (norm (examples_dir HERE)) = true →
  apart (norm (osp_join out_dir ["examples"]))
        (norm (osp_join (root HERE) ["examples"])) = true →
  e ∈ EXAMPLES →
  get (fs w') (norm (example_dest e) ++ r) = get (fs w') (norm (example_source e) ++ r) ∧
  get (fs w') (norm (osp_join out_dir ["examples"]) ++ e :: r)
  = get (fs w') (norm (example_source e) ++ r).
Proof.
  intros Hhave Hrun Hout1 Hout2 He.
  destruct (build_examples_built_inv out_dir w w' Hhave Hrun)
    as (wa & w1 & w2 & w3 & t0 & H1 & H2 & H3 & Ht0 & Htree).
  set (D := norm (osp_join out_dir ["examples"])) in *.
  assert (e ≠ pardir) as Hpar by (unfold EXAMPLES in He; elem_cases He; by subst e).
  (* the copy in the sources, when the last copy returned *)
  assert (example_in_place e (fs w3)) as Hplace.
  { pose proof (copy_example_in_place "accordionpanel" _ _ ltac:(done) H1) as P1.
    pose proof (copy_example_in_place "datagrid" _ _ ltac:(done) H2) as P2.
    pose proof (copy_example_in_place "dockpanel" _ _ ltac:(done) H3) as P3.
    pose proof (example_in_place_kept "accordionpanel" "datagrid" w1
                  ltac:(done) ltac:(done) ltac:(done) P1) as P12.
    rewrite H2 in P12. simpl in P12.
    pose proof (example_in_place_kept "accordionpanel" "dockpanel" w2
                  ltac:(done) ltac:(done) ltac:(done) P12) as P13.
    pose proof (example_in_place_kept "datagrid" "dockpanel" w2
                  ltac:(done) ltac:(done) ltac:(done) P2) as P23.
    rewrite H3 in P13, P23. simpl in P13, P23.
    unfold EXAMPLES in He. elem_cases He; by subst e. }
  (* what the staging leaves alone *)
  assert (∀ q, apart D q = true → get (fs w') q = get (fs w3) q) as Hframe.
  { intros q Hq. destruct (copytree_at_inv _ _ _ _ Htree) as (m & _ & _ & Hput & _).
    rewrite (get_put_apart _ _ _ _ _ Hput Hq). simpl. rewrite Ht0.
    destruct (exists_at (fs w3) (osp_join out_dir ["examples"])); [|done].
    by apply get_del_apart. }
  assert (norm (example_dest e) = norm (examples_dir HERE) ++ [e]) as Ed.
  { rewrite norm_example_dest, norm_examples_dir by done. by rewrite <- app_assoc. }
  assert (norm (example_source e)
          = norm (osp_join (root HERE) ["examples"]) ++ ["example-" +:+ e]) as Es.
  { unfold example_source, osp_join.
    rewrite (norm_join_plain _ ["examples"; _]), (norm_join_plain _ ["examples"]).
    - by rewrite <- app_assoc.
    - intros H. elem_cases H; discriminate.
    - intros H. elem_cases H; discriminate. }
  assert (get (fs w') (norm (example_dest e) ++ r)
          = get (fs w') (norm (example_source e) ++ r)) as Hsrc.
  { rewrite !Hframe.
    - apply Hplace.
    - rewrite Es. by do 2 apply apart_app_r.
    - rewrite Ed. by do 2 apply apart_app_r. }
  split; [done|]. rewrite <- Hsrc.
  change (e :: r) with ([e] ++ r). rewrite (copytree_get_dst _ _ _ _ _ Htree).
  rewrite Ed, <- app_assoc. rewrite Hframe by (by apply apart_app_r).
  rewrite Ht0. destruct (exists_at (fs w3) (osp_join out_dir ["examples"])); [|done].
  apply get_del_apart. by apply apart_app_r.
Qed.

End ExamplesBuilt.

Lemma rmtree_at_nonempty (p : Path) (t t' : node) :
  rmtree_at p t = inr (tt, t') → norm p ≠ [].
Proof.
  unfold rmtree_at. destruct (resolve t p) as [e|q] eqn:E; [done|].
  apply resolve_norm in E as ->.
  destruct (get t (norm p)) as [[d|m]|]; [done| |done].
  by case_decide.
Qed.

Lemma run_print_bind {B : Type} (msg : string) (k : unit → M B) (w : World) :
  (print msg ≫= k) w = k tt (record (OPrint msg) Done w).
Proof. unfold print. by rewrite run_call_bind, with_fs_same. Qed.

(** The staging pattern of both routines, up to the copy: once the part
    before it has returned in [wb], the destination is removed if it
    exists, and [tail] runs in the tree that leaves. *)
Lemma restage_prefix (build tail : M unit) (msg : string) (dst : Path) (w wb : World) :
  propagates build → propagates tail →
  build w = Ok tt wb →
  let m := (build;;
            print msg;;
            stale ← osp_exists dst;
            (if stale : bool then shutil_rmtree dst else mret tt);;
            tail) in
  (∃ e, exists_at (fs wb) dst = true ∧ rmtree_at dst (fs wb) = inl e ∧
        fs (final (m w)) = fs wb ∧
        emitted m w = emitted build w
                      ++ [succeeded (OPrint msg); (ORmtree dst, Failed e)]) ∨
  (∃ w5,
     fs w5 = (if exists_at (fs wb) dst then del (fs wb) (norm dst) else fs wb) ∧
     (exists_at (fs wb) dst = true → norm dst ≠ []) ∧
     m w = tail w5 ∧
     emitted m w = emitted build w ++ [succeeded (OPrint msg)]
                   ++ (if exists_at (fs wb) dst then [succeeded (ORmtree dst)] else [])
                   ++ emitted tail w5).
Proof.
  intros Pb Pt Hb m. subst m.
  rewrite emitted_bind by auto 30 with propagate.
  rewrite (run_bind build _ w), Hb.
  rewrite emitted_print_bind by (intros; auto 30 with propagate).
  rewrite run_print_bind.
  rewrite emitted_exists_bind by (intros; auto 30 with propagate).
  rewrite run_exists_bind. cbn [fs record with_fs].
  destruct (exists_at (fs wb) dst).
  - unfold shutil_rmtree. rewrite emitted_call_bind by (intros; auto 30 with propagate).
    rewrite run_call_bind. cbn [fs record with_fs].
    destruct (rmtree_at dst (fs wb)) as [e|[[] t0]] eqn:Hrm; cbn [outcome_of].
    + left. by exists e.
    + right. pose proof (rmtree_at_nonempty _ _ _ Hrm).
      apply rmtree_at_inv in Hrm as ->.
      eexists. split_and!; [| |reflexivity|reflexivity]; done.
  - right. rewrite emitted_bind by (intros; auto 30 with propagate).
    rewrite emitted_ret, run_bind. cbn [mret M_ret app].
    eexists. split_and!; [| |reflexivity|reflexivity]; done.
Qed.

(** A failure logged by a sequence, but not by its first part, happened
    after the first part returned. *)
Lemma bind_failed_later {A B : Type} (m : M A) (k : A → M B) (w : World)
    (o : op) (e : exn) :
  propagates m → (∀ a, propagates (k a)) →
  (o, Failed e) ∈ emitted (m ≫= k) w →
  (o, Failed e) ∉ emitted m w →
  ∃ a w1, m w = Ok a w1 ∧ (o, Failed e) ∈ emitted (k a) w1 ∧ (m ≫= k) w = k a w1.
Proof.
  intros Pm Pk Hin Hnot. rewrite emitted_bind in Hin by done. rewrite run_bind.
  apply elem_of_app in Hin as [Hin|Hin]; [done|].
  destruct (m w) as [a w1|e' w1]; [by exists a, w1|by elem_cases Hin].
Qed.

(** A failure logged by the first part of a sequence ends the sequence. *)
Lemma bind_failed_here {A B : Type} (m : M A) (k : A → M B) (w : World)
    (o : op) (e : exn) :
  propagates m → (o, Failed e) ∈ emitted m w →
  final ((m ≫= k) w) = final (m w).
Proof.
  intros Pm Hin. destruct (failed_is_last m w o e Pm Hin) as (l & w' & Hr & _).
  by rewrite run_bind, Hr.
Qed.

(** *** Resolving the paths below the documentation directory *)

Lemma resolve_from_plain (t : node) (p : Path) (stack : list string) :
  pardir ∉ p → resolve_from t stack p = inr (rev p ++ stack).
Proof.
  revert stack. induction p as [|c p IH]; intros stack Hp; [done|].
  apply not_elem_of_cons in Hp as [Hc Hp]. simpl.
  rewrite decide_False by done. rewrite IH by done. by rewrite <- app_assoc.
Qed.

Lemma norm_plain (p : Path) : pardir ∉ p → norm p = p.
Proof.
  intros Hp. unfold norm. rewrite fold_norm_step_plain by done.
  by rewrite app_nil_r, rev_involutive.
Qed.

Section DocsPaths.
Variable HERE : Path.
Hypothesis HERE_plain : pardir ∉ HERE.

(** A path below [HERE/..] resolves exactly when [HERE] is a directory. *)
Lemma resolve_below_docs (t : node) (names : list string) :
  pardir ∉ names →
  resolve t (docs HERE ++ names) =
  match get t HERE with
  | Some (Dir _) => inr (norm (docs HERE ++ names))
  | Some (File _) => inl NotADirectoryError
  | None => inl (lookup_error t HERE)
  end.
Proof.
  intros Hn. unfold resolve, docs, osp_join. rewrite <- app_assoc.
  rewrite resolve_from_app, resolve_from_plain by done. cbn [app resolve_from].
  rewrite decide_True by done. rewrite app_nil_r, rev_involutive.
  destruct (get t HERE) as [[d|m]|]; [done| |done].
  rewrite resolve_from_plain by done.
  change (HERE ++ pardir :: names) with (HERE ++ [pardir] ++ names).
  rewrite app_assoc.
  rewrite norm_join_plain, norm_snoc_pardir, norm_plain by done.
  by rewrite rev_app_distr, rev_involutive, rev_tail_rev.
Qed.

Lemma exists_below_docs (t : node) (names : list string) :
  pardir ∉ names →
  is_dir (get t HERE) = true →
  exists_at t (docs HERE ++ names)
  = bool_decide (is_Some (get t (norm (docs HERE ++ names)))).
Proof.
  intros Hn Hd. unfold exists_at, node_at. rewrite resolve_below_docs by done.
  destruct (get t HERE) as [[d|m]|]; [done| |done].
  destruct (get t (norm (docs HERE ++ names))) as [v|].
  - by rewrite bool_decide_true.
  - rewrite bool_decide_false; [done|]. by intros [? ?].
Qed.

(** [HERE] is not inside the place of an example. *)
Lemma here_not_below_example (e : string) (r : Path) :
  e ≠ pardir → HERE ≠ norm (example_dest HERE e) ++ r.
Proof.
  intros He H. apply (f_equal length) in H.
  rewrite norm_example_dest, norm_docs, norm_plain in H by done.
  rewrite !length_app in H. simpl in H.
  destruct HERE as [|a l _] using rev_ind; [simpl in H; lia|].
  rewrite removelast_last, length_app in H. simpl in H. lia.
Qed.

End DocsPaths.

(** What lies outside [p] is a directory after [del] if it was before. *)
Lemma is_dir_del_outside (t : node) (p q : Path) :
  (∀ r, q ≠ p ++ r) → is_dir (get (del t p) q) = is_dir (get t q).
Proof.
  intros Hout. destruct (path_trichotomy p q) as [[r ->]|[[r ->]|E]].
  - by destruct (Hout r).
  - destruct r as [|c r]; [by destruct (Hout []); rewrite !app_nil_r|].
    by apply is_dir_del_above.
  - by rewrite (get_del_apart _ _ _ E).
Qed.

Section PartialCopy.
Variable HERE : Path.
Variable which : string → node → option string.
Variable run_process : list string → Path → node → exn + node.
Hypothesis HERE_plain : pardir ∉ HERE.
Local Abbreviation build_examples := (build_examples HERE which run_process).
Local Abbreviation example_dest := (example_dest HERE).
Local Abbreviation example_source := (example_source HERE).
Local Abbreviation copy_example := (copy_example HERE).
Local Abbreviation example_in_place := (example_in_place HERE).

Lemma exists_example_dest (t : node) (e : string) :
  e ≠ pardir → is_dir (get t HERE) = true →
  exists_at t (example_dest e)
  = bool_decide (is_Some (get t (norm (example_dest e)))).
Proof.
  intros He Hd. apply (exists_below_docs HERE HERE_plain t ["source"; "examples"; e]); [|done].
  intros H. elem_cases H; [discriminate..|by subst e].
Qed.

(** Every outcome of one pass of the loop, in terms of the tree. *)
Lemma copy_example_cases (e : string) (w : World) :
  e ≠ pardir → is_dir (get (fs w) HERE) = true →
  let t0 := if bool_decide (is_Some (get (fs w) (norm (example_dest e))))
            then del (fs w) (norm (example_dest e)) else fs w in
  (∃ x, emitted (copy_example e) w
        = [succeeded (OPrint ("Copying " +:+ path_str (example_source e) +:+ " -> "
                              +:+ path_str (example_dest e)));
           (ORmtree (example_dest e), Failed x)] ∧
        fs (final (copy_example e w)) = fs w) ∨
  (get t0 (norm (example_dest e)) = None ∧
   is_dir (get t0 HERE) = true ∧
   ∃ l, emitted (copy_example e) w
        = l ++ [(OCopytree (example_source e) (example_dest e),
                 outcome_of (copytree_at (example_source e) (example_dest e) t0))] ∧
        Forall (λ y, ∀ s d, y.1 ≠ OCopytree s d) l ∧
        fs (final (copy_example e w))
        = match copytree_at (example_source e) (example_dest e) t0 with
          | inr (_, t1) => t1
          | inl _ => t0
          end).
Proof.
  intros He Hd. cbv zeta.
  assert (pardir ∉ ["source"; "examples"; e]) as Hn.
  { intros H. elem_cases H; [discriminate..|by subst e]. }
  unfold copy_example. fold (docs HERE) (root HERE).
  change (osp_join (docs HERE) ["source"; "examples"; e]) with (example_dest e).
  change (osp_join (root HERE) ["examples"; "example-" +:+ e]) with (example_source e).
  rewrite emitted_print_bind, run_print_bind by (intros; auto 20 with propagate).
  rewrite emitted_exists_bind, run_exists_bind by (intros; auto 20 with propagate).
  cbn [fs record].
  rewrite !exists_example_dest by done.
  destruct (bool_decide (is_Some (get (fs w) (norm (example_dest e))))) eqn:Hstale.
  - unfold shutil_rmtree.
    rewrite emitted_call_bind, run_call_bind by (intros; auto 20 with propagate).
    cbn [fs record].
    destruct (rmtree_at (example_dest e) (fs w)) as [x|[[] t0]] eqn:Hrm; cbn [outcome_of].
    + left. by exists x.
    + right. pose proof (rmtree_at_nonempty _ _ _ Hrm) as Hne.
      apply rmtree_at_inv in Hrm as ->.
      split; [by rewrite <- (app_nil_r (norm _)) at 2; apply get_del_under|].
      split.
      { rewrite is_dir_del_outside; [done|]. intros r. by apply here_not_below_example. }
      unfold shutil_copytree. rewrite emitted_call. unfold call. cbn [fs record with_fs].
      eexists [_; _]. split; [done|]. split; [by repeat constructor|].
      by destruct (copytree_at _ _ _) as [?|[[] ?]].
  - right. apply bool_decide_eq_false in Hstale.
    split; [by destruct (get (fs w) (norm (example_dest e))); [destruct Hstale|]|].
    split; [done|].
    rewrite emitted_bind by (intros; auto 20 with propagate).
    rewrite emitted_ret, run_bind. cbn [mret M_ret app].
    unfold shutil_copytree. rewrite emitted_call. unfold call. cbn [fs record with_fs].
    eexists [_]. split; [done|]. split; [by repeat constructor|].
    by destruct (copytree_at _ _ _) as [?|[[] ?]].
Qed.

(** The only [copytree] a pass of the loop makes goes to the place of its
    own example. *)
Lemma copy_example_emits (e : string) (w : World) (s d : Path) (r : outcome) :
  (OCopytree s d, r) ∈ emitted (copy_example e) w → d = example_dest e.
Proof.
  assert (obeys (copy_example e) w
            (λ sc, ∀ s d, OCopytree s d ∈ sc → d = example_dest e)) as (sc & Hsc & Hf).
  { unfold copy_example. repeat obey_step. intros s' d' Hel.
    repeat match goal with
           | Hx : context [if ?b then _ else _] |- _ => destruct b
           end; elem_cases Hel; try discriminate; by injection Hel as _ ->. }
  intros Hin. by apply (Hsc s), (follows_elem_of _ _ _ _ _ Hf Hin).
Qed.

Lemma copy_example_Ok_here (e : string) (w w' : World) :
  e ≠ pardir → copy_example e w = Ok tt w' → is_dir (get (fs w') HERE) = true.
Proof.
  intros He (t0 & _ & Htree)%copy_example_Ok_inv.
  apply (copytree_dirs_kept _ _ _ _ Htree).
  destruct (copytree_at_resolve _ _ _ _ Htree) as [_ Hres].
  change (example_dest e) with (docs HERE ++ ["source"; "examples"; e]) in Hres.
  rewrite resolve_below_docs in Hres.
  - by destruct (get t0 HERE) as [[?|?]|].
  - done.
  - intros H. elem_cases H; [discriminate..|by subst e].
Qed.

Lemma copy_example_here_kept (e : string) (w : World) :
  e ≠ pardir → is_dir (get (fs w) HERE) = true →
  is_dir (get (fs (final (copy_example e w))) HERE) = true.
Proof.
  intros He Hd.
  destruct (copy_example_cases e w He Hd) as [(x & _ & ->)|(_ & Hd0 & l & _ & _ & ->)];
    [done|].
  destruct (copytree_at _ _ _) as [?|[[] t1]] eqn:Htree; [done|].
  by apply (copytree_dirs_kept _ _ _ _ Htree).
Qed.

(** A pass of the loop whose copy fails leaves nothing at the place of
    its example. *)
Lemma copy_example_failed (e : string) (w : World) (x : exn) :
  e ≠ pardir → is_dir (get (fs w) HERE) = true →
  (OCopytree (example_source e) (example_dest e), Failed x) ∈ emitted (copy_example e) w →
  get (fs (final (copy_example e w))) (norm (example_dest e)) = None.
Proof.
  intros He Hd Hin.
  destruct (copy_example_cases e w He Hd)
    as [(x' & E & _)|(Hgone & _ & l & E & Hl & ->)]; rewrite E in Hin.
  - elem_cases Hin; discriminate.
  - apply elem_of_app in Hin as [Hin|Hin].
    + rewrite Forall_forall in Hl. by destruct (Hl _ Hin (example_source e) (example_dest e)).
    + apply list_elem_of_singleton in Hin.
      destruct (copytree_at _ _ _) as [?|[[] t1]]; [done|discriminate].
Qed.

Lemma emitted_print (msg : string) (w : World) :
  emitted (print msg) w = [succeeded (OPrint msg)].
Proof. unfold print. by rewrite emitted_call. Qed.

(** A run of [build_examples] in which the copy of an example failed:
    the examples before it were copied one after the other, starting in
    some world [wl], and the run ended in the pass that failed. *)
Lemma build_examples_failed_copy_inv (out_dir : Path) (w : World) (e : string) (x : exn) :
  (OCopytree (example_source e) (example_dest e), Failed x)
    ∈ emitted (build_examples out_dir) w →
  ∃ wl,
    (OCopytree (example_source e) (example_dest e), Failed x)
      ∈ emitted (for_in EXAMPLES copy_example) wl ∧
    final (build_examples out_dir w) = final (for_in EXAMPLES copy_example wl).
Proof.
  intros Hin.
  destruct (exists_at (fs w) (example_index HERE)) eqn:Hhave.
  { exfalso.
    destruct (build_examples_script HERE which run_process out_dir w)
      as (sc & (npm & yarn & st1 & st2 & st3 & stale & -> & _) & Hs).
    pose proof (follows_elem_of _ _ _ _ _ Hs Hin) as Hop.
    rewrite Hhave in Hop. unfold examples_script, restage_script in Hop.
    destruct stale; elem_cases Hop; try discriminate;
      injection Hop as Hop _; by apply (example_source_ne HERE) in Hop. }
  revert Hin. unfold build_examples.
  pose proof (propagates_copy_example HERE) as Pc.
  rewrite emitted_exists_bind by (intros; auto 40 with propagate).
  rewrite run_exists_bind, Hhave.
  intros Hin.
  (* the failure is not in the final staging *)
  rewrite emitted_bind in Hin by (intros; auto 40 with propagate).
  apply elem_of_app in Hin as [Hin|Hin].
  2:{ exfalso.
      lazymatch type of Hin with
      | _ ∈ match ?b w with _ => _ end => destruct (b w) as [[] wb|? ?]
      end; [|by elem_cases Hin].
      rewrite emitted_print_bind in Hin by (intros; auto 40 with propagate).
      rewrite emitted_exists_bind in Hin by (intros; auto 40 with propagate).
      elem_cases Hin; [discriminate|].
      rewrite emitted_bind in Hin by (intros; auto 40 with propagate).
      apply elem_of_app in Hin as [Hin|Hin].
      - lazymatch type of Hin with
        | _ ∈ emitted (if ?b then _ else _) _ => destruct b
        end; [|by rewrite emitted_ret in Hin; elem_cases Hin].
        unfold shutil_rmtree in Hin. rewrite emitted_call in Hin.
        elem_cases Hin; discriminate.
      - lazymatch type of Hin with
        | _ ∈ match ?r with _ => _ end => destruct r as [[] ?|? ?]
        end; [|by elem_cases Hin].
        unfold shutil_copytree in Hin. rewrite emitted_call in Hin.
        elem_cases Hin. injection Hin as Hin _.
        by apply (example_source_ne HERE) in Hin. }
  erewrite (bind_failed_here _ _ w) by (auto 40 with propagate || exact Hin).
  (* the build chain returned *)
  apply bind_failed_later in Hin as ([] & ? & _ & Hin & ->);
    [|auto 40 with propagate..|rewrite emitted_print; intros H; by elem_cases H].
  apply bind_failed_later in Hin as (npm & ? & _ & Hin & ->);
    [|auto 40 with propagate..|unfold shutil_which; rewrite emitted_query; intros H; by elem_cases H].
  apply bind_failed_later in Hin as ([] & ? & _ & Hin & ->);
    [|auto 40 with propagate..|unfold check_call; rewrite emitted_call; intros H; by elem_cases H].
  apply bind_failed_later in Hin as (yarn & ? & _ & Hin & ->);
    [|auto 40 with propagate..|unfold shutil_which; rewrite emitted_query; intros H; by elem_cases H].
  apply bind_failed_later in Hin as ([] & ? & _ & Hin & ->);
    [|auto 40 with propagate..|unfold check_call; rewrite emitted_call; intros H; by elem_cases H].
  apply bind_failed_later in Hin as ([] & ? & _ & Hin & ->);
    [|auto 40 with propagate..|unfold check_call; rewrite emitted_call; intros H; by elem_cases H].
  apply bind_failed_later in Hin as ([] & wl & _ & Hin & ->);
    [|auto 40 with propagate..|unfold check_call; rewrite emitted_call; intros H; by elem_cases H].
  by exists wl.
Qed.

Lemma example_index_below_docs :
  example_index HERE
  = docs HERE ++ ["source"; "examples"; "accordionpanel"; "index.html"].
Proof. unfold example_index, examples_dir, osp_join. by rewrite <- app_assoc. Qed.

Lemma norm_example_index :
  norm (example_index HERE) = norm (example_dest "accordionpanel") ++ ["index.html"].
Proof.
  rewrite example_index_below_docs.
  change (docs HERE ++ ["source"; "examples"; "accordionpanel"; "index.html"])
    with (docs HERE ++ ["source"; "examples"; "accordionpanel"] ++ ["index.html"]).
  rewrite app_assoc. by apply norm_snoc.
Qed.

(** X19: a partial copy sets the marker.  When [build_examples] builds
    and the copy of the second or third example fails, the run ends with
    that example missing from the documentation sources, but with the
    first example copied; so if the build output of the first example
    has an [index.html], the marker exists, and later runs skip both the
    build and the copies (C10) although the sources are incomplete.
    Here [HERE] is a plain path, as [osp.abspath] returns it. *)
Theorem examples_partial_copy_sets_marker (out_dir : Path) (w : World) (e : string)
    (x : exn) :
  e = "datagrid" ∨ e = "dockpanel" →
  (OCopytree (example_source e) (example_dest e), Failed x)
    ∈ emitted (build_examples out_dir) w →
  let t := fs (final (build_examples out_dir w)) in
  get t (norm (example_dest e)) = None ∧
  (∀ r, get t (norm (example_dest "accordionpanel") ++ r)
        = get t (norm (example_source "accordionpanel") ++ r)) ∧
  (is_Some (get t (norm (example_source "accordionpanel") ++ ["index.html"])) →
   exists_at t (example_index HERE) = true).
Proof.
  intros He Hin. cbv zeta.
  destruct (build_examples_failed_copy_inv out_dir w e x Hin) as (wl & Hl & ->).
  clear Hin. pose proof (propagates_copy_example HERE) as Pc.
  cbn [for_in EXAMPLES] in Hl |- *.
  (* the first example was copied *)
  apply bind_failed_later in Hl as ([] & w1 & H1 & Hl & ->);
    [|auto 20 with propagate..|].
  2:{ intros H%copy_example_emits%example_dest_inj. by destruct He; subst e. }
  pose proof (copy_example_in_place HERE "accordionpanel" _ _ ltac:(done) H1) as P1.
  pose proof (copy_example_Ok_here "accordionpanel" _ _ ltac:(done) H1) as D1.
  assert (∀ w', is_dir (get (fs w') HERE) = true →
                example_in_place "accordionpanel" (fs w') →
                get (fs w') (norm (example_dest e)) = None →
                get (fs w') (norm (example_dest e)) = None ∧
                (∀ r, get (fs w') (norm (example_dest "accordionpanel") ++ r)
                      = get (fs w') (norm (example_source "accordionpanel") ++ r)) ∧
                (is_Some (get (fs w') (norm (example_source "accordionpanel")
                                       ++ ["index.html"])) →
                 exists_at (fs w') (example_index HERE) = true)) as Hend.
  { intros w' Hd Hp Hgone. split; [done|]. split; [done|]. intros Hsome.
    rewrite example_index_below_docs.
    rewrite exists_below_docs; [|done|intros H; elem_cases H; discriminate|done].
    apply bool_decide_eq_true.
    by rewrite <- example_index_below_docs, norm_example_index, Hp. }
  destruct He as [-> | ->].
  - (* the copy of datagrid failed *)
    assert ((OCopytree (example_source "datagrid") (example_dest "datagrid"), Failed x)
              ∈ emitted (copy_example "datagrid") w1) as Hdg.
    { rewrite emitted_bind in Hl by auto 20 with propagate.
      apply elem_of_app in Hl as [Hl|Hl]; [done|]. exfalso.
      destruct (copy_example "datagrid" w1) as [[] w2|? ?]; [|by elem_cases Hl].
      rewrite emitted_bind in Hl by auto 20 with propagate.
      apply elem_of_app in Hl as [Hl|Hl].
      - by apply copy_example_emits, example_dest_inj in Hl.
      - destruct (copy_example "dockpanel" w2) as [[] ?|? ?];
          [rewrite emitted_ret in Hl|]; by elem_cases Hl. }
    erewrite (bind_failed_here _ _ w1) by (auto 20 with propagate || exact Hdg).
    apply Hend.
    + by apply copy_example_here_kept.
    + by apply (example_in_place_kept HERE "accordionpanel" "datagrid").
    + by apply (copy_example_failed "datagrid" w1 x).
  - (* datagrid was copied, the copy of dockpanel failed *)
    apply bind_failed_later in Hl as ([] & w2 & H2 & Hl & ->);
      [|auto 20 with propagate..|].
    2:{ by intros H%copy_example_emits%example_dest_inj. }
    pose proof (example_in_place_kept HERE "accordionpanel" "datagrid" w1
                  ltac:(done) ltac:(done) ltac:(done) P1) as P2.
    pose proof (copy_example_here_kept "datagrid" w1 ltac:(done) D1) as D2.
    rewrite H2 in P2, D2. simpl in P2, D2.
    assert ((OCopytree (example_source "dockpanel") (example_dest "dockpanel"), Failed x)
              ∈ emitted (copy_example "dockpanel") w2) as Hdk.
    { rewrite emitted_bind in Hl by auto 20 with propagate.
      apply elem_of_app in Hl as [Hl|Hl]; [done|]. exfalso.
      destruct (copy_example "dockpanel" w2) as [[] ?|? ?];
        [rewrite emitted_ret in Hl|]; by elem_cases Hl. }
    erewrite (bind_failed_here _ _ w2) by (auto 20 with propagate || exact Hdk).
    apply Hend.
    + by apply copy_example_here_kept.
    + by apply (example_in_place_kept HERE "accordionpanel" "dockpanel").
    + by apply (copy_example_failed "dockpanel" w2 x).
Qed.

End PartialCopy.

(** ** Failures: every step is fatal *)

Lemma refines_ret : refines (mret tt) inr.
Proof. done. Qed.

Lemma refines_call (o : op) (act : node → exn + unit * node) :
  refines (call o act) (λ t, and_then (inr t) act).
Proof. intros w. unfold call. simpl. by destruct (act (fs w)) as [e|[[] t]]. Qed.

Lemma refines_print (msg : string) : refines (print msg) inr.
Proof. done. Qed.

Lemma refines_bind (m : M unit) (k : unit → M unit) (f g : node → exn + node) :
  refines m f → refines (k tt) g →
  refines (m ≫= k) (λ t, match f t with inl e => inl e | inr t' => g t' end).
Proof.
  intros Hm Hk w. rewrite run_bind. specialize (Hm w).
  destruct (m w) as [[] w1|e w1]; simpl in Hm; rewrite <- Hm; [apply Hk|done].
Qed.

Lemma refines_query_bind {A : Type} (q : node → A) (k : A → M unit)
    (g : A → node → exn + node) :
  (∀ a, refines (k a) (g a)) →
  refines (query q ≫= k) (λ t, g (q t) t).
Proof. intros Hk w. apply Hk. Qed.

Lemma refines_ext (m : M unit) (f g : node → exn + node) :
  refines m f → (∀ t, f t = g t) → refines m g.
Proof. intros Hm Hfg w. by rewrite <- Hfg. Qed.

Lemma and_then_bind (r : exn + node) (act : node → exn + unit * node) :
  match r with inl e => inl e | inr t => and_then (inr t) act end = and_then r act.
Proof. by destruct r. Qed.

Section FailFastProofs.

Variable HERE : Path.
Variable which : string → node → option string.
Variable run_process : list string → Path → node → exn + node.
Variable json_loads : string → exn + pyval.

Local Abbreviation build_api_docs := (build_api_docs HERE which run_process).
Local Abbreviation build_examples := (build_examples HERE which run_process).
Local Abbreviation setup := (setup HERE which run_process).
Local Abbreviation load_manifest := (load_manifest HERE json_loads).
Local Abbreviation fail_fast_build := (fail_fast_build HERE which run_process).
Local Abbreviation api_built_tree := (api_built_tree HERE which run_process).
Local Abbreviation examples_built_tree := (examples_built_tree HERE which run_process).
Local Abbreviation fail_fast_api_docs := (fail_fast_api_docs HERE which run_process).
Local Abbreviation fail_fast_examples := (fail_fast_examples HERE which run_process).
Local Abbreviation fail_fast_setup := (fail_fast_setup HERE which run_process).
Local Abbreviation fail_fast_manifest := (fail_fast_manifest HERE json_loads).

(** Staging, from the message on. *)
Lemma refines_stage (msg : string) (src dst : Path) :
  refines (print msg;;
           stale ← osp_exists dst;
           (if stale : bool then shutil_rmtree dst else mret tt);;
           shutil_copytree src dst)
          (λ t, fail_fast_stage src dst (inr t)).
Proof.
  intros w. rewrite run_print_bind, run_exists_bind. cbn [fs record].
  unfold fail_fast_stage, shutil_rmtree, shutil_copytree.
  destruct (exists_at (fs w) dst).
  - rewrite run_call_bind. cbn [fs record]. unfold and_then at 2.
    destruct (rmtree_at dst (fs w)) as [e|[[] t0]]; [done|].
    apply (refines_call _ _ (record _ _ (with_fs t0 _))).
  - rewrite run_bind. cbn [mret M_ret].
    apply (refines_call _ _ (record _ _ w)).
Qed.

Lemma run_which_bind {B : Type} (cmd : string) (k : option string → M B) (w : World) :
  (shutil_which which cmd ≫= k) w = k (which cmd (fs w)) w.
Proof. reflexivity. Qed.

Lemma run_check_call_bind {B : Type} (args : list (option string)) (cwd : Path)
    (k : unit → M B) (w : World) :
  (check_call run_process args cwd ≫= k) w =
  match check_call_at run_process args cwd (fs w) with
  | inl e => Raise e (record (OCheckCall args cwd) (Failed e) w)
  | inr (a, t) => k a (record (OCheckCall args cwd) Done (with_fs t w))
  end.
Proof. apply run_call_bind. Qed.

Lemma refines_check_call (args : list (option string)) (cwd : Path) :
  refines (check_call run_process args cwd)
    (λ t, and_then (inr t) (check_call_at run_process args cwd)).
Proof. apply refines_call. Qed.

(** The build chain of [build_api_docs] (lines 114-119). *)
Lemma refines_api_chain :
  refines (print "Building lumino API docs";;
           npm ← shutil_which which "npm";
           check_call run_process ([npm] ++ [Some "install"; Some "-g"; Some "yarn"]) (root HERE);;
           yarn ← shutil_which which "yarn";
           check_call run_process [yarn] (root HERE);;
           check_call run_process ([yarn] ++ [Some "docs"]) (root HERE))
          (fail_fast_build ["docs"]).
Proof.
  intros w. unfold fail_fast_build, and_then. cbn [foldl].
  rewrite run_print_bind, run_which_bind, run_check_call_bind.
  cbn [fs record with_fs app].
  destruct (check_call_at run_process _ (root HERE) (fs w)) as [e|[[] t1]]; [done|].
  rewrite run_which_bind, run_check_call_bind. cbn [fs record with_fs app].
  destruct (check_call_at run_process [which "yarn" t1] (root HERE) t1) as [e|[[] t2]];
    [done|].
  unfold check_call, call. cbn [fs record with_fs].
  by destruct (check_call_at run_process _ (root HERE) t2) as [e|[[] t3]].
Qed.

(** The build chain of [build_examples] (lines 141-147). *)
Lemma refines_examples_chain (k : M unit) (g : node → exn + node) :
  refines k g →
  refines (print "Building lumino examples";;
           npm ← shutil_which which "npm";
           check_call run_process ([npm] ++ [Some "install"; Some "-g"; Some "yarn"]) (root HERE);;
           yarn ← shutil_which which "yarn";
           check_call run_process [yarn] (root HERE);;
           check_call run_process ([yarn] ++ [Some "build"]) (root HERE);;
           check_call run_process ([yarn] ++ [Some "build:examples"]) (root HERE);;
           k)
          (λ t, match fail_fast_build ["build"; "build:examples"] t with
                | inl e => inl e
                | inr t' => g t'
                end).
Proof.
  intros Hk w. unfold fail_fast_build, and_then. cbn [foldl].
  rewrite run_print_bind, run_which_bind, run_check_call_bind.
  cbn [fs record with_fs app].
  destruct (check_call_at run_process _ (root HERE) (fs w)) as [e|[[] t1]]; [done|].
  rewrite run_which_bind, run_check_call_bind. cbn [fs record with_fs app].
  destruct (check_call_at run_process [which "yarn" t1] (root HERE) t1) as [e|[[] t2]];
    [done|].
  rewrite run_check_call_bind. cbn [fs record with_fs app].
  destruct (check_call_at run_process [which "yarn" t1; Some "build"] (root HERE) t2)
    as [e|[[] t3]]; [done|].
  rewrite run_check_call_bind. cbn [fs record with_fs app].
  destruct (check_call_at run_process [which "yarn" t1; Some "build:examples"]
              (root HERE) t3) as [e|[[] t4]]; [done|].
  apply (Hk (record _ _ (with_fs t4 _))).
Qed.

Lemma refines_copy_example (e : string) :
  refines (copy_example HERE e)
    (λ t, fail_fast_stage (example_source HERE e) (example_dest HERE e) (inr t)).
Proof. apply refines_stage. Qed.

(** Staging followed by more. *)
Lemma refines_stage_then (msg : string) (src dst : Path) (k : M unit)
    (g : node → exn + node) :
  refines k g →
  refines (print msg;;
           stale ← osp_exists dst;
           (if stale : bool then shutil_rmtree dst else mret tt);;
           shutil_copytree src dst;;
           k)
          (λ t, match fail_fast_stage src dst (inr t) with
                | inl e => inl e
                | inr t' => g t'
                end).
Proof.
  intros Hk w. rewrite run_print_bind, run_exists_bind. cbn [fs record].
  unfold fail_fast_stage, and_then, shutil_rmtree, shutil_copytree.
  destruct (exists_at (fs w) dst).
  - rewrite run_call_bind. cbn [fs record].
    destruct (rmtree_at dst (fs w)) as [e|[[] t0]]; [done|].
    rewrite run_call_bind. cbn [fs record with_fs].
    destruct (copytree_at src dst t0) as [e|[[] t1]]; [done|].
    apply (Hk (record _ _ (with_fs t1 _))).
  - rewrite run_bind. cbn [mret M_ret]. rewrite run_call_bind. cbn [fs record with_fs].
    destruct (copytree_at src dst (fs w)) as [e|[[] t1]]; [done|].
    apply (Hk (record _ _ (with_fs t1 _))).
Qed.

Lemma refines_build_api_docs (out_dir : Path) :
  refines (build_api_docs out_dir) (fail_fast_api_docs out_dir).
Proof.
  intros w. unfold build_api_docs. rewrite run_exists_bind.
  unfold fail_fast_api_docs, api_built_tree.
  pose proof (refines_stage_then
                ("Copying " +:+ path_str (docs_api HERE) +:+ " -> "
                 +:+ path_str (osp_join out_dir ["api"]))
                (docs_api HERE) (osp_join out_dir ["api"])
                (shutil_copy (api_page HERE) (api_dest_index out_dir))
                (λ t, and_then (inr t) (copy_at (api_page HERE) (api_dest_index out_dir)))
                (refines_call _ _)) as Hstage.
  destruct (exists_at (fs w) (api_index HERE)).
  - rewrite run_print_bind. rewrite (Hstage (record _ _ w)). cbn [fs record].
    by destruct (fail_fast_stage _ _ _).
  - rewrite (refines_bind _ _ _ _ refines_api_chain Hstage w).
    destruct (fail_fast_build ["docs"] (fs w)) as [e|tb]; [done|].
    by destruct (fail_fast_stage _ _ _).
Qed.

Lemma refines_build_examples (out_dir : Path) :
  refines (build_examples out_dir) (fail_fast_examples out_dir).
Proof.
  intros w. unfold build_examples. rewrite run_exists_bind.
  unfold fail_fast_examples, examples_built_tree.
  pose proof (refines_stage
                ("Copying " +:+ path_str (examples_dir HERE) +:+ " -> "
                 +:+ path_str (osp_join out_dir ["examples"]))
                (examples_dir HERE) (osp_join out_dir ["examples"])) as Hstage.
  destruct (exists_at (fs w) (example_index HERE)).
  - rewrite run_print_bind. by rewrite (Hstage (record _ _ w)).
  - assert (refines (for_in EXAMPLES (copy_example HERE))
              (λ t, foldl (λ r e, fail_fast_stage (example_source HERE e)
                                    (example_dest HERE e) r) (inr t) EXAMPLES)) as Hloop.
    { cbn [for_in EXAMPLES foldl].
      eapply refines_ext.
      - apply refines_bind; [apply refines_copy_example|].
        apply refines_bind; [apply refines_copy_example|].
        apply refines_bind; [apply refines_copy_example|apply refines_ret].
      - intros t. cbn beta.
        destruct (fail_fast_stage (example_source HERE "accordionpanel")
                    (example_dest HERE "accordionpanel") (inr t)) as [e|t1]; [done|].
        destruct (fail_fast_stage (example_source HERE "datagrid")
                    (example_dest HERE "datagrid") (inr t1)) as [e|t2]; [done|].
        by destruct (fail_fast_stage (example_source HERE "dockpanel")
                    (example_dest HERE "dockpanel") (inr t2)) as [e|t3]. }
    pose proof (refines_examples_chain _ _ Hloop) as Hchain.
    rewrite (refines_bind _ _ _ _ Hchain Hstage w). cbn beta.
    destruct (fail_fast_build ["build"; "build:examples"] (fs w)) as [e|tb]; [done|].
    by destruct (foldl _ (inr tb) EXAMPLES).
Qed.

Lemma refines_add_css_file (filename : string) :
  refines (add_css_file filename) inr.
Proof. by intros w. Qed.

Lemma refines_setup (app : App) :
  refines (setup app) (fail_fast_setup app).
Proof.
  eapply refines_ext.
  - unfold setup. apply refines_bind; [apply refines_call|].
    apply refines_bind; [apply refines_add_css_file|].
    apply refines_bind; [apply refines_build_api_docs|apply refines_build_examples].
  - intros t. unfold fail_fast_setup. cbn beta.
    by destruct (and_then (inr t) _) as [e|t1].
Qed.

Lemma load_manifest_fail_fast (w : World) :
  version_result (load_manifest w) = fail_fast_manifest (fs w).
Proof.
  unfold version_result, load_manifest, read_text, attempt, fail_fast_manifest.
  rewrite run_call_bind.
  destruct (read_text_at (package_json HERE) (fs w)) as [e|[text t]]; [done|].
  rewrite run_call_bind.
  destruct (json_loads text) as [e|data]; [done|].
  rewrite run_call_bind.
  by destruct (getitem_str data "version") as [e|v].
Qed.

Lemma raised_aborts {A : Type} (m : M A) (w w' : World) (e : exn) :
  propagates m → m w = Raise e w' → aborts m w e.
Proof.
  intros Pm Hr. destruct (emitted_raised m w w' e Pm Hr) as (l & o & El & Hl).
  by exists w', l, o.
Qed.

Lemma refines_aborts (m : M unit) (f : node → exn + node) (w : World) (e : exn) :
  propagates m → refines m f → f (fs w) = inl e → aborts m w e.
Proof.
  intros Pm Hm Hf. specialize (Hm w). rewrite Hf in Hm.
  destruct (m w) as [[] w'|e' w'] eqn:Hr; [done|].
  simpl in Hm. injection Hm as ->. by apply (raised_aborts m w w').
Qed.

Lemma api_aborts (out_dir : Path) (w : World) (e : exn) :
  fail_fast_api_docs out_dir (fs w) = inl e → aborts (build_api_docs out_dir) w e.
Proof.
  apply refines_aborts;
    [apply propagates_build_api_docs | apply refines_build_api_docs].
Qed.

Lemma examples_aborts (out_dir : Path) (w : World) (e : exn) :
  fail_fast_examples out_dir (fs w) = inl e → aborts (build_examples out_dir) w e.
Proof.
  apply refines_aborts;
    [apply propagates_build_examples | apply refines_build_examples].
Qed.

Lemma setup_aborts (app : App) (w : World) (e : exn) :
  fail_fast_setup app (fs w) = inl e → aborts (setup app) w e.
Proof.
  apply refines_aborts; [apply propagates_setup | apply refines_setup].
Qed.

Lemma fail_fast_build_npm_missing (targets : list string) (t : node) :
  which "npm" t = None → fail_fast_build targets t = inl TypeError.
Proof.
  intros Hnpm. unfold fail_fast_build, and_then, check_call_at. by rewrite Hnpm.
Qed.

Lemma foldl_and_then_inl {X : Type} (e : exn) (acts : X → node → exn + unit * node)
    (l : list X) :
  foldl (λ r x, and_then r (acts x)) (inl e) l = inl e.
Proof. by induction l. Qed.

Lemma fail_fast_build_yarn_missing (targets : list string) (t t1 : node) :
  check_call_at run_process [which "npm" t; Some "install"; Some "-g"; Some "yarn"]
    (root HERE) t = inr (tt, t1) →
  which "yarn" t1 = None →
  fail_fast_build targets t = inl TypeError.
Proof.
  intros Hinst Hyarn. unfold fail_fast_build, and_then at 1. rewrite Hinst.
  rewrite Hyarn.
  assert (and_then (inr t1) (check_call_at run_process [None] (root HERE))
          = inl TypeError) as -> by done.
  apply (foldl_and_then_inl TypeError
           (λ target, check_call_at run_process [None; Some target] (root HERE))).
Qed.

Lemma fail_fast_build_install_fails (targets : list string) (t : node) (npm : string)
    (e : exn) :
  which "npm" t = Some npm →
  run_process [npm; "install"; "-g"; "yarn"] (root HERE) t = inl e →
  fail_fast_build targets t = inl e.
Proof.
  intros Hnpm Hrun. unfold fail_fast_build, and_then, check_call_at. rewrite Hnpm.
  cbn [mapM id mbind option_bind mret option_ret]. by rewrite Hrun.
Qed.

Lemma fail_fast_api_build_fails (out_dir : Path) (t : node) (e : exn) :
  exists_at t (api_index HERE) = false →
  fail_fast_build ["docs"] t = inl e →
  fail_fast_api_docs out_dir t = inl e.
Proof.
  intros Hhave Hb. unfold fail_fast_api_docs, api_built_tree. by rewrite Hhave, Hb.
Qed.

Lemma fail_fast_examples_build_fails (out_dir : Path) (t : node) (e : exn) :
  exists_at t (example_index HERE) = false →
  fail_fast_build ["build"; "build:examples"] t = inl e →
  fail_fast_examples out_dir t = inl e.
Proof.
  intros Hhave Hb. unfold fail_fast_examples, examples_built_tree. by rewrite Hhave, Hb.
Qed.

Lemma no_handler_holds (out_dir : Path) (app : App) :
  no_handler HERE which run_process json_loads out_dir app.
Proof.
  pose proof (propagates_load_manifest HERE json_loads) as P1.
  pose proof (propagates_build_api_docs HERE which run_process out_dir) as P2.
  pose proof (propagates_build_examples HERE which run_process out_dir) as P3.
  pose proof (propagates_setup HERE which run_process app) as P4.
  split; [done|]. intros w o e.
  split_and!; intros Hin.
  - destruct (failed_is_last _ _ _ _ P1 Hin) as (l & w' & Hr & El & Hl). by exists w', l, o.
  - destruct (failed_is_last _ _ _ _ P2 Hin) as (l & w' & Hr & El & Hl). by exists w', l, o.
  - destruct (failed_is_last _ _ _ _ P3 Hin) as (l & w' & Hr & El & Hl). by exists w', l, o.
  - destruct (failed_is_last _ _ _ _ P4 Hin) as (l & w' & Hr & El & Hl). by exists w', l, o.
Qed.

Lemma fails_fast_holds (out_dir : Path) (app : App) :
  fails_fast HERE which run_process json_loads out_dir app.
Proof.
  split_and!.
  - apply load_manifest_fail_fast.
  - apply refines_build_api_docs.
  - apply refines_build_examples.
  - apply refines_setup.
Qed.

Lemma missing_key_aborts_holds : missing_key_aborts HERE json_loads.
Proof.
  intros w text d Hfile Hjson Hkey.
  pose proof (load_manifest_fail_fast w) as Hm.
  unfold version_result, fail_fast_manifest in Hm.
  rewrite (read_text_at_node_at _ _ _ Hfile), Hjson in Hm. simpl in Hm. rewrite Hkey in Hm.
  destruct (load_manifest w) as [mf w'|e' w'] eqn:Hr; [done|].
  injection Hm as ->.
  by apply (raised_aborts _ w w' _ (propagates_load_manifest HERE json_loads)).
Qed.

Lemma missing_tool_aborts_holds (out_dir : Path) :
  missing_tool_aborts HERE which run_process out_dir.
Proof.
  intros w install. split; intros Hhave; split.
  - intros Hnpm. apply api_aborts, fail_fast_api_build_fails; [done|].
    by apply fail_fast_build_npm_missing.
  - intros t1 Hi Hy. apply api_aborts, fail_fast_api_build_fails; [done|].
    by apply (fail_fast_build_yarn_missing _ _ t1).
  - intros Hnpm. apply examples_aborts, fail_fast_examples_build_fails; [done|].
    by apply fail_fast_build_npm_missing.
  - intros t1 Hi Hy. apply examples_aborts, fail_fast_examples_build_fails; [done|].
    by apply (fail_fast_build_yarn_missing _ _ t1).
Qed.

Lemma failed_process_aborts_holds (out_dir : Path) :
  failed_process_aborts HERE which run_process out_dir.
Proof.
  intros w e install. split_and!.
  - intros npm Hnpm Hrun. split; intros Hhave.
    + apply api_aborts, fail_fast_api_build_fails; [done|].
      by apply (fail_fast_build_install_fails _ _ npm).
    + apply examples_aborts, fail_fast_examples_build_fails; [done|].
      by apply (fail_fast_build_install_fails _ _ npm).
  - intros Hhave. split.
    + intros Hi. apply api_aborts, fail_fast_api_build_fails; [done|].
      unfold fail_fast_build, and_then. fold install. by rewrite Hi.
    + intros t1 Hi yarn. split.
      * intros Hy. apply api_aborts, fail_fast_api_build_fails; [done|].
        unfold fail_fast_build, and_then. fold install. rewrite Hi. fold yarn.
        cbn [foldl]. by rewrite Hy.
      * intros t2 Hy Hd. apply api_aborts, fail_fast_api_build_fails; [done|].
        unfold fail_fast_build, and_then. fold install. rewrite Hi. fold yarn.
        cbn [foldl]. by rewrite Hy, Hd.
  - intros Hhave. split.
    + intros Hi. apply examples_aborts, fail_fast_examples_build_fails; [done|].
      unfold fail_fast_build, and_then. fold install. by rewrite Hi.
    + intros t1 Hi yarn. split.
      * intros Hy. apply examples_aborts, fail_fast_examples_build_fails; [done|].
        unfold fail_fast_build, and_then. fold install. rewrite Hi. fold yarn.
        cbn [foldl]. by rewrite Hy.
      * intros t2 Hy. split.
        -- intros Hb. apply examples_aborts, fail_fast_examples_build_fails; [done|].
           unfold fail_fast_build, and_then. fold install. rewrite Hi. fold yarn.
           cbn [foldl]. by rewrite Hy, Hb.
        -- intros t3 Hb Hx. apply examples_aborts, fail_fast_examples_build_fails; [done|].
           unfold fail_fast_build, and_then. fold install. rewrite Hi. fold yarn.
           cbn [foldl]. by rewrite Hy, Hb, Hx.
Qed.

Lemma failed_staging_aborts_holds (out_dir : Path) (app : App) :
  failed_staging_aborts HERE which run_process out_dir app.
Proof.
  intros w e. split_and!.
  - intros tb Htb. split.
    + intros Hc. apply api_aborts. unfold fail_fast_api_docs. rewrite Htb.
      unfold fail_fast_stage, and_then. unfold cleared in Hc.
      destruct (exists_at tb (osp_join out_dir ["api"])); [|done]. by rewrite Hc.
    + intros t0 Hc. split.
      * intros Hcp. apply api_aborts. unfold fail_fast_api_docs. rewrite Htb.
        unfold fail_fast_stage, and_then. unfold cleared in Hc.
        destruct (exists_at tb (osp_join out_dir ["api"])).
        -- by rewrite Hc, Hcp.
        -- injection Hc as ->. by rewrite Hcp.
      * intros t1 Hcp Hpage. apply api_aborts. unfold fail_fast_api_docs. rewrite Htb.
        unfold fail_fast_stage, and_then. unfold cleared in Hc.
        destruct (exists_at tb (osp_join out_dir ["api"])).
        -- by rewrite Hc, Hcp, Hpage.
        -- injection Hc as ->. by rewrite Hcp, Hpage.
  - intros tb Htb. split.
    + intros Hc. apply examples_aborts. unfold fail_fast_examples. rewrite Htb.
      unfold fail_fast_stage, and_then. unfold cleared in Hc.
      destruct (exists_at tb (osp_join out_dir ["examples"])); [|done]. by rewrite Hc.
    + intros t0 Hc Hcp. apply examples_aborts. unfold fail_fast_examples. rewrite Htb.
      unfold fail_fast_stage, and_then. unfold cleared in Hc.
      destruct (exists_at tb (osp_join out_dir ["examples"])).
      * by rewrite Hc, Hcp.
      * injection Hc as ->. by rewrite Hcp.
  - intros tb Hhave Hb Hloop. apply examples_aborts.
    unfold fail_fast_examples, examples_built_tree. by rewrite Hhave, Hb, Hloop.
  - intros Hc. apply setup_aborts. unfold fail_fast_setup, and_then. by rewrite Hc.
Qed.

Lemma failed_routine_aborts_setup_holds (app : App) :
  failed_routine_aborts_setup HERE which run_process app.
Proof.
  intros w w1 w2 e Hc Hcss. unfold changelog_copy in Hc. split.
  - intros w3 Hapi. unfold setup. rewrite run_bind, Hc, run_bind, Hcss, run_bind.
    by rewrite Hapi.
  - intros w3 w4 Hapi Hex. unfold setup. rewrite run_bind, Hc, run_bind, Hcss, run_bind.
    by rewrite Hapi.
Qed.

(** C7: no routine of the module catches an exception, and every
    failure the claim names ends the run.  In every run of
    [build_api_docs], of [build_examples], of [setup] and of the
    module-level reading of the manifest, a call that fails is the last
    call of the run and the run raises the very exception of that call;
    what a run leaves is what its library calls leave when the first
    failure cuts the chain.  In particular a manifest without the key
    [version] raises [KeyError], a tool that [shutil.which] does not
    find raises [TypeError] from the next [check_call], a process that
    exits with a non-zero status raises its error at whichever command
    of the chain it happens, a removal or a copy that the file system
    refuses raises its error, and a routine that raises makes [setup]
    raise without starting the next routine. *)
Theorem failures_propagate (out_dir : Path) (app : App) :
  no_handler HERE which run_process json_loads out_dir app ∧
  fails_fast HERE which run_process json_loads out_dir app ∧
  missing_key_aborts HERE json_loads ∧
  missing_tool_aborts HERE which run_process out_dir ∧
  failed_process_aborts HERE which run_process out_dir ∧
  failed_staging_aborts HERE which run_process out_dir app ∧
  failed_routine_aborts_setup HERE which run_process app.
Proof.
  split_and!.
  - apply no_handler_holds.
  - apply fails_fast_holds.
  - apply missing_key_aborts_holds.
  - apply missing_tool_aborts_holds.
  - apply failed_process_aborts_holds.
  - apply failed_staging_aborts_holds.
  - apply failed_routine_aborts_setup_holds.
Qed.

End FailFastProofs.

(** ** Removal before the copy, and the decision to build *)

Lemma refines_returns (m : M unit) (f : node → exn + node) (w : World) (t : node) :
  refines m f → f (fs w) = inr t → ∃ w', m w = Ok tt w' ∧ fs w' = t.
Proof.
  intros Hm Hf. specialize (Hm w). rewrite Hf in Hm.
  destruct (m w) as [[] w'|e w']; [|done]. injection Hm as <-. by exists w'.
Qed.

Lemma rmtree_at_dir (p : Path) (c : string) (t : node) :
  c ≠ pardir →
  is_dir (node_at t (p ++ [c])) = true →
  rmtree_at (p ++ [c]) t = inr (tt, del t (norm (p ++ [c]))).
Proof.
  intros Hc. unfold node_at, rmtree_at.
  destruct (resolve t (p ++ [c])) as [e|q] eqn:E; [done|].
  pose proof (resolve_norm _ _ _ E) as ->.
  destruct (get t (norm (p ++ [c]))) as [[d|m]|]; [done| |done]. intros _.
  rewrite decide_False; [done|].
  rewrite norm_snoc by done. by destruct (norm p).
Qed.

Section ReplacedProofs.

Variable HERE : Path.
Variable which : string → node → option string.
Variable run_process : list string → Path → node → exn + node.
Local Abbreviation build_api_docs := (build_api_docs HERE which run_process).
Local Abbreviation build_examples := (build_examples HERE which run_process).
Local Abbreviation api_page := (api_page HERE).
Local Abbreviation api_built_tree := (api_built_tree HERE which run_process).
Local Abbreviation api_removed_first := (api_removed_first HERE which run_process).

(** The build phase of [build_api_docs] returns in the tree
    [api_built_tree] gives. *)
Lemma api_build_phase (w : World) (tb : node) :
  api_built_tree (fs w) = inr tb →
  ∃ wb,
    (if exists_at (fs w) (api_index HERE)
     then print ("already have " +:+ path_str (api_index HERE))
     else
       print "Building lumino API docs";;
       npm ← shutil_which which "npm";
       check_call run_process ([npm] ++ [Some "install"; Some "-g"; Some "yarn"]) (root HERE);;
       yarn ← shutil_which which "yarn";
       check_call run_process [yarn] (root HERE);;
       check_call run_process ([yarn] ++ [Some "docs"]) (root HERE)) w = Ok tt wb ∧
    fs wb = tb.
Proof.
  unfold api_built_tree. destruct (exists_at (fs w) (api_index HERE)).
  - intros [= <-]. by apply (refines_returns _ inr); [apply refines_print|].
  - apply refines_returns, refines_api_chain.
Qed.

(** A destination that exists and that [rmtree] refuses is a file. *)
Lemma rmtree_at_refused (p : Path) (c : string) (t : node) (e : exn) (r : Path) :
  c ≠ pardir →
  exists_at t (p ++ [c]) = true →
  rmtree_at (p ++ [c]) t = inl e →
  r ≠ [] → get t (norm (p ++ [c]) ++ r) = None.
Proof.
  intros Hc. unfold exists_at, node_at, rmtree_at.
  destruct (resolve t (p ++ [c])) as [e'|q] eqn:E; [done|].
  pose proof (resolve_norm _ _ _ E) as ->.
  destruct (get t (norm (p ++ [c]))) as [[d|m]|] eqn:Hg; [| |done].
  - intros _ _ Hr. by apply (get_File_app _ _ _ d).
  - rewrite decide_False; [done|].
    rewrite norm_snoc by done. by destruct (norm p).
Qed.

Lemma api_removed_first_holds (out_dir : Path) (w : World) (tb : node) :
  api_built_tree (fs w) = inr tb →
  exists_at tb (osp_join out_dir ["api"]) = true →
  api_removed_first out_dir w tb.
Proof.
  intros Htb Hex.
  assert (norm (osp_join out_dir ["api"]) ≠ []) as Hne.
  { unfold osp_join. rewrite norm_snoc by done. by destruct (norm out_dir). }
  unfold api_removed_first. cbv zeta.
  match goal with |- ?P ∧ _ => assert P as Hrun end.
  { destruct (api_build_phase w tb Htb) as (wb & Hb & Hfs).
    unfold build_api_docs.
    rewrite emitted_exists_bind by (intros; auto 40 with propagate).
    rewrite run_exists_bind.
    rewrite emitted_bind by (try destruct (exists_at _ _); intros; auto 40 with propagate).
    rewrite (run_bind _ _ w), Hb.
    rewrite emitted_print_bind by (intros; auto 40 with propagate).
    rewrite run_print_bind.
    rewrite emitted_exists_bind by (intros; auto 40 with propagate).
    rewrite run_exists_bind. cbn [fs record with_fs]. rewrite Hfs, Hex.
    unfold shutil_rmtree. rewrite emitted_call_bind by (intros; auto 40 with propagate).
    rewrite run_call_bind. cbn [fs record with_fs]. rewrite Hfs.
    eexists (_ ++ [_]), _. split; [by rewrite <- app_assoc|].
    split.
    { apply Forall_app. split; [apply api_build_nonstaging|by repeat constructor]. }
    destruct (rmtree_at (osp_join out_dir ["api"]) tb) as [e|[[] t0]] eqn:Hrm.
    + split; [done|]. eexists. split; [done|]. by cbn [fs record].
    + apply rmtree_at_inv in Hrm as ->. split; [done|].
      unfold shutil_copytree. rewrite emitted_call_bind by (intros; auto 40 with propagate).
      rewrite run_call_bind. cbn [fs record with_fs].
      destruct (copytree_at (docs_api HERE) (osp_join out_dir ["api"])
                  (del tb (norm (osp_join out_dir ["api"])))) as [e|[[] t1]] eqn:Hcp.
      * split; [done|]. eexists. split; [done|]. by cbn [fs record with_fs].
      * unfold shutil_copy. rewrite emitted_call. cbn [fs record with_fs outcome_of].
        split; [done|]. unfold call. cbn [fs record with_fs].
        by destruct (copy_at _ _ t1) as [e|[[] t2]]. }
  split; [exact Hrun|]. split; [|split; [|split]].
  - apply (rmtree_at_dir out_dir "api"). done.
  - intros r. by apply get_del_under.
  - intros q Hq. by apply get_del_apart.
  - intros t1 Hcp. split; [intros r; by apply copytree_get_dst|].
    intros r Hr0.
    destruct Hrun as (l & rest & _ & _ & Hrun).
    destruct (rmtree_at (osp_join out_dir ["api"]) tb) as [e|[[] t0]] eqn:Hrm.
    + destruct Hrun as (_ & w' & Hr & Hfs). rewrite Hr. cbn [final]. rewrite Hfs.
      pose proof (rmtree_at_refused out_dir "api" tb e r ltac:(done) Hex Hrm Hr0) as Hnone.
      unfold osp_join. rewrite Hnone. by intros [].
    + destruct Hrun as (_ & Hrun). rewrite Hcp in Hrun. destruct Hrun as (_ & ->).
      destruct (copy_at api_page (api_dest_index out_dir) t1) as [e|[[] t2]] eqn:Hcopy.
      * intros Hsome. left. by eapply copytree_no_stale.
      * intros Hsome.
        destruct (overlay_no_stale _ _ _ "index.html" _ _ _ ltac:(done)
                    ltac:(by rewrite api_page_basename) Hcp Hcopy r Hr0 Hsome)
          as [H|[H|H]]; [by left|by right; left|].
        right; right. by rewrite api_page_basename in H.
Qed.


Local Abbreviation examples_skipped := (examples_skipped HERE which run_process).
Local Abbreviation examples_build_started := (examples_build_started HERE which run_process).

Lemma examples_build_started_holds (out_dir : Path) (w : World) :
  exists_at (fs w) (example_index HERE) = false →
  examples_build_started out_dir w.
Proof.
  intros Hhave. unfold examples_build_started. cbv zeta.
  assert (∃ l, emitted (build_examples out_dir) w =
            succeeded (OPrint "Building lumino examples")
            :: (OCheckCall [which "npm" (fs w); Some "install"; Some "-g"; Some "yarn"]
                  (root HERE),
                outcome_of (check_call_at run_process
                              [which "npm" (fs w); Some "install"; Some "-g"; Some "yarn"]
                              (root HERE) (fs w)))
            :: l) as Hfirst.
  { pose proof (propagates_copy_example HERE) as Pc.
    unfold build_examples.
    rewrite emitted_exists_bind by (intros; auto 40 with propagate).
    rewrite Hhave.
    rewrite emitted_assoc.
    rewrite emitted_print_bind by (intros; auto 40 with propagate).
    rewrite emitted_assoc.
    rewrite emitted_which_bind by (intros; auto 40 with propagate).
    cbn [fs record].
    rewrite emitted_assoc.
    rewrite emitted_check_call_bind by (intros; auto 40 with propagate).
    cbn [fs record app]. by eexists. }
  split; [exact Hfirst|].
  intros Hr.
  destruct (build_examples_returned HERE which run_process out_dir w Hr)
    as (npm & yarn & st1 & st2 & st3 & stale & E).
  rewrite Hhave in E. destruct Hfirst as (l & El).
  exists yarn, st1, st2, st3, stale.
  rewrite E in El. unfold examples_script, yarn_script in El. simpl in El.
  injection El as El _ _. by rewrite E, <- El.
Qed.

(** C10: whether [build_examples] builds depends on one file only, the
    marker [source/examples/accordionpanel/index.html] of the first
    listed example.  Whenever it exists the run makes, in this order,
    two prints, the removal of an existing [<out_dir>/examples] and the
    copy of the aggregated tree, and nothing else: no [check_call], and
    no copy of any example from the repository into the documentation
    sources, whatever the state of the other examples.  Whenever it
    does not exist the run builds: its first call after the message is
    the install of the build tool, and a run that returns has made the
    four build commands and the three copies, whatever else the tree
    holds. *)
Theorem examples_marker_decides (out_dir : Path) (w : World) :
  if exists_at (fs w) (osp_join (examples_dir HERE) ["accordionpanel"; "index.html"])
  then examples_skipped out_dir w
  else examples_build_started out_dir w.
Proof.
  destruct (exists_at (fs w) (osp_join (examples_dir HERE) ["accordionpanel"; "index.html"]))
    eqn:Hhave.
  - by apply examples_skipped_when_marker.
  - by apply examples_build_started_holds.
Qed.

(** X10: no rollback.  When [build_api_docs] comes to the staging with a
    directory at [<out_dir>/api], and the generated tree is not a
    directory once that destination is removed (the build left none, or
    it was inside the destination), the removal succeeds, the copy
    fails before it creates anything, and the run raises the error of
    the copy with nothing at [<out_dir>/api]: the old staging is gone
    and is not restored. *)
Theorem api_failed_copy_not_restored (out_dir : Path) (w : World) (tb : node) :
  api_built_tree (fs w) = inr tb →
  is_dir (node_at tb (osp_join out_dir ["api"])) = true →
  is_dir (node_at (del tb (norm (osp_join out_dir ["api"]))) (docs_api HERE)) = false →
  ∃ e w' l,
    build_api_docs out_dir w = Raise e w' ∧
    fs w' = del tb (norm (osp_join out_dir ["api"])) ∧
    (∀ r, get (fs w') (norm (osp_join out_dir ["api"]) ++ r) = None) ∧
    emitted (build_api_docs out_dir) w =
      l ++ [succeeded (ORmtree (osp_join out_dir ["api"]));
            (OCopytree (docs_api HERE) (osp_join out_dir ["api"]), Failed e)] ∧
    Forall (λ x, is_staging x.1 = false) l.
Proof.
  intros Htb Hdir Hsrc.
  assert (exists_at tb (osp_join out_dir ["api"]) = true) as Hex.
  { unfold exists_at. by destruct (node_at tb (osp_join out_dir ["api"])). }
  destruct (api_removed_first_holds out_dir w tb Htb Hex)
    as ((l & rest & El & Hl & Hrun) & Hrm & Hgone & _).
  rewrite (Hrm Hdir) in Hrun, El. destruct Hrun as (_ & Hrun).
  destruct (copytree_at (docs_api HERE) (osp_join out_dir ["api"])
              (del tb (norm (osp_join out_dir ["api"])))) as [e|[[] t1]] eqn:Hcp.
  - destruct Hrun as (-> & w' & Hr & Hfs).
    exists e, w', l. split; [done|]. split; [done|].
    split; [intros r; rewrite Hfs; apply Hgone|]. by split.
  - exfalso. apply copytree_at_inv in Hcp as Hinv. destruct Hinv as (m & Hs & _).
    apply copytree_at_resolve in Hcp as [Hres _].
    unfold node_at in Hsrc. by rewrite Hres, Hs in Hsrc.
Qed.

End ReplacedProofs.

(** ** Runs on the concrete checkout *)

Module Runs.

Import Checkout.

(** With the marker in place no process is started. *)
Lemma api_marker_no_process_built :
  exists_at (fs built) (api_index HERE) = true ∧
  ∀ args cwd r,
    (OCheckCall args cwd, r)
    ∉ emitted (build_api_docs HERE which run_process out_dir) built.
Proof.
  split; [reflexivity|].
  apply (api_marker_no_process HERE which run_process out_dir built). reflexivity.
Defined.

(** From a fresh checkout the build chain runs before anything is staged. *)
Lemma api_build_before_staging_fresh :
  exists_at (fs fresh) (api_index HERE) = false ∧
  builds_before_staging HERE which run_process out_dir fresh.
Proof.
  split; [reflexivity|].
  apply (api_build_before_staging HERE which run_process out_dir fresh). reflexivity.
Defined.

(** From a fresh checkout the three examples are copied. *)
Lemma examples_copied_when_built_fresh :
  exists_at (fs fresh) (example_index HERE) = false ∧
  returned (examples fresh) = true ∧
  copies_exactly_examples HERE which run_process out_dir fresh.
Proof.
  split; [reflexivity|]. split; [vm_compute; reflexivity|].
  apply (examples_copied_when_built HERE which run_process out_dir fresh);
    vm_compute; reflexivity.
Defined.

(** C3 fails as stated: with the marker in place the run copies no
    example at all, so [datagrid] is a named example that is not copied. *)
Lemma examples_not_copied_built :
  ¬ copies_exactly_examples HERE which run_process out_dir built.
Proof.
  intros H. destruct (H "datagrid") as [_ Hc].
  assert ("datagrid" ∈ EXAMPLES) as Hin by (unfold EXAMPLES; elem_here).
  apply Hc in Hin. unfold example_copied in Hin. vm_compute in Hin.
  elem_cases Hin; discriminate.
Qed.

(** From a fresh checkout the examples are copied, then the aggregated
    tree is staged. *)
Lemma examples_staged_last_fresh :
  returned (examples fresh) = true ∧
  stages_examples HERE which run_process out_dir fresh.
Proof.
  split; [vm_compute; reflexivity|].
  apply (examples_staged_last HERE which run_process out_dir fresh).
  vm_compute; reflexivity.
Defined.

(** C4 fails as stated: with the marker in place the run returns, and
    stages the aggregated tree, without having copied any example. *)
Lemma examples_staged_without_copies_built :
  returned (examples built) = true ∧
  ¬ copies_examples_then_stages HERE which run_process out_dir built.
Proof.
  split; [vm_compute; reflexivity|].
  intros (l & E & Hc).
  assert (example_copied HERE (emitted (build_examples HERE which run_process out_dir) built)
            "datagrid") as Hin.
  { unfold example_copied. rewrite E. apply elem_of_app. left.
    apply Hc. unfold EXAMPLES. elem_here. }
  unfold example_copied in Hin. vm_compute in Hin.
  elem_cases Hin; discriminate.
Qed.


(** The index page is laid over the staged tree. *)
Lemma api_index_page_last_built :
  api_docs built = Ok tt (final (api_docs built)) ∧
  api_index_overlaid HERE which run_process out_dir built (final (api_docs built)).
Proof.
  split; [vm_compute; reflexivity|].
  apply (api_index_page_last HERE which run_process out_dir built).
  vm_compute; reflexivity.
Defined.

(** C9 fails as stated: when the generated tree has a directory named
    [index.html], the run returns and [<out_dir>/api/index.html] is that
    directory, not the index page. *)
Lemma api_index_not_page_odd :
  returned (api_docs odd) = true ∧
  ¬ api_index_is_page HERE out_dir (final (api_docs odd)).
Proof.
  split; [vm_compute; reflexivity|].
  intros (data & _ & H). vm_compute in H. discriminate.
Qed.

(** With the marker of the first example the build is skipped, though
    the second example is nowhere; without it the build starts. *)
Lemma examples_marker_decides_built :
  (exists_at (fs built) (example_dest HERE "datagrid") = false ∧
   exists_at (fs built) (example_source HERE "datagrid") = false ∧
   examples_skipped HERE which run_process out_dir built) ∧
  examples_build_started HERE which run_process out_dir fresh.
Proof.
  split.
  - split; [reflexivity|]. split; [reflexivity|].
    exact (examples_marker_decides HERE which run_process out_dir built).
  - exact (examples_marker_decides HERE which run_process out_dir fresh).
Defined.

(** The version of the checkout. *)
Lemma manifest_version_fresh :
  ∃ w', load_manifest HERE json_loads fresh
        = Ok {| version := PyStr "2.0.0"; release := PyStr "2.0.0" |} w' ∧
        fs w' = fs fresh.
Proof.
  apply (manifest_version HERE json_loads fresh manifest_text
           (list_to_map [("name", PyStr "lumino"); ("version", PyStr "2.0.0")])
           (PyStr "2.0.0")); reflexivity.
Defined.

(** The old page is gone from the staged tree, the index page is the
    fixed one. *)
Example api_dest_replaced_built_files :
  get (fs (final (api_docs built))) (out_dir ++ ["api"; "removed.html"]) = None ∧
  get (fs (final (api_docs built))) (out_dir ++ ["api"; "index.html"])
  = Some (File "<fixed index>") ∧
  get (fs (final (api_docs built))) (out_dir ++ ["api"; "algorithm"; "index.html"])
  = Some (File "<algorithm>").
Proof. repeat split; vm_compute; reflexivity. Qed.

(** Without the index page the run fails in its last call, after the old
    staging has been replaced by the generated tree. *)
Example api_dest_replaced_pageless :
  (∃ w', api_docs pageless = Raise FileNotFoundError w') ∧
  api_tree_copied HERE which run_process out_dir pageless ∧
  get (fs (final (api_docs pageless))) (out_dir ++ ["api"; "removed.html"]) = None ∧
  get (fs (final (api_docs pageless))) (out_dir ++ ["api"; "index.html"])
  = Some (File "<typedoc index>").
Proof.
  split; [eexists; vm_compute; reflexivity|].
  split; [unfold api_tree_copied; vm_compute; elem_here|].
  split; vm_compute; reflexivity.
Qed.

(** In the odd checkout the page ends up inside the directory. *)
Example api_index_inside_directory_odd :
  is_dir (get (fs (final (api_docs odd))) (out_dir ++ ["api"; "index.html"])) = true ∧
  get (fs (final (api_docs odd))) (out_dir ++ ["api"; "index.html"; "api_index.html"])
  = Some (File "<fixed index>").
Proof. split; vm_compute; reflexivity. Qed.

(** Failures, as they reach the caller of [setup]. *)

Example setup_tool_not_found :
  ∃ w', setup HERE which_nothing run_process app fresh = Raise TypeError w' ∧
        ops (log w') =
          [OCopy (osp_join HERE [pardir; pardir; "CHANGELOG.md"]) (osp_join HERE ["changelog.md"]);
           OAddCssFile "css/custom.css";
           OPrint "Building lumino API docs";
           OCheckCall [None; Some "install"; Some "-g"; Some "yarn"] (root HERE)].
Proof. eexists. split; vm_compute; reflexivity. Qed.

Example setup_process_failed :
  ∃ w', setup HERE which run_failing app fresh = Raise (CalledProcessError 2) w' ∧
        last (log w') =
          Some (OCheckCall [Some "/usr/bin/npm"; Some "install"; Some "-g"; Some "yarn"]
                  (root HERE),
                Failed (CalledProcessError 2)).
Proof. eexists. split; vm_compute; reflexivity. Qed.

Example setup_changelog_missing :
  ∃ w', setup HERE which run_process app {| fs := Dir ∅; css_files := []; log := [] |}
        = Raise FileNotFoundError w' ∧
        log w' = [(OCopy (osp_join HERE [pardir; pardir; "CHANGELOG.md"])
                     (osp_join HERE ["changelog.md"]),
                   Failed FileNotFoundError)].
Proof. eexists. split; vm_compute; reflexivity. Qed.

Example manifest_key_missing :
  ∃ w', load_manifest HERE (λ _, inr (PyDict ∅)) fresh = Raise (KeyError "version") w'.
Proof. eexists. vm_compute. reflexivity. Qed.

Example setup_returns_fresh : returned (setup HERE which run_process app fresh) = true.
Proof. vm_compute. reflexivity. Qed.

End Runs.

(** ** More runs on the concrete checkout *)

Module MoreRuns.

Import Checkout.
Import Cases.

(** The manifest of the checkout is an object with a version. *)
Lemma manifest_returns_only_if_fresh :
  returned (load_manifest HERE json_loads fresh) = true ∧
  ∃ text d v,
    node_at (fs fresh) (package_json HERE) = Some (File text) ∧
    json_loads text = inr (PyDict d) ∧
    d !! "version" = Some v ∧
    ∃ w', load_manifest HERE json_loads fresh = Ok {| version := v; release := v |} w'.
Proof.
  split; [vm_compute; reflexivity|].
  apply (manifest_returns_only_if HERE json_loads fresh). vm_compute; reflexivity.
Defined.

(** A manifest without a version. *)
Lemma manifest_missing_key_fresh :
  ∃ w', load_manifest HERE json_unversioned fresh = Raise (KeyError "version") w' ∧
        fs w' = fs fresh ∧
        log w' = log fresh ++ [succeeded (OReadText (package_json HERE));
                               succeeded OJsonLoads;
                               (OGetItem "version", Failed (KeyError "version"))].
Proof.
  apply (manifest_missing_key HERE json_unversioned fresh manifest_text
           (list_to_map [("name", PyStr "lumino")])); reflexivity.
Defined.

(** A manifest that is an array. *)
Lemma manifest_not_an_object_fresh :
  ∃ w', load_manifest HERE json_array fresh = Raise TypeError w' ∧ fs w' = fs fresh.
Proof.
  apply (manifest_not_an_object HERE json_array fresh manifest_text
           (PyList [PyStr "lumino"])); reflexivity.
Defined.

(** No tool installed. *)
Lemma api_npm_missing_fresh :
  ∃ w', build_api_docs HERE which_nothing run_process out_dir fresh = Raise TypeError w' ∧
        fs w' = fs fresh ∧
        log w' = log fresh ++
          [succeeded (OPrint "Building lumino API docs");
           (OCheckCall [None; Some "install"; Some "-g"; Some "yarn"] (root HERE),
            Failed TypeError)].
Proof.
  apply (api_npm_missing HERE which_nothing run_process out_dir fresh); reflexivity.
Defined.

(** Only [npm] installed: the second command is started without a
    program. *)
Lemma api_yarn_found_after_install_fresh :
  ∃ l,
    emitted (build_api_docs HERE which_npm run_process out_dir) fresh =
      [succeeded (OPrint "Building lumino API docs");
       succeeded (OCheckCall [Some "/usr/bin/npm"; Some "install"; Some "-g"; Some "yarn"]
                    (root HERE));
       (OCheckCall [which_npm "yarn" (fs fresh)] (root HERE),
        outcome_of (check_call_at run_process [which_npm "yarn" (fs fresh)] (root HERE)
                      (fs fresh)))] ++ l.
Proof.
  apply (api_yarn_found_after_install HERE which_npm run_process out_dir fresh
           "/usr/bin/npm" (fs fresh)); reflexivity.
Defined.

(** A build tool that fails. *)
Lemma api_failed_build_stages_nothing_fresh :
  (∃ w', build_api_docs HERE which run_failing out_dir fresh
         = Raise (CalledProcessError 2) w') ∧
  Forall (λ x, is_staging x.1 = false)
    (emitted (build_api_docs HERE which run_failing out_dir) fresh).
Proof.
  apply (api_failed_build_stages_nothing HERE which run_failing out_dir fresh
           [Some "/usr/bin/npm"; Some "install"; Some "-g"; Some "yarn"] (root HERE)
           (CalledProcessError 2)).
  vm_compute. elem_here.
Defined.

Lemma examples_failed_build_stages_nothing_fresh :
  (∃ w', build_examples HERE which run_failing out_dir fresh
         = Raise (CalledProcessError 2) w') ∧
  Forall (λ x, is_staging x.1 = false)
    (emitted (build_examples HERE which run_failing out_dir) fresh).
Proof.
  apply (examples_failed_build_stages_nothing HERE which run_failing out_dir fresh
           [Some "/usr/bin/npm"; Some "install"; Some "-g"; Some "yarn"] (root HERE)
           (CalledProcessError 2)).
  vm_compute. elem_here.
Defined.

(** A file in the place of the staged API documentation. *)
Lemma api_dest_is_file_blocked :
  ∃ w', build_api_docs HERE which run_process out_dir blocked
        = Raise NotADirectoryError w' ∧
        fs w' = fs blocked ∧
        log w' = log blocked ++
          [succeeded (OPrint ("already have " +:+ path_str (api_index HERE)));
           succeeded (OPrint ("Copying " +:+ path_str (docs_api HERE) +:+ " -> "
                              +:+ path_str (osp_join out_dir ["api"])));
           (ORmtree (osp_join out_dir ["api"]), Failed NotADirectoryError)].
Proof.
  apply (api_dest_is_file HERE which run_process out_dir blocked "not a directory");
    reflexivity.
Defined.

(** The build produces nothing: the old staging is removed, the copy
    fails, and nothing is left at the destination. *)
Lemma api_failed_copy_not_restored_staged :
  ∃ e w' l,
    build_api_docs HERE which run_idle out_dir staged = Raise e w' ∧
    fs w' = del (fs staged) (norm (osp_join out_dir ["api"])) ∧
    (∀ r, get (fs w') (norm (osp_join out_dir ["api"]) ++ r) = None) ∧
    emitted (build_api_docs HERE which run_idle out_dir) staged =
      l ++ [succeeded (ORmtree (osp_join out_dir ["api"]));
            (OCopytree (docs_api HERE) (osp_join out_dir ["api"]), Failed e)] ∧
    Forall (λ x, is_staging x.1 = false) l.
Proof.
  apply (api_failed_copy_not_restored HERE which run_idle out_dir staged (fs staged));
    reflexivity.
Defined.

(** The error of that run, and what is left. *)
Example api_failed_copy_not_restored_staged_files :
  (∃ w', build_api_docs HERE which run_idle out_dir staged = Raise FileNotFoundError w') ∧
  get (fs (final (build_api_docs HERE which run_idle out_dir staged)))
    (out_dir ++ ["api"]) = None ∧
  is_dir (get (fs staged) (out_dir ++ ["api"])) = true.
Proof. split; [eexists; vm_compute; reflexivity|]. split; vm_compute; reflexivity. Qed.

(** The index page of the sources is outside the staged tree. *)
Lemma api_skip_touches_only_dest_built :
  get (fs (final (api_docs built))) (HERE ++ ["api_index.html"])
  = get (fs built) (HERE ++ ["api_index.html"]).
Proof.
  apply (api_skip_touches_only_dest HERE which run_process out_dir built
           (HERE ++ ["api_index.html"])); reflexivity.
Defined.

Lemma examples_skip_touches_only_dest_built :
  get (fs (final (examples built))) (HERE ++ ["api_index.html"])
  = get (fs built) (HERE ++ ["api_index.html"]).
Proof.
  apply (examples_skip_touches_only_dest HERE which run_process out_dir built
           (HERE ++ ["api_index.html"])); reflexivity.
Defined.

(** The markers survive the staging. *)
Lemma api_skip_stable_built :
  exists_at (fs (final (api_docs built))) (api_index HERE) = true.
Proof.
  apply (api_skip_stable HERE which run_process out_dir built (final (api_docs built)));
    vm_compute; reflexivity.
Defined.

Lemma examples_skip_stable_built :
  exists_at (fs (final (examples built))) (example_index HERE) = true.
Proof.
  apply (examples_skip_stable HERE which run_process out_dir built (final (examples built)));
    vm_compute; reflexivity.
Defined.

(** Staging twice. *)
Lemma api_restage_idempotent_built :
  ∃ w'', build_api_docs HERE which run_process out_dir (final (api_docs built)) = Ok tt w'' ∧
         fs w'' = fs (final (api_docs built)).
Proof.
  apply (api_restage_idempotent HERE which run_process out_dir built (final (api_docs built)));
    vm_compute; reflexivity.
Defined.

Lemma examples_restage_idempotent_built :
  ∃ w'', build_examples HERE which run_process out_dir (final (examples built)) = Ok tt w'' ∧
         fs w'' = fs (final (examples built)).
Proof.
  apply (examples_restage_idempotent HERE which run_process out_dir built
           (final (examples built)));
    vm_compute; reflexivity.
Defined.

(** The staged examples are the examples of the sources. *)
Lemma examples_dest_replica_built :
  (∀ r v, r ≠ [] →
     get (fs (final (examples built))) (norm (osp_join out_dir ["examples"]) ++ r) = Some v →
     get (fs (final (examples built))) (norm (examples_dir HERE) ++ r) = Some v) ∧
  (apart (norm (osp_join out_dir ["examples"])) (norm (examples_dir HERE)) = true →
   ∀ r, get (fs (final (examples built))) (norm (osp_join out_dir ["examples"]) ++ r)
        = get (fs (final (examples built))) (norm (examples_dir HERE) ++ r)).
Proof.
  apply (examples_dest_replica HERE which run_process out_dir built (final (examples built))).
  vm_compute; reflexivity.
Defined.

(** From a fresh checkout every example ends up in place. *)
Lemma examples_built_in_place_fresh :
  get (fs (final (examples fresh))) (norm (example_dest HERE "datagrid") ++ ["index.html"])
  = get (fs (final (examples fresh))) (norm (example_source HERE "datagrid") ++ ["index.html"]) ∧
  get (fs (final (examples fresh)))
    (norm (osp_join out_dir ["examples"]) ++ "datagrid" :: ["index.html"])
  = get (fs (final (examples fresh))) (norm (example_source HERE "datagrid") ++ ["index.html"]).
Proof.
  apply (examples_built_in_place HERE which run_process out_dir fresh (final (examples fresh))
           "datagrid" ["index.html"]).
  - reflexivity.
  - vm_compute; reflexivity.
  - vm_compute; reflexivity.
  - vm_compute; reflexivity.
  - unfold EXAMPLES. elem_here.
Defined.

(** A build that produces the first example only. *)
Lemma examples_partial_copy_sets_marker_fresh :
  let t := fs (final (build_examples HERE which run_partial out_dir fresh)) in
  get t (norm (example_dest HERE "datagrid")) = None ∧
  (∀ r, get t (norm (example_dest HERE "accordionpanel") ++ r)
        = get t (norm (example_source HERE "accordionpanel") ++ r)) ∧
  (is_Some (get t (norm (example_source HERE "accordionpanel") ++ ["index.html"])) →
   exists_at t (example_index HERE) = true).
Proof.
  apply (examples_partial_copy_sets_marker HERE which run_partial
           ltac:(apply (bool_decide_unpack (pardir ∉ HERE)); vm_compute; exact I)
           out_dir fresh "datagrid" FileNotFoundError).
  - left. reflexivity.
  - vm_compute. elem_here.
Defined.

(** After the partial build the marker is there and the second example
    is not: the next run skips the build and the copies. *)
Example examples_partial_copy_then_skip :
  let w' := final (build_examples HERE which run_partial out_dir fresh) in
  exists_at (fs w') (example_index HERE) = true ∧
  get (fs w') (norm (example_dest HERE "datagrid")) = None ∧
  ops (emitted (build_examples HERE which run_partial out_dir) w')
  = [OPrint "already have examples";
     OPrint ("Copying " +:+ path_str (examples_dir HERE) +:+ " -> "
             +:+ path_str (osp_join out_dir ["examples"]));
     OCopytree (examples_dir HERE) (osp_join out_dir ["examples"])].
Proof. repeat split; vm_compute; reflexivity. Qed.

(** Each failure the routines can meet, on the checkout: a manifest
    without a version, no tool on the search path, a build that exits
    with status 2, a file in the way of the removal, a missing
    changelog. *)
Lemma failures_propagate_checkout :
  aborts (load_manifest HERE json_unversioned) fresh (KeyError "version") ∧
  aborts (build_api_docs HERE which_nothing run_process out_dir) fresh TypeError ∧
  aborts (build_examples HERE which_nothing run_process out_dir) fresh TypeError ∧
  aborts (build_api_docs HERE which run_failing out_dir) fresh (CalledProcessError 2) ∧
  aborts (build_examples HERE which run_failing out_dir) fresh (CalledProcessError 2) ∧
  aborts (build_api_docs HERE which run_process out_dir) blocked NotADirectoryError ∧
  aborts (build_api_docs HERE which run_idle out_dir) staged FileNotFoundError ∧
  aborts (setup HERE which run_failing app) fresh (CalledProcessError 2).
Proof.
  split_and!.
  - destruct (failures_propagate HERE which run_process json_unversioned out_dir app)
      as (_ & _ & Hkey & _).
    apply (Hkey fresh manifest_text (list_to_map [("name", PyStr "lumino")])); reflexivity.
  - destruct (failures_propagate HERE which_nothing run_process json_loads out_dir app)
      as (_ & _ & _ & Htool & _).
    apply (Htool fresh); reflexivity.
  - destruct (failures_propagate HERE which_nothing run_process json_loads out_dir app)
      as (_ & _ & _ & Htool & _).
    apply (Htool fresh); reflexivity.
  - destruct (failures_propagate HERE which run_failing json_loads out_dir app)
      as (_ & _ & _ & _ & Hexit & _).
    apply (Hexit fresh (CalledProcessError 2)); reflexivity.
  - destruct (failures_propagate HERE which run_failing json_loads out_dir app)
      as (_ & _ & _ & _ & Hexit & _).
    apply (Hexit fresh (CalledProcessError 2)); reflexivity.
  - destruct (failures_propagate HERE which run_process json_loads out_dir app)
      as (_ & _ & _ & _ & _ & Hfs & _).
    destruct (Hfs blocked NotADirectoryError) as (Hapi & _).
    destruct (Hapi (fs blocked) eq_refl) as (Hrm & _).
    apply Hrm. reflexivity.
  - destruct (failures_propagate HERE which run_idle json_loads out_dir app)
      as (_ & _ & _ & _ & _ & Hfs & _).
    destruct (Hfs staged FileNotFoundError) as (Hapi & _).
    destruct (Hapi (fs staged) eq_refl) as (_ & Hcp).
    destruct (Hcp (del (fs staged) (norm (osp_join out_dir ["api"]))) eq_refl) as (Hfail & _).
    apply Hfail. reflexivity.
  - destruct (failures_propagate HERE which run_failing json_loads out_dir app)
      as ((_ & Hlast) & _).
    destruct (Hlast fresh
                (OCheckCall [Some "/usr/bin/npm"; Some "install"; Some "-g"; Some "yarn"]
                   (root HERE))
                (CalledProcessError 2)) as (_ & _ & _ & Hsetup).
    apply Hsetup. vm_compute. elem_here.
Defined.

End MoreRuns.
